(** * The Biscotti Cafe order system: a shallow embedding of
      [cafe_order_system.py] and the properties of its billing arithmetic,
      order lifecycle and persistence. *)

From Stdlib Require Import ZArith String Ascii List Bool Lia.
From Stdlib Require Import Floats.SpecFloat.
From Stdlib Require Import Numbers.DecimalString Numbers.DecimalZ Numbers.DecimalPos.
From stdpp Require Import base option list gmap strings.

Local Open Scope string_scope.
Local Open Scope list_scope.
Local Open Scope Z_scope.

(** ** Python values *)

(** Exceptions the modelled code can raise.  An exception ends the
    operation that raises it, and a run of the registry is a sequence of
    operations that all return: the registry model keeps no state after a
    [Raise].  [main] catches [ValueError] alone (line 247) and goes on
    with what the failed operation left; that is modelled with the shell.
    [Cafe()] runs outside the [try].  [OutOfModel] is not a Python
    exception: it marks a reference without an object in the model's
    store, or a JSON field whose type the typed records cannot hold. *)
Inductive exn : Set :=
  | KeyError | OverflowError | ValueError | TypeError | EOFError | OutOfModel.

Inductive res (A : Type) : Type :=
  | Ok (a : A)
  | Raise (e : exn).
Arguments Ok {A} a.
Arguments Raise {A} e.

#[global] Instance res_ret : MRet res := fun _ a => Ok a.

#[global] Instance res_bind : MBind res := fun _ _ k r =>
  match r with
  | Ok a => k a
  | Raise e => Raise e
  end.

(** *** Strings: [str.lower], [str.capitalize], [str.strip] on ASCII text *)

Module Str.

Definition is_upper (c : ascii) : bool :=
  ((65 <=? nat_of_ascii c) && (nat_of_ascii c <=? 90))%nat.

Definition is_lower (c : ascii) : bool :=
  ((97 <=? nat_of_ascii c) && (nat_of_ascii c <=? 122))%nat.

Definition lower_char (c : ascii) : ascii :=
  if is_upper c then ascii_of_nat (nat_of_ascii c + 32) else c.

Definition upper_char (c : ascii) : ascii :=
  if is_lower c then ascii_of_nat (nat_of_ascii c - 32) else c.

Fixpoint lower (s : string) : string :=
  match s with
  | EmptyString => EmptyString
  | String c s' => String (lower_char c) (lower s')
  end.

Definition capitalize (s : string) : string :=
  match s with
  | EmptyString => EmptyString
  | String c s' => String (upper_char c) (lower s')
  end.

(** Characters [str.strip] removes: tab .. carriage return, the four
    separators 28 .. 31 and the space. *)
Definition is_space (c : ascii) : bool :=
  let n := nat_of_ascii c in
  (((9 <=? n) && (n <=? 13)) || ((28 <=? n) && (n <=? 32)))%nat.

Fixpoint lstrip (s : string) : string :=
  match s with
  | EmptyString => EmptyString
  | String c s' => if is_space c then lstrip s' else s
  end.

Fixpoint rstrip (s : string) : string :=
  match s with
  | EmptyString => EmptyString
  | String c s' =>
      match rstrip s' with
      | EmptyString => if is_space c then EmptyString else String c EmptyString
      | r => String c r
      end
  end.

Definition strip (s : string) : string := rstrip (lstrip s).

End Str.

(** *** Integers and text: [int(s)], and the limit on [str(n)]

    [int] skips the white space of the C locale around the literal (tab
    .. carriage return and the space, without the four separators that
    [str.strip] also removes), takes a sign, and digits with single
    underscores between them.  The interpreter refuses to convert an
    [int] of more than 4300 decimal digits to text ([ValueError]), in
    [str], in a format string and in [json.dump] alike. *)

Module Int.

Definition is_space (c : ascii) : bool :=
  let n := nat_of_ascii c in
  (((9 <=? n) && (n <=? 13)) || (n =? 32))%nat.

Fixpoint lstrip (s : string) : string :=
  match s with
  | EmptyString => EmptyString
  | String c s' => if is_space c then lstrip s' else s
  end.

Fixpoint rstrip (s : string) : string :=
  match s with
  | EmptyString => EmptyString
  | String c s' =>
      match rstrip s' with
      | EmptyString => if is_space c then EmptyString else String c EmptyString
      | r => String c r
      end
  end.

Definition strip (s : string) : string := rstrip (lstrip s).

Definition is_digit (c : ascii) : bool :=
  ((48 <=? nat_of_ascii c) && (nat_of_ascii c <=? 57))%nat.

(** The digits of an integer literal: single underscores may stand
    between two digits. *)
Fixpoint grouped (after_digit : bool) (s : string) : bool :=
  match s with
  | EmptyString => after_digit
  | String c s' =>
      if is_digit c then grouped true s'
      else if Ascii.eqb c "_" then
        after_digit
        && match s' with
           | String c' _ => is_digit c'
           | EmptyString => false
           end
        && grouped false s'
      else false
  end.

Fixpoint ungroup (s : string) : string :=
  match s with
  | EmptyString => EmptyString
  | String c s' =>
      if Ascii.eqb c "_" then ungroup s' else String c (ungroup s')
  end.

(** [sys.int_info.default_max_str_digits], and the least magnitude whose
    text is longer: ten to that power. *)
Definition max_str_digits : Z := 4300.

Definition str_bound : Z := Eval vm_compute in 10 ^ 4300.

(** [str(z)] does not raise. *)
Definition fits (z : Z) : bool := Z.abs z <? str_bound.

End Int.

(** *** Dictionaries: insertion-ordered, as Python's [dict] *)

Section Dict.
Context {K V : Type} `{EqDecision K}.

Fixpoint dict_get (k : K) (d : list (K * V)) : option V :=
  match d with
  | [] => None
  | (k', v) :: d' => if decide (k = k') then Some v else dict_get k d'
  end.

(** [d[k] = v]: an existing key keeps its position, a new key goes last. *)
Fixpoint dict_set (k : K) (v : V) (d : list (K * V)) : list (K * V) :=
  match d with
  | [] => [(k, v)]
  | (k', v') :: d' =>
      if decide (k = k') then (k, v) :: d' else (k', v') :: dict_set k v d'
  end.

Definition dict_mem (k : K) (d : list (K * V)) : bool :=
  match dict_get k d with
  | Some _ => true
  | None => false
  end.

Definition dict_keys (d : list (K * V)) : list K := map fst d.

(** [d[k]] as an expression: [KeyError] on a missing key. *)
Definition dict_index (k : K) (d : list (K * V)) : res V :=
  match dict_get k d with
  | Some v => Ok v
  | None => Raise KeyError
  end.
End Dict.

(** *** Floats: IEEE 754 binary64, Python's [float] *)

Module Float.

Definition prec : Z := 53.
Definition emax : Z := 1024.

Definition float : Type := spec_float.

Definition mul : float -> float -> float := SFmul prec emax.
Definition add : float -> float -> float := SFadd prec emax.
Definition div : float -> float -> float := SFdiv prec emax.

(** Conversion of a Python [int] that meets a [float] in arithmetic:
    rounded to nearest, ties to even; [OverflowError] ("int too large
    to convert to float") when the rounded value is out of range. *)
Definition of_int (z : Z) : res float :=
  match binary_normalize prec emax z 0 false with
  | S754_infinity _ => Raise OverflowError
  | f => Ok f
  end.

(** [z * f] and [z + f] for an [int] z and a [float] f, and [f + z]. *)
Definition int_mul (z : Z) (f : float) : res float :=
  x ← of_int z; Ok (mul x f).

Definition int_add (z : Z) (f : float) : res float :=
  x ← of_int z; Ok (add x f).

Definition add_int (f : float) (z : Z) : res float :=
  x ← of_int z; Ok (add f x).

(** The float [f] is finite and its value is exactly the fraction
    [num / den]. *)
Definition is_exactly (f : float) (num den : Z) : Prop :=
  match f with
  | S754_zero _ => num = 0
  | S754_finite s m e =>
      let v := if s then Z.neg m else Z.pos m in
      if 0 <=? e then v * 2 ^ e * den = num
      else v * den = num * 2 ^ (- e)
  | _ => False
  end.

End Float.

(** ** The program's constants (lines 4 to 18) *)

Definition menu : list (string * Z) :=
  [ ("coffee", 250); ("tea", 50); ("sandwich", 200);
    ("burger", 350); ("fries", 100); ("cake", 500) ].

(** The literal [0.09]: the double nearest to 9/100,
    [0x1.70a3d70a3d70ap-4], that is 6485183463413514 / 2^56. *)
Definition CGST_RATE : Float.float := S754_finite false 6485183463413514 (-56).
Definition SGST_RATE : Float.float := S754_finite false 6485183463413514 (-56).
Definition PACKAGING_COST : Z := 20.

(** ** Console output

    One constructor per [print] call of the program, carrying the values
    its format string interpolates.  The layout of a line is not
    modelled.  Formatting a line raises [ValueError] when one of its
    integers is too long for [str] ([Msg_ok] below): this is modelled for
    the quantities and the amounts computed from them, which the
    operator's requests make as large as they like.  Table and order
    numbers are counters and checked input; they are taken to stay below
    that length, and so is every number [str] writes for a file key. *)
Inductive Msg : Type :=
  | Added (quantity : Z) (item_name : string)
  | NotOnMenu (item_name : string)
  | InvalidTable
  | Opened (table_number order_number : Z)
  | AlreadyActive (table_number : Z)
  | NoActiveToAdd (table_number : Z)
  | NoActiveToClose (table_number : Z)
  | InvalidYesNo
  | Closed (order_number table_number : Z) (now : string)
  | SummaryForTable (table_number : Z)
  | SummaryForOrder (order_number : Z)
  | TableLine (table_number : Z)
  | DateTimeLine (order_time : string)
  | HeaderLine
  | RuleLine
  | ItemLine (item : string) (quantity unit_price total_price : Z)
  | SubtotalLine (subtotal : Z)
  | CgstLine (cgst : Float.float)
  | SgstLine (sgst : Float.float)
  | PackagingLine (cost : Z)
  | NetTotalLine (total : Float.float)
  | CompletedHeader
  | CompletedLine (order_number table_number : Z) (order_time : string)
  | StillActive (order_number : Z)
  | NotFound (order_number : Z).

(** The line can be formatted. *)
Definition Msg_ok (m : Msg) : bool :=
  match m with
  | Added quantity _ => Int.fits quantity
  | ItemLine _ quantity unit_price total_price =>
      Int.fits quantity && Int.fits unit_price && Int.fits total_price
  | SubtotalLine subtotal => Int.fits subtotal
  | PackagingLine cost => Int.fits cost
  | _ => true
  end.

(** ** class Order (lines 20 to 80) *)

Record Order : Type := mkOrder {
  table_number : Z;
  order_number : Z;
  items : list (string * Z);
  is_active : bool;
  include_packaging : bool;
  order_time : string
}.

Module Order_.

(** [__init__]; [now] is the clock reading [datetime.now()] formatted. *)
Definition init (table_number order_number : Z) (now : string) : Order :=
  {| table_number := table_number;
     order_number := order_number;
     items := [];
     is_active := true;
     include_packaging := false;
     order_time := now |}.

Definition with_items (self : Order) (its : list (string * Z)) : Order :=
  {| table_number := table_number self;
     order_number := order_number self;
     items := its;
     is_active := is_active self;
     include_packaging := include_packaging self;
     order_time := order_time self |}.

Definition with_is_active (self : Order) (b : bool) : Order :=
  {| table_number := table_number self;
     order_number := order_number self;
     items := items self;
     is_active := b;
     include_packaging := include_packaging self;
     order_time := order_time self |}.

Definition with_include_packaging (self : Order) (b : bool) : Order :=
  {| table_number := table_number self;
     order_number := order_number self;
     items := items self;
     is_active := is_active self;
     include_packaging := b;
     order_time := order_time self |}.

(** One turn of the loop of [add_items] (lines 31 to 39) on the line
    items [its]. *)
Definition add_item (its : list (string * Z)) (item_name : string)
    (quantity : Z) : list (string * Z) * Msg :=
  let item_name := Str.lower item_name in
  if dict_mem item_name menu then
    (match dict_get item_name its with
     | Some q => dict_set item_name (q + quantity) its
     | None => dict_set item_name quantity its
     end, Added quantity item_name)
  else (its, NotOnMenu (Str.capitalize item_name)).

(** The loop of [add_items] over the entries of the requested dict. *)
Fixpoint add_items_loop (its : list (string * Z))
    (requested : list (string * Z)) : list (string * Z) * list Msg :=
  match requested with
  | [] => (its, [])
  | (item_name, quantity) :: rest =>
      let '(its1, m) := add_item its item_name quantity in
      let '(its2, ms) := add_items_loop its1 rest in
      (its2, m :: ms)
  end.

Definition add_items (self : Order) (requested : list (string * Z))
    : Order * list Msg :=
  let '(its, out) := add_items_loop (items self) requested in
  (with_items self its, out).

(** [sum(menu[item] * quantity for item, quantity in self.items.items())] *)
Fixpoint subtotal_of (its : list (string * Z)) : res Z :=
  match its with
  | [] => Ok 0
  | (item, quantity) :: rest =>
      unit_price ← dict_index item menu;
      s ← subtotal_of rest;
      Ok (unit_price * quantity + s)
  end.

Definition calculate_subtotal (self : Order) : res Z :=
  subtotal_of (items self).

Definition calculate_taxes (subtotal : Z) : res (Float.float * Float.float) :=
  cgst ← Float.int_mul subtotal CGST_RATE;
  sgst ← Float.int_mul subtotal SGST_RATE;
  Ok (cgst, sgst).

(** [total = subtotal + cgst + sgst] and the packaging surcharge, shared
    by [calculate_total], [close_order] and [Cafe.view_order_summary]. *)
Definition total_of (subtotal : Z) (cgst sgst : Float.float)
    (packaging : bool) : res Float.float :=
  t ← Float.int_add subtotal cgst;
  let total := Float.add t sgst in
  if packaging then Float.add_int total PACKAGING_COST else Ok total.

Definition calculate_total (self : Order)
    : res (Float.float * Float.float * Float.float) :=
  subtotal ← calculate_subtotal self;
  '(cgst, sgst) ← calculate_taxes subtotal;
  total ← total_of subtotal cgst sgst (include_packaging self);
  Ok (total, cgst, sgst).

(** The item rows printed by [close_order] and [view_order_summary]. *)
Fixpoint item_lines (its : list (string * Z)) : res (list Msg) :=
  match its with
  | [] => Ok []
  | (item, quantity) :: rest =>
      unit_price ← dict_index item menu;
      ls ← item_lines rest;
      Ok (ItemLine (Str.capitalize item) quantity unit_price
            (unit_price * quantity) :: ls)
  end.

(** [close_order] (lines 57 to 80); [now] is the clock reading printed
    in the first line. *)
Definition close_order (self : Order) (now : string)
    : res (Order * list Msg) :=
  let self := with_is_active self false in
  subtotal ← calculate_subtotal self;
  '(cgst, sgst) ← calculate_taxes subtotal;
  total ← total_of subtotal cgst sgst (include_packaging self);
  rows ← item_lines (items self);
  Ok (self,
      [Closed (order_number self) (table_number self) now;
       SummaryForTable (table_number self); HeaderLine; RuleLine]
      ++ rows
      ++ [RuleLine; SubtotalLine subtotal; CgstLine cgst; SgstLine sgst]
      ++ (if include_packaging self then [PackagingLine PACKAGING_COST]
          else [])
      ++ [RuleLine; NetTotalLine total]).

End Order_.

(** ** The persisted file

    [DATA_FILE] is modelled by the value [json.load] returns for it: the
    text form is the [json] module's concern.  [str] and [int] convert the
    order-number keys, as [json.dump] and line 145 do. *)
#[warnings="-register-all"]
Inductive json : Type :=
  | JNull
  | JBool (b : bool)
  | JInt (z : Z)
  | JStr (s : string)
  | JObj (fields : list (string * json)).

Module Json.

Definition str_of_int (z : Z) : string := NilZero.string_of_int (Z.to_int z).

(** [int(s)] on a line of ASCII text.  The interpreter's limit on the
    number of digits of the literal is not modelled. *)
Definition int_of_str (s : string) : res Z :=
  let s := Int.strip s in
  let body :=
    match s with
    | String c b => if Ascii.eqb c "-" || Ascii.eqb c "+" then b else s
    | EmptyString => s
    end in
  if Int.grouped false body then
    match NilZero.int_of_string
            (Int.ungroup (match s with String "+" b => b | _ => s end)) with
    | Some d => Ok (Z.of_int d)
    | None => Raise ValueError
    end
  else Raise ValueError.

(** [order_data[key]]: subscripting a value that is not a dict raises
    [TypeError]. *)
Definition field (key : string) (j : json) : res json :=
  match j with
  | JObj fields => dict_index key fields
  | _ => Raise TypeError
  end.

Definition as_int (j : json) : res Z :=
  match j with JInt z => Ok z | _ => Raise OutOfModel end.

Definition as_bool (j : json) : res bool :=
  match j with JBool b => Ok b | _ => Raise OutOfModel end.

Definition as_str (j : json) : res string :=
  match j with JStr s => Ok s | _ => Raise OutOfModel end.

Fixpoint as_quantities (fields : list (string * json))
    : res (list (string * Z)) :=
  match fields with
  | [] => Ok []
  | (k, j) :: rest =>
      q ← as_int j; qs ← as_quantities rest; Ok ((k, q) :: qs)
  end.

Definition as_items (j : json) : res (list (string * Z)) :=
  match j with
  | JObj fields => as_quantities fields
  | _ => Raise OutOfModel
  end.

(** [vars(order)]: the attributes in the order [__init__] sets them. *)
Definition vars (o : Order) : json :=
  JObj [ ("table_number", JInt (table_number o));
         ("order_number", JInt (order_number o));
         ("items", JObj (map (fun kq => (fst kq, JInt (snd kq))) (items o)));
         ("is_active", JBool (is_active o));
         ("include_packaging", JBool (include_packaging o));
         ("order_time", JStr (order_time o)) ].

End Json.

(** ** class Cafe (lines 82 to 190)

    The [Order] objects live in a store [objs] and are named by their
    index: [tables] and [orders] hold references, so that an order
    reached through its table and through its number is one object. *)
Record State : Type := mkState {
  objs : list Order;
  tables : gmap Z (option nat);
  orders : list (Z * nat);
  next_order_number : Z;
  disk : option (list (string * json));
  console : list Msg
}.

(** Programs over the state that may raise. *)
Definition M (A : Type) : Type := State -> res (A * State).

#[global] Instance M_ret : MRet M := fun _ a s => Ok (a, s).

#[global] Instance M_bind : MBind M := fun _ _ k m s =>
  match m s with
  | Ok (a, s') => k a s'
  | Raise e => Raise e
  end.

Module Cafe.

Definition lift {A} (r : res A) : M A := fun s =>
  match r with
  | Ok a => Ok (a, s)
  | Raise e => Raise e
  end.

Definition gets {A} (f : State -> A) : M A := fun s => Ok (f s, s).

Definition modify (f : State -> State) : M unit := fun s => Ok (tt, f s).

Definition skip : M unit := mret tt.

Definition set_objs (v : list Order) (s : State) : State :=
  mkState v (tables s) (orders s) (next_order_number s) (disk s) (console s).
Definition set_tables (v : gmap Z (option nat)) (s : State) : State :=
  mkState (objs s) v (orders s) (next_order_number s) (disk s) (console s).
Definition set_orders (v : list (Z * nat)) (s : State) : State :=
  mkState (objs s) (tables s) v (next_order_number s) (disk s) (console s).
Definition set_next_order_number (v : Z) (s : State) : State :=
  mkState (objs s) (tables s) (orders s) v (disk s) (console s).
Definition set_disk (v : option (list (string * json))) (s : State) : State :=
  mkState (objs s) (tables s) (orders s) (next_order_number s) v (console s).
Definition set_console (v : list Msg) (s : State) : State :=
  mkState (objs s) (tables s) (orders s) (next_order_number s) (disk s) v.

(** [print] of one line, and of several lines in a row: [ValueError]
    when a line cannot be formatted. *)
Definition print (m : Msg) : M unit := fun s =>
  if Msg_ok m then Ok (tt, set_console (console s ++ [m]) s)
  else Raise ValueError.

Definition print_all (ms : list Msg) : M unit := fun s =>
  if forallb Msg_ok ms then Ok (tt, set_console (console s ++ ms) s)
  else Raise ValueError.

(** Reading and writing an object through a reference. *)
Definition deref (r : nat) : M Order := fun s =>
  match objs s !! r with
  | Some o => Ok (o, s)
  | None => Raise OutOfModel
  end.

Definition assign (r : nat) (o : Order) : M unit :=
  modify (fun s => set_objs (<[r := o]> (objs s)) s).

Definition new (o : Order) : M nat := fun s =>
  Ok (length (objs s), set_objs (objs s ++ [o]) s).

(** [self.tables[table_number]] *)
Definition table (table_number : Z) : M (option nat) := fun s =>
  match tables s !! table_number with
  | Some slot => Ok (slot, s)
  | None => Raise KeyError
  end.

Definition set_table (table_number : Z) (slot : option nat) : M unit :=
  modify (fun s => set_tables (<[table_number := slot]> (tables s)) s).

(** The value [save_orders] hands to [json.dump] (line 138), as far as
    [json.dump] can write it: [ValueError] at the first order with a
    quantity too long for [str]. *)
Fixpoint dump (objs : list Order) (orders : list (Z * nat))
    : res (list (string * json)) :=
  match orders with
  | [] => Ok []
  | (order_number, r) :: rest =>
      match objs !! r with
      | Some order =>
          if forallb (fun kq => Int.fits (snd kq)) (items order) then
            js ← dump objs rest;
            Ok ((Json.str_of_int order_number, Json.vars order) :: js)
          else Raise ValueError
      | None => Raise OutOfModel
      end
  end.

(** [save_orders]: the file is written when [json.dump] returns.  When
    it raises, the file it was writing is left cut short; the registry
    model has no state for that, the shell has ([torn]). *)
Definition save_orders : M unit := fun s =>
  data ← dump (objs s) (orders s);
  Ok (tt, set_disk (Some data) s).

(** [max(self.orders.keys(), default=0)] *)
Definition max_key (orders : list (Z * nat)) : Z :=
  match dict_keys orders with
  | [] => 0
  | k :: ks => fold_left Z.max ks k
  end.

(** One turn of the loop of [load_orders] (lines 145 to 152). *)
Definition load_order (order_number : string) (order_data : json) : M unit :=
  tn ← lift (Json.field "table_number" order_data ≫= Json.as_int);
  n ← lift (Json.int_of_str order_number);
  its ← lift (Json.field "items" order_data ≫= Json.as_items);
  active ← lift (Json.field "is_active" order_data ≫= Json.as_bool);
  packaging ← lift (Json.field "include_packaging" order_data ≫= Json.as_bool);
  time ← lift (Json.field "order_time" order_data ≫= Json.as_str);
  order ← new (mkOrder tn n its active packaging time);
  modify (fun s => set_orders (dict_set n order (orders s)) s);;
  if (active : bool) then set_table tn (Some order) else skip.

Fixpoint load_loop (data : list (string * json)) : M unit :=
  match data with
  | [] => skip
  | (order_number, order_data) :: rest =>
      load_order order_number order_data;; load_loop rest
  end.

(** [load_orders]: a missing file is [FileNotFoundError], caught at
    line 154. *)
Definition load_orders : M unit :=
  file ← gets disk;
  match file with
  | None => skip
  | Some data =>
      load_loop data;;
      modify (fun s => set_next_order_number (max_key (orders s) + 1) s)
  end.

(** [{i: None for i in range(1, num_tables + 1)}] *)
Definition free_tables (num_tables : Z) : gmap Z (option nat) :=
  list_to_map (map (fun i => (i, None)) (seqZ 1 num_tables)).

(** [Cafe(num_tables)], started with [file] as the content of
    [DATA_FILE] and an empty console. *)
Definition init (num_tables : Z) (file : option (list (string * json)))
    : res State :=
  let self :=
    {| objs := [];
       tables := free_tables num_tables;
       orders := [];
       next_order_number := 1;
       disk := file;
       console := [] |} in
  '(_, s) ← load_orders self; Ok s.

Definition validate_table_number (table_number : Z) : M bool :=
  if (table_number <? 1) || (table_number >? 6) then
    print InvalidTable;; mret false
  else mret true.

(** [open_order]; [now] is the clock reading of [Order.__init__]. *)
Definition open_order (table_number : Z) (now : string) : M unit :=
  valid ← validate_table_number table_number;
  if negb valid then skip else
  slot ← table table_number;
  match slot with
  | None =>
      n ← gets next_order_number;
      order ← new (Order_.init table_number n now);
      set_table table_number (Some order);;
      modify (fun s => set_orders (dict_set n order (orders s)) s);;
      print (Opened table_number n);;
      modify (fun s => set_next_order_number (next_order_number s + 1) s);;
      save_orders
  | Some _ => print (AlreadyActive table_number)
  end.

Definition add_items_to_order (table_number : Z)
    (requested : list (string * Z)) : M unit :=
  valid ← validate_table_number table_number;
  if negb valid then skip else
  slot ← table table_number;
  match slot with
  | Some r =>
      order ← deref r;
      if is_active order then
        let '(order', out) := Order_.add_items order requested in
        assign r order';; print_all out;; save_orders
      else print (NoActiveToAdd table_number)
  | None => print (NoActiveToAdd table_number)
  end.

(** The prompt loop of lines 123 to 129 over the operator's answers:
    [EOFError] when the input ends before a yes or a no. *)
Fixpoint ask_packaging (answers : list string) : res (bool * list Msg) :=
  match answers with
  | [] => Raise EOFError
  | answer :: rest =>
      let packaging_choice := Str.lower (Str.strip answer) in
      if bool_decide (packaging_choice = "yes")
         || bool_decide (packaging_choice = "no")
      then Ok (bool_decide (packaging_choice = "yes"), [])
      else '(b, out) ← ask_packaging rest; Ok (b, InvalidYesNo :: out)
  end.

(** [close_order]; [answers] are the operator's replies to the
    packaging prompt and [now] the clock reading of the closing line. *)
Definition close_order (table_number : Z) (answers : list string)
    (now : string) : M unit :=
  valid ← validate_table_number table_number;
  if negb valid then skip else
  slot ← table table_number;
  match slot with
  | Some r =>
      order ← deref r;
      if is_active order then
        '(choice, out) ← lift (ask_packaging answers);
        print_all out;;
        '(order', report) ← lift (Order_.close_order
               (Order_.with_include_packaging order choice) now);
        assign r order';;
        print_all report;;
        set_table table_number None;;
        save_orders
      else print (NoActiveToClose table_number)
  | None => print (NoActiveToClose table_number)
  end.

Fixpoint completed_lines (objs : list Order) (orders : list (Z * nat))
    : res (list Msg) :=
  match orders with
  | [] => Ok []
  | (order_number, r) :: rest =>
      match objs !! r with
      | Some order =>
          ls ← completed_lines objs rest;
          Ok (if is_active order then ls
              else CompletedLine order_number (table_number order)
                     (order_time order) :: ls)
      | None => Raise OutOfModel
      end
  end.

Definition view_past_orders : M unit :=
  print CompletedHeader;;
  os ← gets objs; ords ← gets orders;
  ls ← lift (completed_lines os ords);
  print_all ls.

(** The loop of lines 172 to 175: each row is looked up and printed
    before the next. *)
Fixpoint print_rows (its : list (string * Z)) : M unit :=
  match its with
  | [] => skip
  | (item, quantity) :: rest =>
      unit_price ← lift (dict_index item menu);
      print (ItemLine (Str.capitalize item) quantity unit_price
               (unit_price * quantity));;
      print_rows rest
  end.

Definition view_order_summary (order_number : Z) : M unit :=
  ords ← gets orders;
  match dict_get order_number ords with
  | Some r =>
      order ← deref r;
      if negb (is_active order) then
        print_all
          [SummaryForOrder order_number; TableLine (table_number order);
           DateTimeLine (order_time order); HeaderLine; RuleLine];;
        print_rows (items order);;
        subtotal ← lift (Order_.calculate_subtotal order);
        '(cgst, sgst) ← lift (Order_.calculate_taxes subtotal);
        total ← lift (Order_.total_of subtotal cgst sgst
                        (include_packaging order));
        (if include_packaging order
         then print (PackagingLine PACKAGING_COST) else skip);;
        print_all
          [RuleLine; SubtotalLine subtotal; CgstLine cgst;
           SgstLine sgst; NetTotalLine total]
      else print (StillActive order_number)
  | None => print (NotFound order_number)
  end.

End Cafe.

(** ** Runs of the registry

    The operations the shell dispatches (lines 226 to 241), with the
    operator's and the clock's inputs as arguments.  [Relaunch] ends the
    process and starts [Cafe()] again on the file the run left. *)
Inductive Op : Type :=
  | OpenOrder (table_number : Z) (now : string)
  | AddItems (table_number : Z) (requested : list (string * Z))
  | CloseOrder (table_number : Z) (answers : list string) (now : string)
  | ViewPastOrders
  | ViewOrderSummary (order_number : Z)
  | Relaunch.

Definition relaunch : M unit := fun s =>
  s' ← Cafe.init 6 (disk s);
  Ok (tt, Cafe.set_console (console s) s').

Definition step (op : Op) : M unit :=
  match op with
  | OpenOrder t now => Cafe.open_order t now
  | AddItems t requested => Cafe.add_items_to_order t requested
  | CloseOrder t answers now => Cafe.close_order t answers now
  | ViewPastOrders => Cafe.view_past_orders
  | ViewOrderSummary n => Cafe.view_order_summary n
  | Relaunch => relaunch
  end.

Fixpoint run (ops : list Op) (s : State) : res State :=
  match ops with
  | [] => Ok s
  | op :: rest =>
      match step op s with
      | Ok (_, s') => run rest s'
      | Raise e => Raise e
      end
  end.

(** The registry of a first start: six free tables, no order, no file. *)
Definition empty_registry : State :=
  {| objs := [];
     tables := Cafe.free_tables 6;
     orders := [];
     next_order_number := 1;
     disk := None;
     console := [] |}.

Definition reachable (s : State) : Prop :=
  exists ops, run ops empty_registry = Ok s.

(** ** Specification-side notions *)

(** The unit price of a menu item. *)
Definition price (item : string) : Z := default 0 (dict_get item menu).

Definition on_menu (item_name : string) : bool :=
  dict_mem (Str.lower item_name) menu.

(** The quantity stored for an item, 0 when the item has no line. *)
Definition quantity_of (item : string) (its : list (string * Z)) : Z :=
  default 0 (dict_get item its).

(** [sum] of [price * quantity] over line items. *)
Fixpoint bill (its : list (string * Z)) : Z :=
  match its with
  | [] => 0
  | (item, quantity) :: rest => price item * quantity + bill rest
  end.

(** What a sequence of requests asks for one menu item, in total. *)
Fixpoint requested_quantity (item : string) (requested : list (string * Z)) : Z :=
  match requested with
  | [] => 0
  | (item_name, quantity) :: rest =>
      (if decide (Str.lower item_name = item) then quantity else 0)
      + requested_quantity item rest
  end.

(** Successive [add_items] calls on one order. *)
Fixpoint add_all (self : Order) (calls : list (list (string * Z))) : Order :=
  match calls with
  | [] => self
  | requested :: rest => add_all (fst (Order_.add_items self requested)) rest
  end.

Definition keys_on_menu (its : list (string * Z)) : Prop :=
  Forall (fun kq => dict_mem (fst kq) menu = true) its.

(** The amount a sequence of requests adds to the bill. *)
Fixpoint requested_bill (requested : list (string * Z)) : Z :=
  match requested with
  | [] => 0
  | (item_name, quantity) :: rest =>
      price (Str.lower item_name) * quantity + requested_bill rest
  end.

(** What [add_items] prints for one requested entry. *)
Definition add_report (kq : string * Z) : Msg :=
  if on_menu (fst kq) then Added (snd kq) (Str.lower (fst kq))
  else NotOnMenu (Str.capitalize (Str.lower (fst kq))).

(** ** Invariants of reachable registries *)

(** The [orders] dict of a registry holding [n] orders: order number
    [i + 1] names the object at reference [i]. *)
Definition numbered (n : nat) : list (Z * nat) :=
  map (fun i => (Z.of_nat i + 1, i)) (seq 0 n).

(** The bill of an order can be computed and printed: every line is
    priced, the subtotal fits a float and every row can be formatted. *)
Definition billable (o : Order) : Prop :=
  exists total cgst sgst rows,
    Order_.calculate_total o = Ok (total, cgst, sgst) /\
    Order_.item_lines (items o) = Ok rows /\
    forallb Msg_ok rows = true.

Record order_ok (s : State) (r : nat) (o : Order) : Prop := {
  ok_number : order_number o = Z.of_nat r + 1;
  ok_table : 1 <= table_number o <= 6;
  ok_keys : keys_on_menu (items o);
  ok_active : is_active o = true -> tables s !! table_number o = Some (Some r);
  ok_closed : is_active o = false -> billable o
}.

Record wf (s : State) : Prop := {
  wf_orders : orders s = numbered (length (objs s));
  wf_next : next_order_number s = Z.of_nat (length (objs s)) + 1;
  wf_objs : forall r o, objs s !! r = Some o -> order_ok s r o;
  wf_dom : forall t, is_Some (tables s !! t) <-> 1 <= t <= 6;
  wf_tables : forall t r, tables s !! t = Some (Some r) ->
      exists o, objs s !! r = Some o /\ is_active o = true /\ table_number o = t;
  wf_disk : match disk s with
            | None => objs s = []
            | Some data => Cafe.dump (objs s) (orders s) = Ok data
            end
}.

(** Requests that only ask for positive quantities. *)
Definition positive_request (op : Op) : Prop :=
  match op with
  | AddItems _ requested => Forall (fun kq => 1 <= snd kq) requested
  | _ => True
  end.



(** ** Auxiliary notions for the persistence proofs *)

Fixpoint all_chars (P : ascii -> bool) (s : string) : bool :=
  match s with
  | EmptyString => true
  | String c s' => P c && all_chars P s'
  end.

(** Characters of a printed integer: no white space and no plus sign. *)
Definition numeric (c : ascii) : bool :=
  negb (Str.is_space c) && negb (Ascii.eqb c "+").

(** [json.dump] can write the order: every quantity is short enough for
    [str]. *)
Definition saves (o : Order) : bool :=
  forallb (fun kq => Int.fits (snd kq)) (items o).

(** The file of a registry whose [i]-th order has number [first + i]. *)
Fixpoint file_from (first : nat) (os : list Order) : list (string * json) :=
  match os with
  | [] => []
  | o :: rest =>
      (Json.str_of_int (Z.of_nat first + 1), Json.vars o)
        :: file_from (S first) rest
  end.

(** The [tables] dict after [load_orders] met the orders [os], stored
    from reference [first] on. *)
Fixpoint load_tables (T : gmap Z (option nat)) (first : nat) (os : list Order)
    : gmap Z (option nat) :=
  match os with
  | [] => T
  | o :: rest =>
      load_tables
        (if is_active o then <[table_number o := Some first]> T else T)
        (S first) rest
  end.

(** The [orders] dict holding the references [first .. first + n - 1]. *)
Definition numbered_from (first n : nat) : list (Z * nat) :=
  map (fun i => (Z.of_nat i + 1, i)) (seq first n).

(** ** Example registries *)

(** Table 2 holds order 1, opened and still empty. *)
Definition table2_open : State :=
  {| objs := [Order_.init 2 1 "2024-01-01 10:00:00"];
     tables := <[2 := Some 0%nat]> (Cafe.free_tables 6);
     orders := [(1, 0%nat)];
     next_order_number := 2;
     disk := Some (file_from 0 [Order_.init 2 1 "2024-01-01 10:00:00"]);
     console := [Opened 2 1] |}.

(** Order 1 of table 2 closed, empty, with packaging, after one invalid
    answer to the prompt. *)
Definition table2_closed : State :=
  Eval vm_compute in
    match Cafe.close_order 2 ["maybe"; " YES "] "2024-01-01 10:30:00"
            table2_open with
    | Ok (_, s) => s
    | Raise _ => table2_open
    end.

(** Table 1 holds order 1 with two teas and one coffee. *)
Definition teas_and_coffee : State :=
  Eval vm_compute in
    match run [OpenOrder 1 "2024-01-01 10:00:00";
               AddItems 1 [("tea", 1); ("Coffee", 1)];
               AddItems 1 [("TEA", 1)]]
            empty_registry with
    | Ok s => s
    | Raise _ => empty_registry
    end.

(** Table 1 holds order 1, for which zero teas were requested. *)
Definition zero_teas : State :=
  Eval vm_compute in
    match run [OpenOrder 1 "2024-01-01 10:00:00"; AddItems 1 [("tea", 0)]]
            empty_registry with
    | Ok s => s
    | Raise _ => empty_registry
    end.



(** The lines of a summary, as [view_order_summary] prints them. *)
Definition summary_lines (n : Z) (o : Order) (rows : list Msg) (subtotal : Z)
    (cgst sgst total : Float.float) : list Msg :=
  [SummaryForOrder n; TableLine (table_number o);
   DateTimeLine (order_time o); HeaderLine; RuleLine]
  ++ rows
  ++ (if include_packaging o then [PackagingLine PACKAGING_COST] else [])
  ++ [RuleLine; SubtotalLine subtotal; CgstLine cgst; SgstLine sgst;
      NetTotalLine total].

(** The requests that reached the order behind reference [r] during the
    run of [ops] from [s]: those of the [add_items_to_order] calls on a
    table that held the order when they were made. *)
Fixpoint requests_of (r : nat) (ops : list Op) (s : State)
    : list (string * Z) :=
  match ops with
  | [] => []
  | op :: rest =>
      match op with
      | AddItems t requested =>
          if (1 <=? t) && (t <=? 6)
             && bool_decide (tables s !! t = Some (Some r))
          then requested else []
      | _ => []
      end
      ++ match step op s with
         | Ok (_, s') => requests_of r rest s'
         | Raise _ => []
         end
  end.

(** The quantity of an item in the order behind [r], 0 when there is
    no such order yet. *)
Definition stored (item : string) (r : nat) (s : State) : Z :=
  match objs s !! r with
  | Some o => quantity_of item (items o)
  | None => 0
  end.


Definition positive_items (its : list (string * Z)) : Prop :=
  Forall (fun kq => 1 <= snd kq) its.

(** One coffee and one tea, closed with or without packaging. *)
Definition coffee_and_tea (packaging : bool) : Order :=
  {| table_number := 3;
     order_number := 1;
     items := [("coffee", 1); ("tea", 1)];
     is_active := false;
     include_packaging := packaging;
     order_time := "2024-01-01 10:00:00" |}.

(** An order of 2^60 teas, with or without packaging. *)
Definition many_teas (packaging : bool) : Order :=
  {| table_number := 3;
     order_number := 1;
     items := [("tea", 2 ^ 60)];
     is_active := false;
     include_packaging := packaging;
     order_time := "2024-01-01 10:00:00" |}.

(** The float of a small integer literal, [+0.0] outside the range. *)
Definition float_of (z : Z) : Float.float :=
  match Float.of_int z with
  | Ok x => x
  | Raise _ => S754_zero false
  end.

(** The float holding the dyadic number [n * 2^g], for [0 < n < 2^53]:
    the digits of [n] moved to the top of the 53-bit mantissa. *)
Definition dyadic (n g : Z) : Float.float :=
  let shift := 53 - Z.pos (digits2_pos (Z.to_pos n)) in
  S754_finite false (Z.to_pos (n * 2 ^ shift)) (g - shift).


(** ** Further notions: the prompt, the reports, the table an operation
       serves *)

(** An answer the packaging prompt accepts. *)
Definition valid_answer (answer : string) : bool :=
  bool_decide (Str.lower (Str.strip answer) = "yes")
  || bool_decide (Str.lower (Str.strip answer) = "no").

(** The lines [view_past_orders] prints after its header, for the orders
    [os] stored from reference [first] on. *)
Fixpoint completed_of (first : nat) (os : list Order) : list Msg :=
  match os with
  | [] => []
  | o :: rest =>
      if is_active o then completed_of (S first) rest
      else CompletedLine (Z.of_nat first + 1) (table_number o) (order_time o)
             :: completed_of (S first) rest
  end.

(** The lines [Order.close_order] prints. *)
Definition closing_lines (o : Order) (now : string) (rows : list Msg)
    (subtotal : Z) (cgst sgst total : Float.float) : list Msg :=
  [Closed (order_number o) (table_number o) now;
   SummaryForTable (table_number o); HeaderLine; RuleLine]
  ++ rows
  ++ [RuleLine; SubtotalLine subtotal; CgstLine cgst; SgstLine sgst]
  ++ (if include_packaging o then [PackagingLine PACKAGING_COST] else [])
  ++ [RuleLine; NetTotalLine total].


(** An item name that is not a menu key. *)
Definition off_menu (kq : string * Z) : Prop := dict_mem (fst kq) menu = false.

(** Table 1 holds order 1 with 2^1024 teas. *)
Definition too_many_teas : State :=
  Eval vm_compute in
    match run [OpenOrder 1 "2024-01-01 10:00:00";
               AddItems 1 [("tea", 2 ^ 1024)]]
            empty_registry with
    | Ok s => s
    | Raise _ => empty_registry
    end.


(** ** The shell: [parse_items_input] and [main] (lines 192 to 251)

    The operator's input is the list of lines still to be read: [input()]
    takes the first one and raises [EOFError] when none is left.  Prompts
    are not recorded.  [clock k] is what [datetime.now()] reads while the
    command number [k] of the session runs.  The shell's own printed lines
    are kept in [shown], apart from the registry's console.

    Here an operation of the registry is run statement by statement, so
    that a [ValueError] reaches the handler of line 247 with what the
    statements before it have done.  [torn] tells that the last
    [save_orders] raised while writing: [DATA_FILE] is then a cut-off
    text that [json.load] refuses, and [disk] holds what the last
    complete save wrote. *)

(** What ends the program: an exception [main] does not catch. *)
Inductive crash : Set :=
  | IndexError
  | Uncaught (e : exn).

(** The lines the shell prints itself: the seven lines of the menu (216
    to 222) as one, the complaint of the quantity prompt (206), and lines
    243, 246 and 248. *)
Inductive Line : Set :=
  | Banner
  | InvalidNumber
  | Exiting
  | InvalidChoice
  | InvalidData.

Record World : Type := mkWorld {
  cafe : State;
  torn : bool;
  stdin : list string;
  shown : list Line;
  commands : nat
}.

(** Outcome of a piece of the shell: a value, a [ValueError] on its way
    to the handler of line 247, or the end of the program. *)
Inductive wres (A : Type) : Type :=
  | WOk (a : A) (w : World)
  | WValueError (w : World)
  | WCrash (e : crash).
Arguments WOk {A} a w.
Arguments WValueError {A} w.
Arguments WCrash {A} e.

Definition W (A : Type) : Type := World -> wres A.

#[global] Instance W_ret : MRet W := fun _ a w => WOk a w.

#[global] Instance W_bind : MBind W := fun _ _ k m w =>
  match m w with
  | WOk a w' => k a w'
  | WValueError w' => WValueError w'
  | WCrash e => WCrash e
  end.

(** How a session ends: [break] at choice 6, or an uncaught exception
    after the last command that completed. *)
Inductive session : Type :=
  | Exited (w : World)
  | Died (e : crash) (w : World)
  | OutOfFuel.

Module Shell.

(** [s.split(sep)] for a one-character separator. *)
Fixpoint split_on (sep : ascii) (s : string) : list string :=
  match s with
  | EmptyString => [EmptyString]
  | String c s' =>
      if Ascii.eqb c sep then EmptyString :: split_on sep s'
      else match split_on sep s' with
           | piece :: pieces => String c piece :: pieces
           | [] => [String c EmptyString]
           end
  end.

(** [s.split()]: the maximal runs of characters that are not white space. *)
Fixpoint words (s : string) : list string :=
  match s with
  | EmptyString => []
  | String c s' =>
      if Str.is_space c then words s'
      else match s' with
           | EmptyString => [String c EmptyString]
           | String c' _ =>
               if Str.is_space c' then String c EmptyString :: words s'
               else match words s' with
                    | w :: ws => String c w :: ws
                    | [] => [String c EmptyString]
                    end
           end
  end.

(** [int(s)] *)
Definition int (s : string) : res Z := Json.int_of_str s.

(** *** Effects *)

Definition set_cafe (c : State) (w : World) : World :=
  mkWorld c (torn w) (stdin w) (shown w) (commands w).
Definition set_torn (b : bool) (w : World) : World :=
  mkWorld (cafe w) b (stdin w) (shown w) (commands w).
Definition set_stdin (lines : list string) (w : World) : World :=
  mkWorld (cafe w) (torn w) lines (shown w) (commands w).
Definition set_shown (ls : list Line) (w : World) : World :=
  mkWorld (cafe w) (torn w) (stdin w) ls (commands w).
Definition set_commands (k : nat) (w : World) : World :=
  mkWorld (cafe w) (torn w) (stdin w) (shown w) k.

Definition print (l : Line) : W unit := fun w =>
  WOk tt (set_shown (shown w ++ [l]) w).

Definition print_all (ls : list Line) : W unit := fun w =>
  WOk tt (set_shown (shown w ++ ls) w).

(** [input()] *)
Definition input : W string := fun w =>
  match stdin w with
  | [] => WCrash (Uncaught EOFError)
  | line :: rest => WOk line (set_stdin rest w)
  end.

(** [int(input())] *)
Definition input_int : W Z := fun w =>
  match input w with
  | WOk line w' =>
      match int line with
      | Ok z => WOk z w'
      | Raise _ => WValueError w'
      end
  | WValueError w' => WValueError w'
  | WCrash e => WCrash e
  end.

(** One statement of a registry operation, run from the shell.  It is
    used for statements that have changed nothing when they raise: a
    [ValueError] goes to the handler with the registry as the statement
    found it, and any other exception ends the program. *)
Definition registry {A} (m : M A) : W A := fun w =>
  match m (cafe w) with
  | Ok (a, c) => WOk a (set_cafe c w)
  | Raise ValueError => WValueError w
  | Raise e => WCrash (Uncaught e)
  end.

(** Lines printed one after the other: those before a line that cannot
    be formatted are on the console. *)
Fixpoint console_all (ms : list Msg) : W unit :=
  match ms with
  | [] => mret tt
  | m :: rest => registry (Cafe.print m);; console_all rest
  end.

(** [save_orders] (lines 136 to 138): [open] empties the file, and a
    [json.dump] that raises leaves it cut short. *)
Definition save_orders : W unit := fun w =>
  match Cafe.save_orders (cafe w) with
  | Ok (_, c) => WOk tt (set_torn false (set_cafe c w))
  | Raise ValueError => WValueError (set_torn true w)
  | Raise e => WCrash (Uncaught e)
  end.

(** *** [parse_items_input] (lines 192 to 211) *)

(** The prompt loop of lines 201 to 206 on the lines to read: the
    quantity, the lines left, and the number of refused lines. *)
Fixpoint read_quantity (lines : list string) : option (Z * list string * nat) :=
  match lines with
  | [] => None
  | line :: rest =>
      match int line with
      | Ok quantity => Some (quantity, rest, 0%nat)
      | Raise _ =>
          match read_quantity rest with
          | Some (quantity, rest', refused) => Some (quantity, rest', S refused)
          | None => None
          end
      end
  end.

Definition ask_quantity : W Z := fun w =>
  match read_quantity (stdin w) with
  | Some (quantity, rest, refused) =>
      WOk quantity
        (set_shown (shown w ++ repeat InvalidNumber refused) (set_stdin rest w))
  | None => WCrash (Uncaught EOFError)
  end.

(** One turn of the loop of lines 194 to 210. *)
Definition parse_item (items : list (string * Z)) (item : string)
    : W (list (string * Z)) :=
  match words (Str.strip item) with
  | [name] =>
      quantity ← ask_quantity;
      mret (dict_set (Str.lower name) quantity items)
  | [] => fun _ => WCrash IndexError
  | name :: number :: _ =>
      fun w =>
        match int number with
        | Ok quantity => WOk (dict_set (Str.lower name) quantity items) w
        | Raise _ => WValueError w
        end
  end.

Fixpoint parse_items (items : list (string * Z)) (pieces : list string)
    : W (list (string * Z)) :=
  match pieces with
  | [] => mret items
  | item :: rest =>
      items' ← parse_item items item;
      parse_items items' rest
  end.

Definition parse_items_input (items_input : string) : W (list (string * Z)) :=
  parse_items [] (split_on "," items_input).

(** *** [Cafe.close_order] reading the prompt's answers from the input *)

(** The prompt loop of lines 123 to 129 on the lines to read. *)
Fixpoint read_packaging (lines : list string)
    : option (bool * list string * nat) :=
  match lines with
  | [] => None
  | answer :: rest =>
      let packaging_choice := Str.lower (Str.strip answer) in
      if bool_decide (packaging_choice = "yes")
         || bool_decide (packaging_choice = "no")
      then Some (bool_decide (packaging_choice = "yes"), rest, 0%nat)
      else match read_packaging rest with
           | Some (b, rest', refused) => Some (b, rest', S refused)
           | None => None
           end
  end.

Definition ask_packaging : W bool := fun w =>
  match read_packaging (stdin w) with
  | Some (b, rest, refused) =>
      match console_all (repeat InvalidYesNo refused) (set_stdin rest w) with
      | WOk _ w' => WOk b w'
      | WValueError w' => WValueError w'
      | WCrash e => WCrash e
      end
  | None => WCrash (Uncaught EOFError)
  end.

(** *** [Order.add_items] (lines 29 to 39) on the order behind [r]: each
    entry is stored and then reported. *)
Fixpoint add_items (r : nat) (requested : list (string * Z)) : W unit :=
  match requested with
  | [] => mret tt
  | (item_name, quantity) :: rest =>
      order ← registry (Cafe.deref r);
      let '(its, m) := Order_.add_item (items order) item_name quantity in
      registry (Cafe.assign r (Order_.with_items order its));;
      registry (Cafe.print m);;
      add_items r rest
  end.

(** [Cafe.add_items_to_order] (lines 108 to 116) *)
Definition add_items_to_order (table_number : Z)
    (requested : list (string * Z)) : W unit :=
  valid ← registry (Cafe.validate_table_number table_number);
  if negb valid then mret tt else
  slot ← registry (Cafe.table table_number);
  match slot with
  | Some r =>
      order ← registry (Cafe.deref r);
      if is_active order then
        add_items r requested;;
        save_orders
      else registry (Cafe.print (NoActiveToAdd table_number))
  | None => registry (Cafe.print (NoActiveToAdd table_number))
  end.

(** The loop of lines 172 to 175, and [Cafe.view_order_summary] (lines
    163 to 190) *)
Fixpoint print_rows (its : list (string * Z)) : W unit :=
  match its with
  | [] => mret tt
  | (item, quantity) :: rest =>
      unit_price ← registry (Cafe.lift (dict_index item menu));
      registry (Cafe.print (ItemLine (Str.capitalize item) quantity
                              unit_price (unit_price * quantity)));;
      print_rows rest
  end.

Definition view_order_summary (order_number : Z) : W unit :=
  ords ← registry (Cafe.gets orders);
  match dict_get order_number ords with
  | Some r =>
      order ← registry (Cafe.deref r);
      if negb (is_active order) then
        console_all
          [SummaryForOrder order_number; TableLine (table_number order);
           DateTimeLine (order_time order); HeaderLine; RuleLine];;
        print_rows (items order);;
        subtotal ← registry (Cafe.lift (Order_.calculate_subtotal order));
        '(cgst, sgst) ← registry (Cafe.lift (Order_.calculate_taxes subtotal));
        total ← registry (Cafe.lift (Order_.total_of subtotal cgst sgst
                                       (include_packaging order)));
        (if include_packaging order
         then registry (Cafe.print (PackagingLine PACKAGING_COST))
         else mret tt);;
        console_all
          [RuleLine; SubtotalLine subtotal; CgstLine cgst;
           SgstLine sgst; NetTotalLine total]
      else registry (Cafe.print (StillActive order_number))
  | None => registry (Cafe.print (NotFound order_number))
  end.

Section Clock.
Variable clock : nat -> string.

Definition now : W string := fun w => WOk (clock (commands w)) w.

(** [Cafe.open_order] (lines 95 to 106) *)
Definition open_order (table_number : Z) : W unit :=
  valid ← registry (Cafe.validate_table_number table_number);
  if negb valid then mret tt else
  slot ← registry (Cafe.table table_number);
  match slot with
  | None =>
      n ← registry (Cafe.gets next_order_number);
      time ← now;
      order ← registry (Cafe.new (Order_.init table_number n time));
      registry (Cafe.set_table table_number (Some order));;
      registry (Cafe.modify
                  (fun s => Cafe.set_orders (dict_set n order (orders s)) s));;
      registry (Cafe.print (Opened table_number n));;
      registry (Cafe.modify
                  (fun s => Cafe.set_next_order_number
                              (next_order_number s + 1) s));;
      save_orders
  | Some _ => registry (Cafe.print (AlreadyActive table_number))
  end.

(** [Cafe.close_order] (lines 118 to 134) with [Order.close_order]
    (lines 57 to 80): the flags of the order are set before the bill is
    computed and printed. *)
Definition close_order (table_number : Z) : W unit :=
  valid ← registry (Cafe.validate_table_number table_number);
  if negb valid then mret tt else
  slot ← registry (Cafe.table table_number);
  match slot with
  | Some r =>
      order ← registry (Cafe.deref r);
      if is_active order then
        choice ← ask_packaging;
        time ← now;
        '(order', report) ← registry (Cafe.lift (Order_.close_order
               (Order_.with_include_packaging order choice) time));
        registry (Cafe.assign r order');;
        console_all report;;
        registry (Cafe.set_table table_number None);;
        save_orders
      else registry (Cafe.print (NoActiveToClose table_number))
  | None => registry (Cafe.print (NoActiveToClose table_number))
  end.

(** *** [main] (lines 213 to 248) *)

(** The body of the [try] of lines 225 to 246, for the choices that stay
    in the loop. *)
Definition dispatch (choice : string) : W unit :=
  if bool_decide (choice = "1") then
    table_number ← input_int;
    open_order table_number
  else if bool_decide (choice = "2") then
    table_number ← input_int;
    items_input ← input;
    items ← parse_items_input items_input;
    add_items_to_order table_number items
  else if bool_decide (choice = "3") then
    table_number ← input_int;
    close_order table_number
  else if bool_decide (choice = "4") then
    registry Cafe.view_past_orders
  else if bool_decide (choice = "5") then
    order_number ← input_int;
    view_order_summary order_number
  else print InvalidChoice.

(** One turn of the loop: [true] after the [break] of line 244. *)
Definition turn (w : World) : wres bool :=
  match (print Banner;; input) w with
  | WOk choice w1 =>
      if bool_decide (choice = "6") then
        match print Exiting w1 with
        | WOk _ w2 => WOk true w2
        | WValueError w2 => WValueError w2
        | WCrash e => WCrash e
        end
      else
        match dispatch choice w1 with
        | WOk _ w2 => WOk false (set_commands (S (commands w2)) w2)
        | WValueError w2 =>
            match print InvalidData w2 with
            | WOk _ w3 => WOk false (set_commands (S (commands w3)) w3)
            | WValueError w3 => WValueError w3
            | WCrash e => WCrash e
            end
        | WCrash e => WCrash e
        end
  | WValueError w1 => WValueError w1
  | WCrash e => WCrash e
  end.

(** The loop, for at most [fuel] turns. *)
Fixpoint loop (fuel : nat) (w : World) : session :=
  match fuel with
  | O => OutOfFuel
  | S fuel' =>
      match turn w with
      | WOk true w' => Exited w'
      | WOk false w' => loop fuel' w'
      | WValueError _ => Died (Uncaught ValueError) w
      | WCrash e => Died e w
      end
  end.

(** [main()] with [file] as the content of [DATA_FILE] and [lines] as the
    operator's input: every turn reads at least one line. *)
Definition main (file : option (list (string * json))) (lines : list string)
    : res session :=
  c ← Cafe.init 6 file;
  Ok (loop (S (length lines)) (mkWorld c false lines [] 0)).

End Clock.

End Shell.

(** *** Notions for the properties of the shell *)

(** A piece of the items line without a word in it. *)
Definition blank (piece : string) : Prop := Shell.words (Str.strip piece) = [].

(** A name as one word: not empty, without white space or comma. *)
Definition word_char (c : ascii) : bool :=
  negb (Str.is_space c) && negb (Ascii.eqb c ",").

Definition plain (name : string) : Prop :=
  name <> EmptyString /\ all_chars word_char name = true.




Definition no_comma (c : ascii) : bool := negb (Ascii.eqb c ",").
Definition no_space (c : ascii) : bool := negb (Str.is_space c).



(** A dict with lower-case keys. *)
Definition is_dict (items : list (string * Z)) : Prop :=
  NoDup (dict_keys items) /\ Forall (fun k => Str.lower k = k) (dict_keys items).

(** [w'] comes from [w] by reading lines and printing complaints other
    than that of line 248: the registry, its file and the command counter
    are as they were. *)
Definition reads (w w' : World) : Prop :=
  cafe w' = cafe w /\ torn w' = torn w /\ commands w' = commands w
  /\ stdin w' `suffix_of` stdin w
  /\ exists out, shown w' = shown w ++ out /\ ~ In InvalidData out.

(** A session on a first start, and a clock that stands still. *)
Definition first_start (lines : list string) : World :=
  mkWorld empty_registry false lines [] 0.

Definition noon (command : nat) : string := "2024-01-01 12:00:00".

(** The lines of [ms] that are printed when [ms] is printed line by
    line: those before the first that cannot be formatted. *)
Fixpoint printable_prefix (ms : list Msg) : list Msg :=
  match ms with
  | [] => []
  | m :: rest => if Msg_ok m then m :: printable_prefix rest else []
  end.

(** Around an operation of the registry the shell prints nothing of its
    own and does not count a command; it may read lines. *)
Definition settled (w w' : World) : Prop :=
  stdin w' `suffix_of` stdin w /\ shown w' = shown w
  /\ commands w' = commands w.

(** The shell's run [p] of a registry operation agrees with the
    operation [m] on the registry [w] holds: [p] returns with the
    registry [m] returns, hands a [ValueError] to the handler when [m]
    raises one, and ends the program with any other exception of [m]. *)
Definition shell_runs (p : W unit) (m : M unit) (w : World) : Prop :=
  match m (cafe w) with
  | Ok (_, c) => exists w', p w = WOk tt w' /\ cafe w' = c /\ settled w w'
  | Raise ValueError => exists w', p w = WValueError w' /\ settled w w'
  | Raise e => p w = WCrash (Uncaught e)
  end.

(** The operation a command of the shell runs on the registry, if it
    gets as far: the table or order number is the first line if it is an
    integer, the items are what [parse_items_input] makes of the second. *)
Definition is_value_error (e : exn) : bool :=
  match e with ValueError => true | _ => false end.
(** * Properties *)

(** ** Dictionaries and billing *)

Lemma first_boot : Cafe.init 6 None = Ok empty_registry.
Proof. reflexivity. Qed.

Lemma price_index item :
  dict_mem item menu = true -> dict_index item menu = Ok (price item).
Proof.
  unfold dict_mem, dict_index, price.
  destruct (dict_get item menu); [reflexivity | discriminate].
Qed.

Lemma subtotal_of_bill its :
  keys_on_menu its -> Order_.subtotal_of its = Ok (bill its).
Proof.
  induction 1 as [| [item quantity] rest Hk _ IH]; simpl; [reflexivity |].
  rewrite (price_index item Hk). simpl. rewrite IH. reflexivity.
Qed.

Lemma bill_set_present item q q0 its :
  dict_get item its = Some q0 ->
  bill (dict_set item (q0 + q) its) = bill its + price item * q.
Proof.
  induction its as [| [k v] rest IH]; simpl; [discriminate |].
  destruct (decide (item = k)) as [-> | Hne]; simpl.
  - intros [= ->]. lia.
  - intros Hg. rewrite (IH Hg). lia.
Qed.

Lemma bill_set_absent item q its :
  dict_get item its = None ->
  bill (dict_set item q its) = bill its + price item * q.
Proof.
  induction its as [| [k v] rest IH]; simpl; [lia |].
  destruct (decide (item = k)) as [-> | Hne]; simpl; [discriminate |].
  intros Hg. rewrite (IH Hg). lia.
Qed.

Lemma get_set_eq {V} (k : string) (v : V) its :
  dict_get k (dict_set k v its) = Some v.
Proof.
  induction its as [| [k' v'] rest IH]; simpl.
  - destruct (decide (k = k)); congruence.
  - destruct (decide (k = k')) as [-> | Hne]; simpl.
    + destruct (decide (k' = k')); congruence.
    + destruct (decide (k = k')); congruence.
Qed.

Lemma get_set_ne {V} (k k' : string) (v : V) its :
  k <> k' -> dict_get k' (dict_set k v its) = dict_get k' its.
Proof.
  intros Hne. induction its as [| [k0 v0] rest IH]; simpl.
  - destruct (decide (k' = k)); congruence.
  - destruct (decide (k = k0)) as [-> | Hne0]; simpl.
    + destruct (decide (k' = k0)); congruence.
    + destruct (decide (k' = k0)); congruence.
Qed.

Lemma keys_set item (q : Z) its :
  dict_mem item menu = true -> keys_on_menu its ->
  keys_on_menu (dict_set item q its).
Proof.
  intros Hm. induction 1 as [| [k v] rest Hk Hrest IH]; simpl.
  - repeat constructor. exact Hm.
  - destruct (decide (item = k)); constructor; auto.
Qed.

(** ** [Order.add_items] *)

Lemma add_item_unknown its item_name quantity :
  on_menu item_name = false ->
  Order_.add_item its item_name quantity
  = (its, NotOnMenu (Str.capitalize (Str.lower item_name))).
Proof. unfold on_menu, Order_.add_item. intros ->. reflexivity. Qed.

Lemma add_item_known its item_name quantity :
  on_menu item_name = true ->
  Order_.add_item its item_name quantity
  = (dict_set (Str.lower item_name)
       (quantity_of (Str.lower item_name) its + quantity) its,
     Added quantity (Str.lower item_name)).
Proof.
  unfold on_menu, Order_.add_item, quantity_of. intros ->.
  destruct (dict_get (Str.lower item_name) its); reflexivity.
Qed.

Lemma add_item_report its item_name quantity :
  snd (Order_.add_item its item_name quantity) = add_report (item_name, quantity).
Proof.
  unfold add_report. simpl. destruct (on_menu item_name) eqn:E.
  - rewrite add_item_known by exact E. reflexivity.
  - rewrite add_item_unknown by exact E. reflexivity.
Qed.

Lemma add_item_keys its item_name quantity :
  keys_on_menu its -> keys_on_menu (fst (Order_.add_item its item_name quantity)).
Proof.
  intros Hk. destruct (on_menu item_name) eqn:E.
  - rewrite add_item_known by exact E. simpl. apply keys_set; auto.
  - rewrite add_item_unknown by exact E. exact Hk.
Qed.

Lemma add_item_bill its item_name quantity :
  on_menu item_name = true ->
  bill (fst (Order_.add_item its item_name quantity))
  = bill its + price (Str.lower item_name) * quantity.
Proof.
  intros E. unfold Order_.add_item. fold (on_menu item_name). rewrite E.
  destruct (dict_get (Str.lower item_name) its) eqn:G; simpl.
  - apply bill_set_present; exact G.
  - apply bill_set_absent; exact G.
Qed.

Lemma add_item_quantity item its item_name quantity :
  on_menu item_name = true ->
  quantity_of item (fst (Order_.add_item its item_name quantity))
  = quantity_of item its
    + (if decide (Str.lower item_name = item) then quantity else 0).
Proof.
  intros E. rewrite add_item_known by exact E. simpl. unfold quantity_of.
  destruct (decide (Str.lower item_name = item)) as [<- | Hne].
  - rewrite get_set_eq. reflexivity.
  - rewrite get_set_ne by exact Hne. lia.
Qed.

Lemma add_items_loop_cons its item_name quantity rest :
  Order_.add_items_loop its ((item_name, quantity) :: rest)
  = (fst (Order_.add_items_loop
            (fst (Order_.add_item its item_name quantity)) rest),
     snd (Order_.add_item its item_name quantity)
       :: snd (Order_.add_items_loop
                 (fst (Order_.add_item its item_name quantity)) rest)).
Proof.
  simpl. destruct (Order_.add_item its item_name quantity) as [its1 m].
  simpl. destruct (Order_.add_items_loop its1 rest). reflexivity.
Qed.

Lemma add_items_fst self requested :
  items (fst (Order_.add_items self requested))
  = fst (Order_.add_items_loop (items self) requested).
Proof.
  unfold Order_.add_items.
  destruct (Order_.add_items_loop (items self) requested). reflexivity.
Qed.

Lemma add_items_snd self requested :
  snd (Order_.add_items self requested)
  = snd (Order_.add_items_loop (items self) requested).
Proof.
  unfold Order_.add_items.
  destruct (Order_.add_items_loop (items self) requested). reflexivity.
Qed.

Lemma add_items_loop_keys requested : forall its,
  keys_on_menu its -> keys_on_menu (fst (Order_.add_items_loop its requested)).
Proof.
  induction requested as [| [item_name quantity] rest IH]; intros its Hk.
  - exact Hk.
  - rewrite add_items_loop_cons. simpl. apply IH, add_item_keys, Hk.
Qed.

Lemma add_items_loop_bill requested : forall its,
  Forall (fun kq => on_menu (fst kq) = true) requested ->
  bill (fst (Order_.add_items_loop its requested))
  = bill its + requested_bill requested.
Proof.
  induction requested as [| [item_name quantity] rest IH]; intros its Hall.
  - simpl. lia.
  - inversion Hall as [| ? ? Hhd Htl]; subst. simpl in Hhd.
    rewrite add_items_loop_cons. cbn [fst requested_bill].
    rewrite (IH _ Htl), (add_item_bill _ _ _ Hhd). lia.
Qed.

Lemma add_items_loop_quantity item requested : forall its,
  Forall (fun kq => on_menu (fst kq) = true) requested ->
  quantity_of item (fst (Order_.add_items_loop its requested))
  = quantity_of item its + requested_quantity item requested.
Proof.
  induction requested as [| [item_name quantity] rest IH]; intros its Hall.
  - simpl. lia.
  - inversion Hall as [| ? ? Hhd Htl]; subst. simpl in Hhd.
    rewrite add_items_loop_cons. cbn [fst requested_quantity].
    rewrite (IH _ Htl), (add_item_quantity _ _ _ _ Hhd). lia.
Qed.

Lemma add_items_loop_filter requested : forall its,
  fst (Order_.add_items_loop its requested)
  = fst (Order_.add_items_loop its
           (filter (fun kq => on_menu (fst kq) = true) requested)).
Proof.
  induction requested as [| [item_name quantity] rest IH]; intros its.
  - reflexivity.
  - rewrite add_items_loop_cons. cbn [fst].
    rewrite filter_cons. cbn [fst].
    destruct (decide (on_menu item_name = true)) as [E | E].
    + rewrite add_items_loop_cons. cbn [fst]. apply IH.
    + apply not_true_is_false in E.
      rewrite (add_item_unknown _ _ _ E). cbn [fst]. apply IH.
Qed.

Lemma add_items_loop_report requested : forall its,
  snd (Order_.add_items_loop its requested) = map add_report requested.
Proof.
  induction requested as [| [item_name quantity] rest IH]; intros its.
  - reflexivity.
  - rewrite add_items_loop_cons. cbn [snd map].
    rewrite add_item_report, IH. reflexivity.
Qed.

Lemma requested_bill_app xs ys :
  requested_bill (xs ++ ys) = requested_bill xs + requested_bill ys.
Proof. induction xs as [| [k q] xs IH]; simpl; lia. Qed.

Lemma requested_quantity_app item xs ys :
  requested_quantity item (xs ++ ys)
  = requested_quantity item xs + requested_quantity item ys.
Proof. induction xs as [| [k q] xs IH]; simpl; lia. Qed.

Lemma add_all_spec calls : forall self,
  keys_on_menu (items self) ->
  Forall (Forall (fun kq => on_menu (fst kq) = true)) calls ->
  keys_on_menu (items (add_all self calls)) /\
  bill (items (add_all self calls))
  = bill (items self) + requested_bill (concat calls) /\
  forall item,
    quantity_of item (items (add_all self calls))
    = quantity_of item (items self) + requested_quantity item (concat calls).
Proof.
  induction calls as [| requested rest IH]; intros self Hk Hall.
  - simpl. repeat split; [exact Hk | lia | intros; lia].
  - inversion Hall as [| ? ? Hhd Htl]; subst. cbn [add_all concat].
    destruct (IH (fst (Order_.add_items self requested))) as (Hk' & Hb & Hq).
    + rewrite add_items_fst. apply add_items_loop_keys, Hk.
    + exact Htl.
    + split; [exact Hk' |]. split.
      * rewrite Hb, add_items_fst, add_items_loop_bill, requested_bill_app
          by exact Hhd. lia.
      * intros item. rewrite Hq, add_items_fst, add_items_loop_quantity,
          requested_quantity_app by exact Hhd. lia.
Qed.

(** C2: after any sequence of [add_items] calls that only name menu
    items, [calculate_subtotal] returns the sum of unit price times
    quantity over the merged line items; each item's quantity is the sum
    of all the quantities requested for it, and the subtotal grows by the
    price of every request. *)
Theorem C2_subtotal_of_merged_items (self : Order)
    (calls : list (list (string * Z))) :
  keys_on_menu (items self) ->
  Forall (Forall (fun kq => on_menu (fst kq) = true)) calls ->
  Order_.calculate_subtotal (add_all self calls)
  = Ok (bill (items (add_all self calls))) /\
  (forall item,
     quantity_of item (items (add_all self calls))
     = quantity_of item (items self) + requested_quantity item (concat calls)) /\
  bill (items (add_all self calls))
  = bill (items self) + requested_bill (concat calls).
Proof.
  intros Hk Hall. destruct (add_all_spec calls self Hk Hall) as (Hk' & Hb & Hq).
  split; [| split]; [| exact Hq | exact Hb].
  apply subtotal_of_bill, Hk'.
Qed.

Lemma C2_witness :
  let self := Order_.init 1 1 "2024-01-01 10:00:00" in
  let calls := [[("Coffee", 1)]; [("tea", 2); ("COFFEE", 3)]] in
  items (add_all self calls) = [("coffee", 4); ("tea", 2)] /\
  Order_.calculate_subtotal (add_all self calls) = Ok 1100.
Proof.
  intros self calls.
  split; [reflexivity |].
  destruct (C2_subtotal_of_merged_items self calls) as (H & _ & _).
  - constructor.
  - repeat constructor.
  - rewrite H. reflexivity.
Defined.

Example add_items_pizza :
  Order_.add_items (Order_.init 4 1 "2024-01-01 10:00:00")
    [("Pizza", 2); ("Tea", 1); ("tea", 2)]
  = (Order_.with_items (Order_.init 4 1 "2024-01-01 10:00:00") [("tea", 3)],
     [NotOnMenu "Pizza"; Added 1 "tea"; Added 2 "tea"]).
Proof. reflexivity. Qed.

(** Whatever else a batch holds, a menu item gets the quantities
    requested for it, and no other key is touched. *)
Lemma add_items_loop_menu_quantity item requested : forall its,
  dict_mem item menu = true ->
  quantity_of item (fst (Order_.add_items_loop its requested))
  = quantity_of item its + requested_quantity item requested.
Proof.
  intros its Hm. revert its.
  induction requested as [| [item_name quantity] rest IH]; intros its.
  - simpl. lia.
  - rewrite add_items_loop_cons. cbn [fst requested_quantity]. rewrite IH.
    destruct (on_menu item_name) eqn:E.
    + rewrite (add_item_quantity _ _ _ _ E). lia.
    + rewrite (add_item_unknown _ _ _ E). cbn [fst].
      destruct (decide (Str.lower item_name = item)) as [<- | _]; [| lia].
      unfold on_menu in E. congruence.
Qed.

Lemma add_items_loop_off_menu item requested : forall its,
  dict_mem item menu = false ->
  dict_get item (fst (Order_.add_items_loop its requested)) = dict_get item its.
Proof.
  intros its Hm. revert its.
  induction requested as [| [item_name quantity] rest IH]; intros its.
  - reflexivity.
  - rewrite add_items_loop_cons. cbn [fst]. rewrite IH.
    destruct (on_menu item_name) eqn:E.
    + rewrite (add_item_known _ _ _ E). cbn [fst].
      apply get_set_ne. intros Heq. unfold on_menu in E. congruence.
    + rewrite (add_item_unknown _ _ _ E). reflexivity.
Qed.

(** C7: an entry whose lower-cased name is not a menu key leaves the
    line items as they are and is reported as not on the menu, by a line
    that can always be printed.  In a batch, whatever unknown entries it
    holds, every menu item is still applied: its stored quantity grows by
    the quantities the batch requests for it, no key off the menu is
    stored or changed, nothing else of the order changes, and there is one
    report per entry, in order.  So a batch stores exactly what its menu
    entries alone would store. *)
Theorem C7_unknown_item_skipped (self : Order) (requested : list (string * Z)) :
  (forall item_name quantity,
     on_menu item_name = false ->
     Order_.add_items self [(item_name, quantity)]
     = (self, [NotOnMenu (Str.capitalize (Str.lower item_name))]) /\
     Msg_ok (NotOnMenu (Str.capitalize (Str.lower item_name))) = true) /\
  (forall item,
     dict_mem item menu = true ->
     quantity_of item (items (fst (Order_.add_items self requested)))
     = quantity_of item (items self) + requested_quantity item requested) /\
  (forall item,
     dict_mem item menu = false ->
     dict_get item (items (fst (Order_.add_items self requested)))
     = dict_get item (items self)) /\
  fst (Order_.add_items self requested)
  = Order_.with_items self (items (fst (Order_.add_items self requested))) /\
  fst (Order_.add_items self requested)
  = fst (Order_.add_items self
           (filter (fun kq => on_menu (fst kq) = true) requested)) /\
  snd (Order_.add_items self requested) = map add_report requested.
Proof.
  split; [| split; [| split; [| split; [| split]]]].
  - intros item_name quantity E. split; [| reflexivity].
    unfold Order_.add_items. simpl.
    rewrite (add_item_unknown _ _ _ E). destruct self; reflexivity.
  - intros item Hm. rewrite add_items_fst.
    apply add_items_loop_menu_quantity, Hm.
  - intros item Hm. rewrite add_items_fst.
    apply add_items_loop_off_menu, Hm.
  - unfold Order_.add_items.
    destruct (Order_.add_items_loop (items self) requested). reflexivity.
  - unfold Order_.add_items.
    pose proof (add_items_loop_filter requested (items self)) as Hf.
    destruct (Order_.add_items_loop (items self) requested) as [a b].
    destruct (Order_.add_items_loop (items self)
                (filter (fun kq => on_menu (fst kq) = true) requested))
      as [c d].
    simpl in *. subst. reflexivity.
  - rewrite add_items_snd. apply add_items_loop_report.
Qed.

Lemma C7_witness :
  let batch := [("tea", 2); ("pizza", 1); ("Coffee", 1)] in
  quantity_of "tea" (items (fst (Order_.add_items (coffee_and_tea false) batch)))
  = 1 + 2 /\
  quantity_of "coffee"
    (items (fst (Order_.add_items (coffee_and_tea false) batch)))
  = 1 + 1 /\
  dict_get "pizza"
    (items (fst (Order_.add_items (coffee_and_tea false) batch)))
  = None /\
  snd (Order_.add_items (coffee_and_tea false) batch)
  = [Added 2 "tea"; NotOnMenu "Pizza"; Added 1 "coffee"].
Proof.
  intros batch.
  destruct (C7_unknown_item_skipped (coffee_and_tea false) batch)
    as (_ & Hq & Hoff & _ & _ & Hout).
  split; [exact (Hq "tea" eq_refl) |].
  split; [exact (Hq "coffee" eq_refl) |].
  split; [exact (Hoff "pizza" eq_refl) |].
  exact Hout.
Defined.

(** ** Binary64 arithmetic

    Facts about [SpecFloat]'s rounding, up to the exactness of the tax on
    a menu subtotal. *)

Lemma digits2_size p : digits2_pos p = Pos.size p.
Proof. induction p; simpl; congruence. Qed.

Lemma digits2_bounds p :
  2 ^ (Z.pos (digits2_pos p) - 1) <= Z.pos p < 2 ^ Z.pos (digits2_pos p).
Proof.
  rewrite digits2_size.
  assert (H : Z.log2 (Z.pos p) = Z.pos (Pos.size p) - 1).
  { destruct p; simpl; lia. }
  pose proof (Z.log2_spec (Z.pos p) eq_refl) as Hs.
  rewrite H in Hs. replace (Z.succ (Z.pos (Pos.size p) - 1)) with (Z.pos (Pos.size p)) in Hs by lia.
  exact Hs.
Qed.

Lemma digits2_unique p d :
  2 ^ (d - 1) <= Z.pos p < 2 ^ d -> Z.pos (digits2_pos p) = d.
Proof.
  intros H. rewrite digits2_size.
  assert (Hl : Z.log2 (Z.pos p) = Z.pos (Pos.size p) - 1).
  { destruct p; simpl; lia. }
  assert (0 <= d - 1).
  { destruct (Z_lt_le_dec (d - 1) 0) as [Hn|]; [|assumption].
    exfalso. destruct H as [_ H]. 
    destruct (Z_lt_le_dec d 0). rewrite Z.pow_neg_r in H by lia. lia.
    assert (d = 0) by lia. subst. simpl in H. lia. }
  pose proof (Z.log2_unique (Z.pos p) (d - 1) H0) as Hu.
  replace (Z.succ (d - 1)) with d in Hu by lia.
  specialize (Hu H). lia.
Qed.

Lemma iter_xO p k : Z.pos (Pos.iter xO p k) = Z.pos p * 2 ^ Z.pos k.
Proof.
  induction k using Pos.peano_ind.
  - simpl. lia.
  - rewrite Pos.iter_succ, Pos2Z.inj_succ, Z.pow_succ_r by lia.
    rewrite Pos2Z.inj_xO, IHk. lia.
Qed.

Lemma iter_pos_nat {A} (f : A -> A) p : forall x,
  SpecFloat.iter_pos f p x = Nat.iter (Pos.to_nat p) f x.
Proof.
  induction p as [p IH | p IH |]; intros x; simpl SpecFloat.iter_pos.
  - rewrite !IH, Pos2Nat.inj_xI. simpl Nat.mul. rewrite Nat.add_0_r.
    rewrite Nat.iter_succ_r, Nat.iter_add. reflexivity.
  - rewrite !IH, Pos2Nat.inj_xO. simpl Nat.mul. rewrite Nat.add_0_r.
    rewrite Nat.iter_add. reflexivity.
  - reflexivity.
Qed.

Lemma shr_1_nonneg m r s :
  0 <= m ->
  shr_1 (Build_shr_record m r s)
  = Build_shr_record (m / 2) (Z.odd m) (r || s).
Proof.
  intros Hm. rewrite <- Z.div2_div.
  destruct m as [| p | p]; [reflexivity | | lia].
  destruct p; reflexivity.
Qed.

Lemma sticky_step m q :
  0 <= m -> 0 < q ->
  negb (m mod (q * 2) =? 0) = Z.odd (m / q) || negb (m mod q =? 0).
Proof.
  intros Hm Hq. rewrite Z.rem_mul_r by lia. rewrite Zmod_odd.
  pose proof (Z.mod_pos_bound m q Hq) as Hb.
  destruct (Z.odd (m / q)); destruct (Z.eqb_spec (m mod q) 0) as [E | E];
    cbn [orb negb].
  - destruct (Z.eqb_spec (m mod q + q * 1) 0); [lia | reflexivity].
  - destruct (Z.eqb_spec (m mod q + q * 1) 0); [lia | reflexivity].
  - destruct (Z.eqb_spec (m mod q + q * 0) 0); [reflexivity | lia].
  - destruct (Z.eqb_spec (m mod q + q * 0) 0); [lia | reflexivity].
Qed.

Lemma pow2_pred n : 1 <= n -> 2 ^ n = 2 ^ (n - 1) * 2.
Proof.
  intros Hn. replace n with ((n - 1) + 1) at 1 by lia.
  rewrite Z.pow_add_r by lia. reflexivity.
Qed.

Lemma shr_iter m k :
  0 <= m -> (1 <= k)%nat ->
  Nat.iter k shr_1 (Build_shr_record m false false)
  = Build_shr_record (m / 2 ^ Z.of_nat k)
      (Z.odd (m / 2 ^ (Z.of_nat k - 1)))
      (negb (m mod 2 ^ (Z.of_nat k - 1) =? 0)).
Proof.
  intros Hm Hk. induction k as [| k IH]; [lia |].
  destruct k as [| k].
  - unfold Nat.iter. cbn [nat_rect]. rewrite shr_1_nonneg by exact Hm.
    change (Z.of_nat 1 - 1) with 0. change (2 ^ Z.of_nat 1) with 2.
    rewrite Z.pow_0_r, Z.div_1_r, Z.mod_1_r. reflexivity.
  - rewrite Nat.iter_succ, IH by lia.
    assert (Hp : 0 < 2 ^ (Z.of_nat (S k) - 1)) by (apply Z.pow_pos_nonneg; lia).
    assert (Hp2 : 2 ^ Z.of_nat (S k) = 2 ^ (Z.of_nat (S k) - 1) * 2)
      by (apply pow2_pred; lia).
    rewrite shr_1_nonneg by (apply Z.div_pos; lia).
    rewrite Z.div_div by lia.
    rewrite (pow2_pred (Z.of_nat (S (S k)))) by lia.
    replace (Z.of_nat (S (S k)) - 1) with (Z.of_nat (S k)) by lia.
    f_equal. rewrite Hp2. symmetry. apply sticky_step; lia.
Qed.

Lemma shr_exact m e n :
  0 <= m -> 0 < n ->
  shr (Build_shr_record m false false) e n
  = (Build_shr_record (m / 2 ^ n) (Z.odd (m / 2 ^ (n - 1)))
       (negb (m mod 2 ^ (n - 1) =? 0)), e + n).
Proof.
  intros Hm Hn. destruct n as [| p | p]; try lia.
  unfold shr. rewrite iter_pos_nat, shr_iter by lia.
  rewrite positive_nat_Z. reflexivity.
Qed.

(** Rounding a product that lies just below a representable value. *)
Lemma round_up_just_below P T n d e :
  1 <= n -> 0 < d < 2 ^ (n - 1) -> P = T * 2 ^ n - d ->
  2 ^ 52 < T < 2 ^ 53 -> -1074 <= e + n <= 971 ->
  binary_round_aux 53 1024 false P e loc_Exact
  = S754_finite false (Z.to_pos T) (e + n).
Proof.
  intros Hn Hd HP HT He.
  assert (Hpow : 2 ^ n = 2 ^ (n - 1) * 2) by (apply pow2_pred; lia).
  assert (Hq : 0 < 2 ^ (n - 1)) by (apply Z.pow_pos_nonneg; lia).
  assert (HPpos : 0 < P) by nia.
  assert (Hdig : Zdigits2 P = 53 + n).
  { destruct P as [| p | p]; try lia. simpl. apply digits2_unique.
    replace (53 + n - 1) with (52 + n) by lia.
    rewrite !Z.pow_add_r by lia. nia. }
  unfold binary_round_aux, shr_fexp. rewrite Hdig.
  unfold fexp, emin.
  replace (Z.max (53 + n + e - 53) (3 - 1024 - 53) - e) with n by lia.
  cbn [shr_record_of_loc]. rewrite shr_exact by lia.
  assert (Hdiv : P / 2 ^ n = T - 1).
  { symmetry. apply (Z.div_unique P (2 ^ n) (T - 1) (2 ^ n - d)); lia. }
  assert (Hdiv' : P / 2 ^ (n - 1) = 2 * T - 1).
  { symmetry. apply (Z.div_unique P (2 ^ (n - 1)) (2 * T - 1) (2 ^ (n - 1) - d)); nia. }
  assert (Hmod : P mod 2 ^ (n - 1) = 2 ^ (n - 1) - d).
  { symmetry. apply (Z.mod_unique P (2 ^ (n - 1)) (2 * T - 1) (2 ^ (n - 1) - d)); nia. }
  rewrite Hdiv, Hdiv', Hmod.
  replace (Z.odd (2 * T - 1)) with true
    by (symmetry; rewrite Z.odd_sub, Z.odd_mul; reflexivity).
  destruct (Z.eqb_spec (2 ^ (n - 1) - d) 0) as [E | E]; [lia |].
  cbn [negb loc_of_shr_record shr_m round_nearest_even].
  replace (T - 1 + 1) with T by lia.
  assert (Hdig' : Zdigits2 T = 53).
  { destruct T as [| t | t]; try lia. simpl. apply digits2_unique. simpl. lia. }
  rewrite Hdig'.
  replace (Z.max (53 + (e + n) - 53) (3 - 1024 - 53) - (e + n)) with 0 by lia.
  cbn [shr shr_m].
  destruct T as [| t | t]; try lia.
  destruct (Z.leb_spec (e + n) (1024 - 53)); [reflexivity | lia].
Qed.

Lemma round_exact sign m e :
  Z.pos (digits2_pos m) = 53 -> -1074 <= e <= 971 ->
  binary_round_aux 53 1024 sign (Z.pos m) e loc_Exact = S754_finite sign m e.
Proof.
  intros Hd He. unfold binary_round_aux, shr_fexp. cbn [Zdigits2].
  rewrite Hd. unfold fexp, emin.
  replace (Z.max (53 + e - 53) (3 - 1024 - 53) - e) with 0 by lia.
  cbn [shr shr_record_of_loc shr_m loc_of_shr_record round_nearest_even
       Zdigits2].
  rewrite Hd.
  replace (Z.max (53 + e - 53) (3 - 1024 - 53) - e) with 0 by lia.
  cbn [shr shr_record_of_loc shr_m].
  destruct (Z.leb_spec e (1024 - 53)); [reflexivity | lia].
Qed.

(** An integer below 2^53 converts exactly: its digits are moved to the
    top of the 53-bit mantissa. *)
Lemma binary_round_small sign p :
  Z.pos p < 2 ^ 53 ->
  binary_round 53 1024 sign p 0
  = S754_finite sign
      (Z.to_pos (Z.pos p * 2 ^ (53 - Z.pos (digits2_pos p))))
      (Z.pos (digits2_pos p) - 53).
Proof.
  intros Hp. pose proof (digits2_bounds p) as Hb.
  set (d := Z.pos (digits2_pos p)) in *.
  assert (Hd : 1 <= d <= 53).
  { split; [unfold d; lia |].
    destruct (Z_le_gt_dec d 53) as [| Hgt]; [assumption | exfalso].
    assert (2 ^ 53 <= 2 ^ (d - 1)) by (apply Z.pow_le_mono_r; lia). lia. }
  unfold binary_round.
  unfold fexp at 1, emin. fold d.
  replace (Z.max (d + 0 - 53) (3 - 1024 - 53)) with (d - 53) by lia.
  unfold shl_align. rewrite Z.sub_0_r.
  destruct (d - 53) as [| x | x] eqn:Ex; try lia.
  - replace (53 - d) with 0 by lia. rewrite Z.pow_0_r, Z.mul_1_r.
    rewrite round_exact by (fold d; lia). reflexivity.
  - assert (Hx : Z.pos x = 53 - d) by lia.
    assert (Hm : Z.pos (Pos.iter xO p x) = Z.pos p * 2 ^ (53 - d))
      by (rewrite iter_xO, Hx; reflexivity).
    rewrite round_exact.
    + rewrite <- Hm. reflexivity.
    + apply digits2_unique. rewrite Hm.
      replace (2 ^ (53 - 1)) with (2 ^ (d - 1) * 2 ^ (53 - d))
        by (rewrite <- Z.pow_add_r by lia; f_equal; lia).
      replace (2 ^ 53) with (2 ^ d * 2 ^ (53 - d))
        by (rewrite <- Z.pow_add_r by lia; f_equal; lia).
      assert (0 < 2 ^ (53 - d)) by (apply Z.pow_pos_nonneg; lia).
      nia.
    + lia.
Qed.

Lemma of_int_small p :
  Z.pos p < 2 ^ 53 ->
  Float.of_int (Z.pos p)
  = Ok (S754_finite false
          (Z.to_pos (Z.pos p * 2 ^ (53 - Z.pos (digits2_pos p))))
          (Z.pos (digits2_pos p) - 53)).
Proof.
  intros Hp. unfold Float.of_int, binary_normalize, Float.prec, Float.emax.
  rewrite binary_round_small by exact Hp. reflexivity.
Qed.

(** Every integer of magnitude below 2^53 converts to a float. *)
Lemma of_int_total z : Z.abs z < 2 ^ 53 -> exists x, Float.of_int z = Ok x.
Proof.
  intros Hz. destruct z as [| p | p].
  - eexists. reflexivity.
  - eexists. apply of_int_small. lia.
  - unfold Float.of_int, binary_normalize, Float.prec, Float.emax.
    rewrite binary_round_small by lia. eexists. reflexivity.
Qed.

(** 9% of a multiple of 50 below 2^53 is computed exactly: the product
    with the float 0.09 rounds to 9k/2. *)
Lemma int_mul_rate_exact k :
  0 < k -> 50 * k < 2 ^ 53 ->
  let i := 53 - Z.pos (digits2_pos (Z.to_pos (9 * k))) in
  Float.int_mul (50 * k) CGST_RATE
  = Ok (S754_finite false (Z.to_pos (9 * k * 2 ^ i)) (- i - 1)).
Proof.
  intros Hk Hlt i.
  destruct (50 * k) as [| p50 | p50] eqn:E50; try lia.
  destruct (9 * k) as [| p9 | p9] eqn:E9; try lia.
  cbn [Z.to_pos] in i.
  pose proof (digits2_bounds p50) as Hb50.
  pose proof (digits2_bounds p9) as Hb9.
  set (d50 := Z.pos (digits2_pos p50)) in *.
  set (d9 := Z.pos (digits2_pos p9)) in *.
  assert (Hd50 : 1 <= d50 <= 53).
  { split; [unfold d50; lia |].
    destruct (Z_le_gt_dec d50 53) as [| Hgt]; [assumption | exfalso].
    assert (2 ^ 53 <= 2 ^ (d50 - 1)) by (apply Z.pow_le_mono_r; lia). lia. }
  assert (Hd9 : 1 <= d9 <= d50).
  { split; [unfold d9; lia |].
    destruct (Z_le_gt_dec d9 d50) as [| Hgt]; [assumption | exfalso].
    assert (2 ^ d50 <= 2 ^ (d9 - 1)) by (apply Z.pow_le_mono_r; lia). lia. }
  assert (Hi : 0 <= i <= 52) by (unfold i; lia).
  unfold Float.int_mul. rewrite of_int_small by lia. fold d50.
  cbn [mbind res_bind]. unfold Float.mul, CGST_RATE, SFmul. cbn [xorb].
  set (j := 53 - d50) in *.
  assert (A : 0 < 2 ^ j) by (apply Z.pow_pos_nonneg; lia).
  assert (B : 0 < 2 ^ i) by (apply Z.pow_pos_nonneg; lia).
  assert (X : 2 ^ i * 2 ^ d9 = 2 ^ 53)
    by (rewrite <- Z.pow_add_r by lia; f_equal; lia).
  assert (X' : 2 ^ i * 2 ^ (d9 - 1) = 2 ^ 52)
    by (rewrite <- Z.pow_add_r by lia; f_equal; lia).
  f_equal.
  rewrite (round_up_just_below _ (Z.pos p9 * 2 ^ i) (j + 55 - i)
             (12 * k * 2 ^ j)).
  - f_equal. unfold j, d50. lia.
  - lia.
  - split; [nia |].
    replace (j + 55 - i - 1) with (j + (d9 + 1)) by (unfold i; lia).
    rewrite Z.pow_add_r, Z.pow_add_r by lia. change (2 ^ 1) with 2. nia.
  - rewrite Pos2Z.inj_mul, Z2Pos.id by nia.
    replace (j + 55 - i) with (j + (d9 + 2)) by (unfold i; lia).
    rewrite !Z.pow_add_r by lia. change (2 ^ 2) with 4.
    replace (Z.pos p9 * 2 ^ i * (2 ^ j * (2 ^ d9 * 4)))
      with (Z.pos p9 * 2 ^ j * 4 * (2 ^ i * 2 ^ d9)) by ring.
    rewrite X. lia.
  - split.
    + assert (2 ^ 52 <= Z.pos p9 * 2 ^ i) by nia.
      assert (Z.pos p9 * 2 ^ i <> 2 ^ 52).
      { rewrite <- E9. intros Heq.
        assert (H9 : (2 ^ 52) mod 9 = 0).
        { rewrite <- Heq. replace (9 * k * 2 ^ i) with (k * 2 ^ i * 9) by ring.
          apply Z.mod_mul. lia. }
        vm_compute in H9. discriminate. }
      lia.
    + nia.
  - lia.
Qed.

Lemma digits_le_53 n : 0 < n < 2 ^ 53 -> 1 <= Z.pos (digits2_pos (Z.to_pos n)) <= 53.
Proof.
  intros Hn. pose proof (digits2_bounds (Z.to_pos n)) as Hb.
  rewrite Z2Pos.id in Hb by lia. split; [lia |].
  destruct (Z_le_gt_dec (Z.pos (digits2_pos (Z.to_pos n))) 53) as [| Hgt];
    [assumption | exfalso].
  assert (2 ^ 53 <= 2 ^ (Z.pos (digits2_pos (Z.to_pos n)) - 1))
    by (apply Z.pow_le_mono_r; lia).
  lia.
Qed.

Lemma dyadic_mantissa n :
  0 < n < 2 ^ 53 ->
  let shift := 53 - Z.pos (digits2_pos (Z.to_pos n)) in
  0 <= shift /\ 2 ^ 52 <= n * 2 ^ shift < 2 ^ 53.
Proof.
  intros Hn shift. pose proof (digits_le_53 n Hn) as Hd.
  pose proof (digits2_bounds (Z.to_pos n)) as Hb.
  rewrite Z2Pos.id in Hb by lia.
  set (d := Z.pos (digits2_pos (Z.to_pos n))) in *.
  split; [unfold shift; lia |].
  replace (2 ^ 52) with (2 ^ (d - 1) * 2 ^ shift)
    by (rewrite <- Z.pow_add_r by (unfold shift; lia); f_equal; unfold shift; lia).
  replace (2 ^ 53) with (2 ^ d * 2 ^ shift)
    by (rewrite <- Z.pow_add_r by (unfold shift; lia); f_equal; unfold shift; lia).
  assert (0 < 2 ^ shift) by (apply Z.pow_pos_nonneg; unfold shift; lia).
  nia.
Qed.






Lemma dyadic_half_exact n num den :
  0 < n < 2 ^ 53 -> n * den = 2 * num ->
  Float.is_exactly (dyadic n (-1)) num den.
Proof.
  intros Hn Heq. destruct (dyadic_mantissa n Hn) as [Hs Hm].
  unfold dyadic, Float.is_exactly. cbv zeta in *.
  set (shift := 53 - Z.pos (digits2_pos (Z.to_pos n))) in *.
  destruct (Z.leb_spec 0 (-1 - shift)) as [| _]; [lia |].
  rewrite Z2Pos.id by lia.
  replace (- (-1 - shift)) with (shift + 1) by lia.
  rewrite Z.pow_add_r by lia. change (2 ^ 1) with 2.
  replace (n * 2 ^ shift * den) with (n * den * 2 ^ shift) by ring.
  rewrite Heq. ring.
Qed.

(** The tax on a menu subtotal [50 * k], as a dyadic number. *)
Lemma int_mul_rate_dyadic k :
  0 < k -> 50 * k < 2 ^ 53 ->
  Float.int_mul (50 * k) CGST_RATE = Ok (dyadic (9 * k) (-1)).
Proof.
  intros Hk Hlt. rewrite (int_mul_rate_exact k Hk Hlt). cbv zeta.
  unfold dyadic. do 2 f_equal. lia.
Qed.

(** ** Integers too large for a float *)

Lemma round_nearest_even_bounds q l :
  q <= round_nearest_even q l <= q + 1.
Proof.
  destruct l as [| []]; cbn [round_nearest_even]; try lia.
  destruct (Z.even q); lia.
Qed.

(** An integer of 1025 bits or more rounds to an infinity. *)
Lemma binary_round_overflow sign p :
  2 ^ 1024 <= Z.pos p ->
  binary_round 53 1024 sign p 0 = S754_infinity sign.
Proof.
  intros Hp. pose proof (digits2_bounds p) as Hb.
  set (D := Z.pos (digits2_pos p)) in *.
  assert (HD : 1025 <= D).
  { destruct (Z_lt_le_dec D 1025) as [Hlt | ]; [exfalso | assumption].
    assert (2 ^ D <= 2 ^ 1024) by (apply Z.pow_le_mono_r; lia). lia. }
  unfold binary_round. unfold fexp at 1, emin. fold D.
  replace (Z.max (D + 0 - 53) (3 - 1024 - 53)) with (D - 53) by lia.
  unfold shl_align.
  destruct (D - 53 - 0) as [| x | x] eqn:Ex; try lia.
  unfold binary_round_aux, shr_fexp. cbn [Zdigits2]. fold D.
  unfold fexp, emin.
  replace (Z.max (D + 0 - 53) (3 - 1024 - 53) - 0) with (D - 53) by lia.
  cbn [shr_record_of_loc]. rewrite shr_exact by lia.
  set (n := D - 53) in *.
  set (q := Z.pos p / 2 ^ n).
  assert (Hpn : 0 < 2 ^ n) by (apply Z.pow_pos_nonneg; lia).
  assert (Hq : 2 ^ 52 <= q < 2 ^ 53).
  { unfold q. split.
    - apply Z.div_le_lower_bound; [lia |].
      replace (2 ^ n * 2 ^ 52) with (2 ^ (D - 1))
        by (rewrite <- Z.pow_add_r by lia; f_equal; lia).
      lia.
    - apply Z.div_lt_upper_bound; [lia |].
      replace (2 ^ n * 2 ^ 53) with (2 ^ D)
        by (rewrite <- Z.pow_add_r by lia; f_equal; lia).
      lia. }
  set (l := loc_of_shr_record _).
  pose proof (round_nearest_even_bounds q l) as Hr.
  cbn [shr_m]. fold q.
  set (q' := round_nearest_even q l) in *.
  destruct (Z.eq_dec q' (2 ^ 53)) as [E | E].
  - assert (Hd : Zdigits2 q' = 54) by (rewrite E; reflexivity).
    rewrite Hd.
    replace (Z.max (54 + (0 + n) - 53) (3 - 1024 - 53) - (0 + n)) with 1 by lia.
    cbn [shr_record_of_loc]. rewrite shr_exact by lia. cbn [shr_m].
    replace (q' / 2 ^ 1) with (Z.pos (2 ^ 52)) by (rewrite E; reflexivity).
    destruct (Z.leb_spec (0 + n + 1) (1024 - 53)); [lia | reflexivity].
  - assert (Hd : Zdigits2 q' = 53).
    { destruct q' as [| m | m]; try lia. cbn [Zdigits2].
      apply digits2_unique. simpl. lia. }
    rewrite Hd.
    replace (Z.max (53 + (0 + n) - 53) (3 - 1024 - 53) - (0 + n)) with 0 by lia.
    cbn [shr shr_record_of_loc shr_m].
    destruct q' as [| m | m]; try lia.
    destruct (Z.leb_spec (0 + n) (1024 - 53)); [lia | reflexivity].
Qed.

Lemma of_int_overflow z :
  2 ^ 1024 <= Z.abs z -> Float.of_int z = Raise OverflowError.
Proof.
  intros Hz. unfold Float.of_int, binary_normalize, Float.prec, Float.emax.
  destruct z as [| p | p].
  - cbn in Hz. lia.
  - rewrite binary_round_overflow by lia. reflexivity.
  - rewrite binary_round_overflow by lia. reflexivity.
Qed.

(** An integer that converts to a float is far below the length [str]
    refuses. *)
Lemma of_int_fits z x : Float.of_int z = Ok x -> Int.fits z = true.
Proof.
  intros Hx. unfold Int.fits. apply Z.ltb_lt.
  destruct (Z.lt_ge_cases (Z.abs z) (2 ^ 1024)) as [Hlt | Hge].
  - assert (H : 2 ^ 1024 <= Int.str_bound) by (apply Z.leb_le; vm_compute; reflexivity).
    lia.
  - rewrite (of_int_overflow z Hge) in Hx. discriminate.
Qed.

(** ** Taxes and totals *)

(** The rate constant is the correctly rounded quotient 9 / 100. *)
Lemma rate_is_nine_percent :
  Float.div (float_of 9) (float_of 100) = CGST_RATE /\ SGST_RATE = CGST_RATE.
Proof. split; vm_compute; reflexivity. Qed.

Lemma calculate_taxes_eq subtotal :
  Order_.calculate_taxes subtotal
  = match Float.of_int subtotal with
    | Ok x => Ok (Float.mul x CGST_RATE, Float.mul x SGST_RATE)
    | Raise e => Raise e
    end.
Proof.
  unfold Order_.calculate_taxes, Float.int_mul.
  destruct (Float.of_int subtotal); reflexivity.
Qed.

Lemma total_of_eq subtotal x cgst sgst packaging :
  Float.of_int subtotal = Ok x ->
  Order_.total_of subtotal cgst sgst packaging
  = if packaging
    then Float.add_int (Float.add (Float.add x cgst) sgst) PACKAGING_COST
    else Ok (Float.add (Float.add x cgst) sgst).
Proof.
  intros Hx. unfold Order_.total_of, Float.int_add. rewrite Hx. reflexivity.
Qed.

Lemma calculate_total_inv o total cgst sgst :
  Order_.calculate_total o = Ok (total, cgst, sgst) <->
  exists subtotal,
    Order_.calculate_subtotal o = Ok subtotal /\
    Order_.calculate_taxes subtotal = Ok (cgst, sgst) /\
    Order_.total_of subtotal cgst sgst (include_packaging o) = Ok total.
Proof.
  unfold Order_.calculate_total. split.
  - destruct (Order_.calculate_subtotal o) as [subtotal |] eqn:Es; cbn;
      [| discriminate].
    destruct (Order_.calculate_taxes subtotal) as [[c g] |] eqn:Et; cbn;
      [| discriminate].
    destruct (Order_.total_of subtotal c g (include_packaging o)) as [x |] eqn:E;
      cbn; [| discriminate].
    intros [= <- <- <-]. exists subtotal. auto.
  - intros (subtotal & -> & Ht & Htot). cbn. rewrite Ht. cbn. rewrite Htot.
    reflexivity.
Qed.




(** [calculate_total] returns for every order of menu items whose
    subtotal is below 2^53 in magnitude. *)
Lemma calculate_total_returns o :
  keys_on_menu (items o) -> Z.abs (bill (items o)) < 2 ^ 53 ->
  exists total cgst sgst, Order_.calculate_total o = Ok (total, cgst, sgst).
Proof.
  intros Hk Hb. destruct (of_int_total _ Hb) as [x Hx].
  exists (if include_packaging o
          then Float.add (Float.add (Float.add x (Float.mul x CGST_RATE))
                            (Float.mul x SGST_RATE)) (float_of PACKAGING_COST)
          else Float.add (Float.add x (Float.mul x CGST_RATE))
                 (Float.mul x SGST_RATE)),
    (Float.mul x CGST_RATE), (Float.mul x SGST_RATE).
  apply calculate_total_inv. exists (bill (items o)).
  split; [apply subtotal_of_bill, Hk |].
  rewrite calculate_taxes_eq, Hx. split; [reflexivity |].
  rewrite (total_of_eq _ x _ _ _ Hx).
  destruct (include_packaging o); reflexivity.
Qed.


(** C1, as stated, fails: the sums of [calculate_total] are float
    operations.  For an order of 2^60 teas with packaging the total is not
    the subtotal plus the two taxes plus 20: the 20 is lost in rounding. *)
Lemma C1_counterexample :
  ~ (forall o,
       exists subtotal total cgst sgst nc ns d,
         Order_.calculate_subtotal o = Ok subtotal /\
         Order_.calculate_total o = Ok (total, cgst, sgst) /\
         0 < d /\ Float.is_exactly cgst nc d /\ Float.is_exactly sgst ns d /\
         Float.is_exactly total
           (subtotal * d + nc + ns
            + (if include_packaging o then PACKAGING_COST * d else 0)) d).
Proof.
  intros H.
  destruct (H (many_teas true))
    as (subtotal & total & cgst & sgst & nc & ns & d
        & Hs & Ht & Hd & Hc & Hg & Htot).
  vm_compute in Hs. injection Hs as <-.
  vm_compute in Ht. injection Ht as <- <- <-.
  unfold Float.is_exactly in Hc, Hg, Htot. cbn in Hc, Hg, Htot.
  unfold PACKAGING_COST in Htot.
  change (2 ^ 10) with 1024 in Hc, Hg. change (2 ^ 13) with 8192 in Htot.
  lia.
Qed.



(** C3, as stated, fails: the tax on a subtotal of 10 is the float
    0.8999999999999999, not 9/10. *)
Lemma C3_counterexample :
  ~ (forall subtotal,
       exists tax,
         Order_.calculate_taxes subtotal = Ok (tax, tax) /\
         Float.is_exactly tax (9 * subtotal) 100).
Proof.
  intros H. destruct (H 10) as (tax & Htax & Hexact).
  vm_compute in Htax. injection Htax as <-.
  vm_compute in Hexact. discriminate.
Qed.

(** C3, amended: [calculate_taxes] returns the same value twice, the
    float product of the subtotal and the float 0.09, for every subtotal
    that converts to a float (otherwise it raises what the conversion
    raises).  The value is exactly 9% of the subtotal when the subtotal is
    a multiple of 50, as every menu subtotal is, from 0 to below 2^53; the
    taxes on 1000 are 90 and 90. *)
Theorem C3_taxes_equal_and_exact :
  (forall subtotal,
     match Float.of_int subtotal with
     | Ok x =>
         Order_.calculate_taxes subtotal
         = Ok (Float.mul x CGST_RATE, Float.mul x CGST_RATE)
     | Raise e => Order_.calculate_taxes subtotal = Raise e
     end) /\
  (forall k,
     0 <= k -> 50 * k < 2 ^ 53 ->
     exists tax,
       Order_.calculate_taxes (50 * k) = Ok (tax, tax) /\
       Float.is_exactly tax (9 * (50 * k)) 100) /\
  Order_.calculate_taxes 1000 = Ok (float_of 90, float_of 90).
Proof.
  split; [| split; [| vm_compute; reflexivity]].
  - intros subtotal. rewrite calculate_taxes_eq.
    destruct (Float.of_int subtotal); reflexivity.
  - intros k Hk Hlt. destruct (Z.eq_dec k 0) as [-> | Hne].
    + eexists. split; [vm_compute; reflexivity | reflexivity].
    + exists (dyadic (9 * k) (-1)). split.
      * unfold Order_.calculate_taxes, SGST_RATE. fold CGST_RATE.
        rewrite int_mul_rate_dyadic by lia. reflexivity.
      * apply dyadic_half_exact; lia.
Qed.

(** The same rounding reaches the registry: the tax on 2^53 + 1 teas is
    three and a half rupees off. *)
Example taxes_on_many_teas :
  exists tax,
    Order_.calculate_taxes (50 * (2 ^ 53 + 1)) = Ok (tax, tax) /\
    Float.is_exactly tax (9 * (50 * (2 ^ 53 + 1)) + 350) 100.
Proof. eexists. split; vm_compute; reflexivity. Qed.

Lemma C3_witness :
  exists tax,
    Order_.calculate_taxes 350 = Ok (tax, tax) /\ Float.is_exactly tax 63 2.
Proof.
  destruct C3_taxes_equal_and_exact as (_ & Hexact & _).
  destruct (Hexact 7) as (tax & Htax & Hval); [lia | vm_compute; reflexivity |].
  exists tax. split; [exact Htax |].
  vm_compute in Htax. injection Htax as <-. vm_compute. reflexivity.
Defined.

(** ** Persistence: [save_orders] and [load_orders] *)

Lemma uint_numeric d : all_chars numeric (NilEmpty.string_of_uint d) = true.
Proof. induction d; simpl; try rewrite IHd; reflexivity. Qed.

Lemma str_of_int_numeric z : all_chars numeric (Json.str_of_int z) = true.
Proof.
  unfold Json.str_of_int. destruct z as [| p | p]; simpl; [reflexivity | |].
  - destruct (Pos.to_uint p); try reflexivity; apply uint_numeric.
  - destruct (Pos.to_uint p); try reflexivity; apply uint_numeric.
Qed.

Lemma rstrip_numeric s : all_chars numeric s = true -> Str.rstrip s = s.
Proof.
  induction s as [| c s IH]; simpl; [reflexivity |].
  intros H. apply andb_prop in H as [Hc Hs]. rewrite (IH Hs).
  unfold numeric in Hc. apply andb_prop in Hc as [Hc _].
  destruct s; [| reflexivity].
  destruct (Str.is_space c); [discriminate | reflexivity].
Qed.

Lemma lstrip_numeric s : all_chars numeric s = true -> Str.lstrip s = s.
Proof.
  destruct s as [| c s]; simpl; [reflexivity |].
  intros H. apply andb_prop in H as [Hc Hs].
  unfold numeric in Hc. apply andb_prop in Hc as [Hc _].
  destruct (Str.is_space c); [discriminate | reflexivity].
Qed.

Lemma int_space_is_space c : Int.is_space c = true -> Str.is_space c = true.
Proof.
  destruct c as [[] [] [] [] [] [] [] []]; intros H;
    try discriminate H; reflexivity.
Qed.

Lemma numeric_no_int_space c : numeric c = true -> Int.is_space c = false.
Proof.
  unfold numeric. intros H. apply andb_prop in H as [H _].
  destruct (Int.is_space c) eqn:E; [| reflexivity].
  rewrite (int_space_is_space c E) in H. discriminate.
Qed.

Lemma int_rstrip_numeric s : all_chars numeric s = true -> Int.rstrip s = s.
Proof.
  induction s as [| c s IH]; simpl; [reflexivity |].
  intros H. apply andb_prop in H as [Hc Hs]. rewrite (IH Hs).
  destruct s; [| reflexivity].
  rewrite (numeric_no_int_space c Hc). reflexivity.
Qed.

Lemma int_lstrip_numeric s : all_chars numeric s = true -> Int.lstrip s = s.
Proof.
  destruct s as [| c s]; simpl; [reflexivity |].
  intros H. apply andb_prop in H as [Hc Hs].
  rewrite (numeric_no_int_space c Hc). reflexivity.
Qed.

Lemma int_strip_numeric s : all_chars numeric s = true -> Int.strip s = s.
Proof.
  intros H. unfold Int.strip. rewrite (int_lstrip_numeric s H).
  apply int_rstrip_numeric, H.
Qed.

Lemma uint_digits d : all_chars Int.is_digit (NilEmpty.string_of_uint d) = true.
Proof. induction d; simpl; try rewrite IHd; reflexivity. Qed.

(** A printed integer is a row of digits, after a minus sign when it is
    negative. *)
Lemma str_of_int_shape z :
  exists ds, ds <> EmptyString /\ all_chars Int.is_digit ds = true
    /\ (Json.str_of_int z = ds \/ Json.str_of_int z = String "-" ds).
Proof.
  unfold Json.str_of_int. destruct z as [| p | p]; simpl.
  - exists "0". repeat split; [discriminate | left; reflexivity].
  - exists (NilZero.string_of_uint (Pos.to_uint p)).
    pose proof (Unsigned.to_uint_nonnil p) as Hn.
    destruct (Pos.to_uint p); try congruence;
      (repeat split; [discriminate | apply (uint_digits (_ u)) | left; reflexivity]).
  - exists (NilZero.string_of_uint (Pos.to_uint p)).
    pose proof (Unsigned.to_uint_nonnil p) as Hn.
    destruct (Pos.to_uint p); try congruence;
      (repeat split; [discriminate | apply (uint_digits (_ u)) | right; reflexivity]).
Qed.

Lemma grouped_digits s :
  all_chars Int.is_digit s = true -> Int.grouped true s = true.
Proof.
  induction s as [| c s IH]; simpl; [reflexivity |].
  intros H. apply andb_prop in H as [Hc Hs]. rewrite Hc. exact (IH Hs).
Qed.

Lemma ungroup_digits s :
  all_chars Int.is_digit s = true -> Int.ungroup s = s.
Proof.
  induction s as [| c s IH]; simpl; [reflexivity |].
  intros H. apply andb_prop in H as [Hc Hs]. rewrite (IH Hs).
  destruct (Ascii.eqb_spec c "_") as [-> | Hne]; [discriminate | reflexivity].
Qed.

Lemma digit_no_sign c :
  Int.is_digit c = true -> Ascii.eqb c "-" || Ascii.eqb c "+" = false.
Proof.
  destruct c as [[] [] [] [] [] [] [] []]; intros H;
    try discriminate H; reflexivity.
Qed.

Lemma digit_not_plus c ds :
  Int.is_digit c = true ->
  match String c ds with String "+" b' => b' | _ => String c ds end
  = String c ds.
Proof.
  destruct c as [[] [] [] [] [] [] [] []]; intros H;
    try discriminate H; reflexivity.
Qed.

Lemma parse_str_of_int z :
  NilZero.int_of_string (Json.str_of_int z) = Some (Z.to_int z).
Proof.
  unfold Json.str_of_int. apply NilZero.isi.
  - destruct z; simpl; try discriminate.
    intros [= H]. revert H. apply Unsigned.to_uint_nonnil.
  - destruct z; simpl; try discriminate.
    intros [= H]. revert H. apply Unsigned.to_uint_nonnil.
Qed.

(** [int(str(z)) == z] *)
Lemma int_of_str_of_int z : Json.int_of_str (Json.str_of_int z) = Ok z.
Proof.
  pose proof (str_of_int_numeric z) as Hn.
  unfold Json.int_of_str. cbv zeta.
  rewrite (int_strip_numeric _ Hn).
  pose proof (parse_str_of_int z) as Hi.
  destruct (str_of_int_shape z) as (ds & Hne & Hd & [E | E]); rewrite E in *.
  - destruct ds as [| c ds]; [congruence |].
    assert (Hall := Hd).
    simpl in Hd. apply andb_prop in Hd as [Hc Hd].
    rewrite (digit_no_sign c Hc), (digit_not_plus c ds Hc).
    rewrite (ungroup_digits (String c ds) Hall).
    simpl Int.grouped. rewrite Hc, (grouped_digits ds Hd).
    rewrite Hi, DecimalZ.of_to. reflexivity.
  - simpl orb. cbv iota.
    destruct ds as [| c ds]; [congruence |].
    simpl in Hd. apply andb_prop in Hd as [Hc Hd].
    simpl Int.grouped. rewrite Hc, (grouped_digits ds Hd).
    simpl Int.ungroup. rewrite (ungroup_digits ds Hd).
    destruct (Ascii.eqb_spec c "_") as [-> | _]; [discriminate |].
    rewrite Hi, DecimalZ.of_to. reflexivity.
Qed.

Lemma as_quantities_vars its :
  Json.as_quantities (map (fun kq => (fst kq, JInt (snd kq))) its) = Ok its.
Proof.
  induction its as [| [k q] rest IH]; simpl; [reflexivity |].
  rewrite IH. reflexivity.
Qed.

Lemma numbered_from_S first n :
  numbered_from first (S n)
  = (Z.of_nat first + 1, first) :: numbered_from (S first) n.
Proof. reflexivity. Qed.

Lemma numbered_from_snoc first n :
  numbered_from first (S n)
  = numbered_from first n ++ [(Z.of_nat (first + n) + 1, (first + n)%nat)].
Proof.
  unfold numbered_from. rewrite seq_S, map_app. reflexivity.
Qed.

Lemma dict_get_numbered_from k n : forall first,
  dict_get k (numbered_from first n)
  = if decide (Z.of_nat first + 1 <= k <= Z.of_nat (first + n))
    then Some (Z.to_nat (k - 1)) else None.
Proof.
  induction n as [| n IH]; intros first.
  - simpl. destruct (decide _); [lia | reflexivity].
  - rewrite numbered_from_S. simpl. rewrite IH.
    destruct (decide (k = Z.of_nat first + 1)) as [-> | Hne].
    + destruct (decide _); [| lia]. f_equal. lia.
    + repeat destruct (decide _); try reflexivity; lia.
Qed.

Lemma dict_set_absent {V} (k : Z) (v : V) d :
  dict_get k d = None -> dict_set k v d = d ++ [(k, v)].
Proof.
  induction d as [| [k' v'] rest IH]; simpl; [reflexivity |].
  destruct (decide (k = k')); [discriminate |].
  intros Hg. rewrite (IH Hg). reflexivity.
Qed.

Lemma dict_set_numbered n :
  dict_set (Z.of_nat n + 1) n (numbered n) = numbered (S n).
Proof.
  change (numbered n) with (numbered_from 0 n).
  change (numbered (S n)) with (numbered_from 0 (S n)).
  rewrite dict_set_absent.
  - rewrite numbered_from_snoc. reflexivity.
  - rewrite dict_get_numbered_from. destruct (decide _); [lia | reflexivity].
Qed.

Lemma keys_numbered_from n : forall first,
  dict_keys (numbered_from first n) = seqZ (Z.of_nat first + 1) (Z.of_nat n).
Proof.
  induction n as [| n IH]; intros first; [reflexivity |].
  rewrite numbered_from_S. unfold dict_keys in *. simpl map. rewrite IH.
  rewrite (seqZ_cons (Z.of_nat first + 1)) by lia.
  f_equal. f_equal; lia.
Qed.

Lemma fold_max_seqZ n : forall m,
  0 <= n -> fold_left Z.max (seqZ (m + 1) n) m = m + n.
Proof.
  intros m Hn. revert m. pattern n. apply natlike_ind; [| | exact Hn].
  - intros m. simpl. lia.
  - intros k Hk IH m.
    rewrite (seqZ_cons (m + 1)) by lia. simpl.
    replace (Z.succ (m + 1)) with ((m + 1) + 1) by lia.
    replace (Z.pred (Z.succ k)) with k by lia.
    replace (Z.max m (m + 1)) with (m + 1) by lia.
    rewrite IH. lia.
Qed.

Lemma max_key_numbered n : Cafe.max_key (numbered n) = Z.of_nat n.
Proof.
  unfold Cafe.max_key. change (numbered n) with (numbered_from 0 n).
  rewrite keys_numbered_from. destruct n as [| n]; [reflexivity |].
  rewrite (seqZ_cons (Z.of_nat 0 + 1)) by lia.
  replace (Z.succ (Z.of_nat 0 + 1)) with (1 + 1) by lia.
  replace (Z.of_nat 0 + 1) with 1 by lia.
  rewrite fold_max_seqZ by lia. lia.
Qed.

Lemma dump_from post : forall pre,
  Cafe.dump (pre ++ post) (numbered_from (length pre) (length post))
  = if forallb saves post then Ok (file_from (length pre) post)
    else Raise ValueError.
Proof.
  induction post as [| o rest IH]; intros pre; [reflexivity |].
  cbn [length file_from forallb]. rewrite numbered_from_S. cbn [Cafe.dump].
  rewrite list_lookup_middle by reflexivity.
  fold (saves o). destruct (saves o); [| reflexivity]. cbn [andb].
  specialize (IH (pre ++ [o])).
  rewrite <- app_assoc, length_app in IH. cbn [app length] in IH.
  rewrite Nat.add_1_r in IH. rewrite IH.
  destruct (forallb saves rest); reflexivity.
Qed.

Lemma dump_numbered os :
  Cafe.dump os (numbered (length os))
  = if forallb saves os then Ok (file_from 0 os) else Raise ValueError.
Proof. exact (dump_from os []). Qed.

(** What was saved is the file of the orders, and every order could be
    written. *)
Lemma dump_numbered_inv os data :
  Cafe.dump os (numbered (length os)) = Ok data ->
  forallb saves os = true /\ data = file_from 0 os.
Proof.
  rewrite dump_numbered. destruct (forallb saves os); [| discriminate].
  intros [= <-]. auto.
Qed.

Ltac unfold_m :=
  unfold Cafe.validate_table_number, Cafe.table, Cafe.set_table, Cafe.print,
    Cafe.print_all, Cafe.new, Cafe.assign, Cafe.deref, Cafe.save_orders,
    Cafe.skip, Cafe.gets, Cafe.modify, Cafe.lift,
    mbind, mret, M_bind, M_ret, res_bind, res_ret in *.

Lemma vars_fields o :
  Json.field "table_number" (Json.vars o) = Ok (JInt (table_number o)) /\
  Json.field "items" (Json.vars o)
  = Ok (JObj (map (fun kq => (fst kq, JInt (snd kq))) (items o))) /\
  Json.field "is_active" (Json.vars o) = Ok (JBool (is_active o)) /\
  Json.field "include_packaging" (Json.vars o)
  = Ok (JBool (include_packaging o)) /\
  Json.field "order_time" (Json.vars o) = Ok (JStr (order_time o)).
Proof. repeat split; vm_compute; reflexivity. Qed.

Lemma load_order_vars s r o :
  order_number o = Z.of_nat r + 1 ->
  Cafe.load_order (Json.str_of_int (Z.of_nat r + 1)) (Json.vars o) s
  = Ok (tt,
        mkState (objs s ++ [o])
          (if is_active o
           then <[table_number o := Some (length (objs s))]> (tables s)
           else tables s)
          (dict_set (Z.of_nat r + 1) (length (objs s)) (orders s))
          (next_order_number s) (disk s) (console s)).
Proof.
  intros Hn. unfold Cafe.load_order. rewrite int_of_str_of_int.
  destruct (vars_fields o) as (-> & -> & -> & -> & ->).
  unfold_m. cbn [Json.as_int Json.as_bool Json.as_str Json.as_items].
  rewrite as_quantities_vars. rewrite <- Hn.
  destruct o as [tn n its active packaging time].
  destruct active; reflexivity.
Qed.

Lemma load_loop_file post : forall s,
  orders s = numbered (length (objs s)) ->
  (forall i o, post !! i = Some o ->
     order_number o = Z.of_nat (length (objs s) + i) + 1) ->
  Cafe.load_loop (file_from (length (objs s)) post) s
  = Ok (tt,
        mkState (objs s ++ post)
          (load_tables (tables s) (length (objs s)) post)
          (numbered (length (objs s) + length post))
          (next_order_number s) (disk s) (console s)).
Proof.
  induction post as [| o rest IH]; intros s Hord Hnum.
  - simpl. rewrite app_nil_r, Nat.add_0_r, <- Hord. destruct s; reflexivity.
  - cbn [file_from Cafe.load_loop]. unfold mbind at 1. unfold M_bind.
    rewrite load_order_vars.
    2:{ rewrite (Hnum 0%nat o eq_refl). f_equal. lia. }
    set (s1 := mkState _ _ _ _ _ _).
    assert (Hlen : length (objs s1) = S (length (objs s))).
    { unfold s1. simpl. rewrite length_app. simpl. lia. }
    specialize (IH s1). rewrite Hlen in IH. rewrite IH.
    + unfold s1. simpl. rewrite <- app_assoc. simpl.
      repeat f_equal. lia.
    + unfold s1. simpl. rewrite Hord. apply dict_set_numbered.
    + intros i o' Hi. rewrite (Hnum (S i) o' Hi). f_equal. lia.
Qed.

Lemma free_tables_lookup n t :
  Cafe.free_tables n !! t = if decide (1 <= t <= n) then Some None else None.
Proof.
  unfold Cafe.free_tables.
  assert (Hfst : (map (fun i : Z => (i, @None nat)) (seqZ 1 n)).*1 = seqZ 1 n).
  { induction (seqZ 1 n) as [| x l IH]; simpl; [reflexivity |].
    f_equal. exact IH. }
  destruct (decide (1 <= t <= n)) as [Hin | Hout].
  - apply elem_of_list_to_map_1.
    + rewrite Hfst. apply NoDup_seqZ.
    + apply list_elem_of_In, in_map_iff. exists t. split; [reflexivity |].
      apply list_elem_of_In, elem_of_seqZ. lia.
  - apply not_elem_of_list_to_map_1. rewrite Hfst, elem_of_seqZ. lia.
Qed.

Lemma load_tables_miss post : forall T first t,
  (forall j o, post !! j = Some o -> is_active o = true ->
     table_number o <> t) ->
  load_tables T first post !! t = T !! t.
Proof.
  induction post as [| o rest IH]; intros T first t Hmiss; [reflexivity |].
  cbn [load_tables]. rewrite IH.
  - destruct (is_active o) eqn:Ha; [| reflexivity].
    apply lookup_insert_ne. exact (Hmiss 0%nat o eq_refl Ha).
  - intros j o' Hj. exact (Hmiss (S j) o' Hj).
Qed.

Lemma load_tables_hit post : forall T first i o,
  post !! i = Some o -> is_active o = true ->
  (forall j o', post !! j = Some o' -> is_active o' = true ->
     table_number o' = table_number o -> j = i) ->
  load_tables T first post !! table_number o = Some (Some (first + i)%nat).
Proof.
  induction post as [| o0 rest IH]; intros T first i o Hi Ha Huniq;
    [discriminate |].
  cbn [load_tables]. destruct i as [| i].
  - injection Hi as ->. rewrite Ha, load_tables_miss.
    + rewrite lookup_insert_eq, Nat.add_0_r. reflexivity.
    + intros j o' Hj Ha' Heq.
      specialize (Huniq (S j) o' Hj Ha' Heq). discriminate.
  - rewrite (IH _ (S first) i o Hi Ha).
    + do 2 f_equal. lia.
    + intros j o' Hj Ha' Heq.
      specialize (Huniq (S j) o' Hj Ha' Heq). lia.
Qed.

Lemma wf_unique_active s i j oi oj :
  wf s -> objs s !! i = Some oi -> objs s !! j = Some oj ->
  is_active oi = true -> is_active oj = true ->
  table_number oi = table_number oj -> i = j.
Proof.
  intros Hwf Hi Hj Hai Haj Heq.
  pose proof (ok_active _ _ _ (wf_objs _ Hwf _ _ Hi) Hai) as H1.
  pose proof (ok_active _ _ _ (wf_objs _ Hwf _ _ Hj) Haj) as H2.
  rewrite Heq in H1. congruence.
Qed.

Lemma wf_empty_tables s :
  wf s -> objs s = [] -> tables s = Cafe.free_tables 6.
Proof.
  intros Hwf Hnil. apply map_eq. intros t. rewrite free_tables_lookup.
  destruct (decide (1 <= t <= 6)) as [Hin | Hout].
  - apply (wf_dom _ Hwf) in Hin as [[r |] Hslot]; [| exact Hslot].
    destruct (wf_tables _ Hwf _ _ Hslot) as (o & Ho & _).
    rewrite Hnil in Ho. discriminate.
  - destruct (tables s !! t) eqn:E; [| reflexivity].
    exfalso. apply Hout, (wf_dom _ Hwf). eauto.
Qed.

Lemma wf_load_tables s :
  wf s -> load_tables (Cafe.free_tables 6) 0 (objs s) = tables s.
Proof.
  intros Hwf. apply map_eq. intros t.
  destruct (tables s !! t) as [[r |] |] eqn:E.
  - destruct (wf_tables _ Hwf _ _ E) as (o & Ho & Ha & <-).
    rewrite (load_tables_hit (objs s) _ 0 r o Ho Ha); [reflexivity |].
    intros j o' Hj Ha' Heq. exact (wf_unique_active s j r o' o Hwf Hj Ho Ha' Ha Heq).
  - rewrite load_tables_miss.
    + rewrite free_tables_lookup. destruct (decide _) as [| Hout]; [reflexivity |].
      exfalso. apply Hout, (wf_dom _ Hwf). eauto.
    + intros j o Hj Ha Heq.
      pose proof (ok_active _ _ _ (wf_objs _ Hwf _ _ Hj) Ha) as H1.
      rewrite Heq in H1. congruence.
  - rewrite load_tables_miss.
    + rewrite free_tables_lookup. destruct (decide _) as [Hin |]; [| reflexivity].
      apply (wf_dom _ Hwf) in Hin as [x Hx]. congruence.
    + intros j o Hj Ha Heq.
      pose proof (ok_active _ _ _ (wf_objs _ Hwf _ _ Hj) Ha) as H1.
      rewrite Heq in H1. congruence.
Qed.

(** Loading the file a registry wrote gives the registry back. *)
Lemma init_file_from os T :
  (forall r o, os !! r = Some o -> order_number o = Z.of_nat r + 1) ->
  load_tables (Cafe.free_tables 6) 0 os = T ->
  Cafe.init 6 (Some (file_from 0 os))
  = Ok (mkState os T (numbered (length os)) (Z.of_nat (length os) + 1)
          (Some (file_from 0 os)) []).
Proof.
  intros Hnum HT.
  pose proof (load_loop_file os
    (mkState [] (Cafe.free_tables 6) [] 1 (Some (file_from 0 os)) [])
    eq_refl) as Hloop.
  cbn [objs length Nat.add tables next_order_number disk console app] in Hloop.
  specialize (Hloop Hnum).
  unfold Cafe.init, Cafe.load_orders, Cafe.gets, Cafe.modify.
  unfold mbind, M_bind, res_bind. cbn [disk]. rewrite Hloop.
  cbn. rewrite max_key_numbered, HT. reflexivity.
Qed.

(** In a well-formed registry every order can be written to the file. *)
Lemma wf_saves s : wf s -> forallb saves (objs s) = true.
Proof.
  intros Hwf. pose proof (wf_disk _ Hwf) as Hd.
  destruct (disk s) as [data |].
  - rewrite (wf_orders _ Hwf) in Hd. apply dump_numbered_inv in Hd as [H _].
    exact H.
  - rewrite Hd. reflexivity.
Qed.

Lemma reload s : wf s -> Cafe.init 6 (disk s) = Ok (Cafe.set_console [] s).
Proof.
  intros Hwf. pose proof (wf_disk _ Hwf) as Hd.
  destruct (disk s) as [data |] eqn:E.
  - rewrite (wf_orders _ Hwf) in Hd. apply dump_numbered_inv in Hd as [_ ->].
    rewrite (init_file_from (objs s) (tables s)).
    + unfold Cafe.set_console. rewrite E, <- (wf_orders _ Hwf), <- (wf_next _ Hwf).
      reflexivity.
    + intros r o Ho. exact (ok_number _ _ _ (wf_objs _ Hwf _ _ Ho)).
    + apply wf_load_tables, Hwf.
  - rewrite first_boot. unfold empty_registry, Cafe.set_console.
    rewrite E, (wf_orders _ Hwf), (wf_next _ Hwf), Hd.
    rewrite (wf_empty_tables s Hwf Hd). reflexivity.
Qed.

Lemma relaunch_wf s : wf s -> relaunch s = Ok (tt, s).
Proof.
  intros Hwf. unfold relaunch. rewrite (reload s Hwf). cbn.
  destruct s; reflexivity.
Qed.

(** ** One turn of the packaging prompt *)

Lemma ask_packaging_cons answer rest :
  Cafe.ask_packaging (answer :: rest)
  = if valid_answer answer
    then Ok (bool_decide (Str.lower (Str.strip answer) = "yes"), [])
    else match Cafe.ask_packaging rest with
         | Ok (b, out) => Ok (b, InvalidYesNo :: out)
         | Raise e => Raise e
         end.
Proof.
  unfold valid_answer. cbn [Cafe.ask_packaging].
  destruct (_ || _); [reflexivity |].
  destruct (Cafe.ask_packaging rest) as [[b out] |]; reflexivity.
Qed.

(** The complaints of the prompt can be printed. *)
Lemma ask_packaging_out_ok answers : forall choice out,
  Cafe.ask_packaging answers = Ok (choice, out) -> forallb Msg_ok out = true.
Proof.
  induction answers as [| a rest IH]; intros choice out; [discriminate |].
  rewrite ask_packaging_cons. destruct (valid_answer a).
  - intros [= _ <-]. reflexivity.
  - destruct (Cafe.ask_packaging rest) as [[b out'] |]; [| discriminate].
    intros [= _ <-]. cbn [forallb Msg_ok andb]. exact (IH _ _ eq_refl).
Qed.

(** ** The row loop of [view_order_summary]

    The loop returns exactly when every item is on the menu and every row
    can be formatted, and has then printed the rows of [item_lines]. *)
Lemma print_rows_ok its : forall s rows,
  Order_.item_lines its = Ok rows -> forallb Msg_ok rows = true ->
  Cafe.print_rows its s = Ok (tt, Cafe.set_console (console s ++ rows) s).
Proof.
  induction its as [| [item q] rest IH]; intros s rows.
  - intros [= <-] _. cbn. rewrite app_nil_r. destruct s; reflexivity.
  - cbn [Order_.item_lines Cafe.print_rows].
    unfold mbind at 1 2. unfold res_bind, M_bind, Cafe.lift.
    destruct (dict_index item menu) as [price |]; [| discriminate].
    unfold mbind at 1. unfold res_bind.
    destruct (Order_.item_lines rest) as [ls |] eqn:El; [| discriminate].
    intros [= <-]. cbn [forallb]. intros H. apply andb_prop in H as [Hm Hls].
    unfold mbind, M_bind, Cafe.print. rewrite Hm.
    rewrite (IH _ ls eq_refl Hls). cbn. rewrite <- app_assoc. reflexivity.
Qed.

Lemma print_rows_inv its : forall s s',
  Cafe.print_rows its s = Ok (tt, s') ->
  exists rows,
    Order_.item_lines its = Ok rows /\ forallb Msg_ok rows = true /\
    s' = Cafe.set_console (console s ++ rows) s.
Proof.
  induction its as [| [item q] rest IH]; intros s s'.
  - intros [= <-]. exists []. cbn. rewrite app_nil_r.
    destruct s; repeat split; reflexivity.
  - cbn [Order_.item_lines Cafe.print_rows].
    unfold mbind at 1 2. unfold M_bind, Cafe.lift.
    destruct (dict_index item menu) as [price |]; [| discriminate].
    unfold mbind at 1. unfold M_bind, Cafe.print.
    destruct (Msg_ok _) eqn:Hm; [| discriminate].
    intros H. apply IH in H as (rows & Hrows & Hok & ->).
    unfold mbind, res_bind. rewrite Hrows.
    eexists. split; [reflexivity |]. cbn [forallb]. rewrite Hm, Hok.
    split; [reflexivity |]. cbn. rewrite <- app_assoc. reflexivity.
Qed.


(** ** The registry operations, case by case *)

Arguments Order_.close_order : simpl never.
Arguments Order_.add_items : simpl never.
Arguments Order_.calculate_subtotal : simpl never.
Arguments Order_.calculate_taxes : simpl never.
Arguments Order_.calculate_total : simpl never.
Arguments Order_.total_of : simpl never.
Arguments Order_.item_lines : simpl never.
Arguments Cafe.dump : simpl never.
Arguments Cafe.ask_packaging : simpl never.
Arguments Cafe.completed_lines : simpl never.

Lemma valid_table_spec t :
  (t <? 1) || (t >? 6) = false <-> 1 <= t <= 6.
Proof.
  rewrite orb_false_iff, Z.ltb_ge, Z.gtb_ltb, Z.ltb_ge. lia.
Qed.

Lemma validate_table_number_ok t s :
  1 <= t <= 6 -> Cafe.validate_table_number t s = Ok (true, s).
Proof.
  intros Ht. apply valid_table_spec in Ht.
  unfold Cafe.validate_table_number. rewrite Ht. reflexivity.
Qed.

Lemma validate_table_number_bad t s :
  ~ (1 <= t <= 6) ->
  Cafe.validate_table_number t s
  = Ok (false, Cafe.set_console (console s ++ [InvalidTable]) s).
Proof.
  intros Ht. unfold Cafe.validate_table_number.
  destruct ((t <? 1) || (t >? 6)) eqn:E; [reflexivity |].
  apply valid_table_spec in E. contradiction.
Qed.

Lemma open_order_cases s t now s' :
  Cafe.open_order t now s = Ok (tt, s') ->
  (~ (1 <= t <= 6) /\ s' = Cafe.set_console (console s ++ [InvalidTable]) s) \/
  (1 <= t <= 6 /\ (exists r, tables s !! t = Some (Some r)) /\
     s' = Cafe.set_console (console s ++ [AlreadyActive t]) s) \/
  (1 <= t <= 6 /\ tables s !! t = Some None /\
     exists data,
       Cafe.dump (objs s ++ [Order_.init t (next_order_number s) now])
         (dict_set (next_order_number s) (length (objs s)) (orders s))
       = Ok data /\
       s' = mkState (objs s ++ [Order_.init t (next_order_number s) now])
              (<[t := Some (length (objs s))]> (tables s))
              (dict_set (next_order_number s) (length (objs s)) (orders s))
              (next_order_number s + 1)
              (Some data)
              (console s ++ [Opened t (next_order_number s)])).
Proof.
  unfold Cafe.open_order. unfold mbind at 1. unfold M_bind.
  destruct (decide (1 <= t <= 6)) as [Ht | Ht].
  - rewrite (validate_table_number_ok t s Ht). cbn [negb]. unfold_m.
    destruct (tables s !! t) as [[r |] |] eqn:Et; cbn.
    + intros [= <-]. right. left. eauto.
    + destruct (Cafe.dump _ _) as [data |] eqn:Ed; cbn; [| discriminate].
      intros [= <-]. right. right. repeat split; try lia.
      exists data. split; reflexivity.
    + discriminate.
  - rewrite (validate_table_number_bad t s Ht). cbn [negb]. unfold_m.
    intros [= <-]. left. split; [exact Ht | reflexivity].
Qed.

Lemma add_items_to_order_cases s t requested s' :
  Cafe.add_items_to_order t requested s = Ok (tt, s') ->
  (~ (1 <= t <= 6) /\ s' = Cafe.set_console (console s ++ [InvalidTable]) s) \/
  (1 <= t <= 6 /\
     (tables s !! t = Some None \/
      exists r o, tables s !! t = Some (Some r) /\ objs s !! r = Some o /\
                  is_active o = false) /\
     s' = Cafe.set_console (console s ++ [NoActiveToAdd t]) s) \/
  (1 <= t <= 6 /\
     exists r o data,
       tables s !! t = Some (Some r) /\ objs s !! r = Some o /\
       is_active o = true /\
       Cafe.dump (<[r := fst (Order_.add_items o requested)]> (objs s))
         (orders s) = Ok data /\
       s' = mkState (<[r := fst (Order_.add_items o requested)]> (objs s))
              (tables s) (orders s) (next_order_number s) (Some data)
              (console s ++ snd (Order_.add_items o requested))).
Proof.
  unfold Cafe.add_items_to_order. unfold mbind at 1. unfold M_bind.
  destruct (decide (1 <= t <= 6)) as [Ht | Ht].
  - rewrite (validate_table_number_ok t s Ht). cbn [negb]. unfold_m.
    destruct (tables s !! t) as [[r |] |] eqn:Et; cbn.
    + destruct (objs s !! r) as [o |] eqn:Eo; cbn; [| discriminate].
      destruct (is_active o) eqn:Ea.
      * destruct (Order_.add_items o requested) as [o' out] eqn:Eadd. cbn.
        destruct (forallb Msg_ok out); cbn; [| discriminate].
        destruct (Cafe.dump _ _) as [data |] eqn:Ed; cbn; [| discriminate].
        intros [= <-]. right. right. split; [exact Ht |].
        exists r, o, data. rewrite Eadd. cbn [fst snd]. repeat split; auto.
      * intros [= <-]. right. left. split; [exact Ht |]. split; [| reflexivity].
        right. exists r, o. auto.
    + intros [= <-]. right. left. split; [exact Ht |]. split; [| reflexivity].
      left. reflexivity.
    + discriminate.
  - rewrite (validate_table_number_bad t s Ht). cbn [negb]. unfold_m.
    intros [= <-]. left. split; [exact Ht | reflexivity].
Qed.

Lemma close_order_cases s t answers now s' :
  Cafe.close_order t answers now s = Ok (tt, s') ->
  (~ (1 <= t <= 6) /\ s' = Cafe.set_console (console s ++ [InvalidTable]) s) \/
  (1 <= t <= 6 /\
     (tables s !! t = Some None \/
      exists r o, tables s !! t = Some (Some r) /\ objs s !! r = Some o /\
                  is_active o = false) /\
     s' = Cafe.set_console (console s ++ [NoActiveToClose t]) s) \/
  (1 <= t <= 6 /\
     exists r o choice out o' report data,
       tables s !! t = Some (Some r) /\ objs s !! r = Some o /\
       is_active o = true /\
       Cafe.ask_packaging answers = Ok (choice, out) /\
       Order_.close_order (Order_.with_include_packaging o choice) now
       = Ok (o', report) /\
       forallb Msg_ok report = true /\
       Cafe.dump (<[r := o']> (objs s)) (orders s) = Ok data /\
       s' = mkState (<[r := o']> (objs s)) (<[t := None]> (tables s))
              (orders s) (next_order_number s) (Some data)
              ((console s ++ out) ++ report)).
Proof.
  unfold Cafe.close_order. unfold mbind at 1. unfold M_bind.
  destruct (decide (1 <= t <= 6)) as [Ht | Ht].
  - rewrite (validate_table_number_ok t s Ht). cbn [negb]. unfold_m.
    destruct (tables s !! t) as [[r |] |] eqn:Et; cbn.
    + destruct (objs s !! r) as [o |] eqn:Eo; cbn; [| discriminate].
      destruct (is_active o) eqn:Ea.
      * destruct (Cafe.ask_packaging answers) as [[choice out] |] eqn:Eask;
          cbn; [| discriminate].
        destruct (forallb Msg_ok out); cbn; [| discriminate].
        destruct (Order_.close_order (Order_.with_include_packaging o choice) now)
          as [[o' report] |] eqn:Ecl;
          cbn; [| discriminate].
        destruct (forallb Msg_ok report) eqn:Epr; cbn; [| discriminate].
        destruct (Cafe.dump _ _) as [data |] eqn:Ed; cbn; [| discriminate].
        intros [= <-]. right. right. split; [exact Ht |].
        exists r, o, choice, out, o', report, data. repeat split; auto.
      * intros [= <-]. right. left. split; [exact Ht |]. split; [| reflexivity].
        right. exists r, o. auto.
    + intros [= <-]. right. left. split; [exact Ht |]. split; [| reflexivity].
      left. reflexivity.
    + discriminate.
  - rewrite (validate_table_number_bad t s Ht). cbn [negb]. unfold_m.
    intros [= <-]. left. split; [exact Ht | reflexivity].
Qed.

Lemma view_past_orders_cases s s' :
  Cafe.view_past_orders s = Ok (tt, s') ->
  exists ls, Cafe.completed_lines (objs s) (orders s) = Ok ls /\
    s' = Cafe.set_console ((console s ++ [CompletedHeader]) ++ ls) s.
Proof.
  unfold Cafe.view_past_orders. unfold_m. cbn.
  destruct (Cafe.completed_lines _ _) as [ls |]; cbn; [| discriminate].
  destruct (forallb Msg_ok ls); [| discriminate].
  intros [= <-]. exists ls. split; reflexivity.
Qed.

(** The lines [view_order_summary] prints for a closed order. *)
Lemma view_order_summary_cases s n s' :
  Cafe.view_order_summary n s = Ok (tt, s') ->
  (dict_get n (orders s) = None /\
     s' = Cafe.set_console (console s ++ [NotFound n]) s) \/
  (exists r o, dict_get n (orders s) = Some r /\ objs s !! r = Some o /\
     is_active o = true /\
     s' = Cafe.set_console (console s ++ [StillActive n]) s) \/
  (exists r o rows subtotal cgst sgst total,
     dict_get n (orders s) = Some r /\ objs s !! r = Some o /\
     is_active o = false /\
     Order_.item_lines (items o) = Ok rows /\
     Order_.calculate_subtotal o = Ok subtotal /\
     Order_.calculate_taxes subtotal = Ok (cgst, sgst) /\
     Order_.total_of subtotal cgst sgst (include_packaging o) = Ok total /\
     s' = Cafe.set_console
            (console s ++
             [SummaryForOrder n; TableLine (table_number o);
              DateTimeLine (order_time o); HeaderLine; RuleLine]
             ++ rows
             ++ (if include_packaging o then [PackagingLine PACKAGING_COST]
                 else [])
             ++ [RuleLine; SubtotalLine subtotal; CgstLine cgst;
                 SgstLine sgst; NetTotalLine total]) s).
Proof.
  unfold Cafe.view_order_summary.
  unfold mbind at 1. unfold M_bind, Cafe.gets.
  destruct (dict_get n (orders s)) as [r |] eqn:Eg.
  - unfold mbind at 1. unfold M_bind, Cafe.deref.
    destruct (objs s !! r) as [o |] eqn:Eo; [| discriminate].
    destruct (is_active o) eqn:Ea; cbn [negb].
    + unfold Cafe.print. cbn. intros [= <-]. right. left. exists r, o. auto.
    + unfold mbind at 1. unfold M_bind, Cafe.print_all. cbn [forallb Msg_ok andb].
      unfold mbind at 1. unfold M_bind.
      destruct (Cafe.print_rows (items o) _) as [[[] s1] |] eqn:Er;
        [| discriminate].
      apply print_rows_inv in Er as (rows & Hrows & _ & ->).
      unfold mbind at 1. unfold M_bind, Cafe.lift.
      destruct (Order_.calculate_subtotal o) as [subtotal |] eqn:Es;
        [| discriminate].
      unfold mbind at 1. unfold M_bind.
      destruct (Order_.calculate_taxes subtotal) as [[cgst sgst] |] eqn:Et;
        [| discriminate].
      unfold mbind at 1. unfold M_bind.
      destruct (Order_.total_of subtotal cgst sgst (include_packaging o))
        as [total |] eqn:Etot; [| discriminate].
      unfold mbind, M_bind, Cafe.print, Cafe.skip, mret, M_ret.
      intros H. right. right.
      exists r, o, rows, subtotal, cgst, sgst, total.
      do 7 (split; [assumption || reflexivity |]).
      destruct (include_packaging o); cbn in H;
        (destruct (Int.fits subtotal); [| discriminate]);
        injection H as <-; unfold Cafe.set_console; cbn;
        rewrite <- !app_assoc; reflexivity.
  - unfold Cafe.print. cbn. intros [= <-]. left. split; reflexivity.
Qed.

(** The summary of a closed order whose bill can be computed and
    printed. *)
Lemma view_order_summary_closed s n r o rows subtotal cgst sgst total :
  dict_get n (orders s) = Some r -> objs s !! r = Some o ->
  is_active o = false ->
  Order_.item_lines (items o) = Ok rows -> forallb Msg_ok rows = true ->
  Order_.calculate_subtotal o = Ok subtotal ->
  Order_.calculate_taxes subtotal = Ok (cgst, sgst) ->
  Order_.total_of subtotal cgst sgst (include_packaging o) = Ok total ->
  Cafe.view_order_summary n s
  = Ok (tt, Cafe.set_console
              (console s ++ summary_lines n o rows subtotal cgst sgst total) s).
Proof.
  intros Eg Eo Ea Hrows Hpr Hs Ht Htot.
  assert (Hfit : Int.fits subtotal = true).
  { rewrite calculate_taxes_eq in Ht.
    destruct (Float.of_int subtotal) as [x |] eqn:Ex; [| discriminate].
    exact (of_int_fits _ _ Ex). }
  unfold Cafe.view_order_summary.
  unfold mbind at 1. unfold M_bind, Cafe.gets. rewrite Eg.
  unfold mbind at 1. unfold M_bind, Cafe.deref. rewrite Eo, Ea. cbn [negb].
  unfold mbind at 1. unfold M_bind, Cafe.print_all. cbn [forallb Msg_ok andb].
  unfold mbind at 1. unfold M_bind.
  rewrite (print_rows_ok _ _ rows Hrows Hpr).
  unfold mbind at 1. unfold M_bind, Cafe.lift. rewrite Hs.
  unfold mbind at 1. unfold M_bind. rewrite Ht.
  unfold mbind at 1. unfold M_bind. rewrite Htot.
  unfold mbind, M_bind, Cafe.print, Cafe.skip, mret, M_ret, summary_lines.
  assert (Hpk : Int.fits PACKAGING_COST = true) by (vm_compute; reflexivity).
  destruct (include_packaging o); cbn; rewrite ?Hpk, Hfit; cbn;
    unfold Cafe.set_console; cbn; repeat rewrite <- app_assoc; cbn;
    reflexivity.
Qed.

(** ** The invariant is kept by every operation *)

Lemma wf_set_console s c : wf s -> wf (Cafe.set_console c s).
Proof.
  intros [H1 H2 H3 H4 H5 H6]. split; try assumption.
  intros r o Ho. destruct (H3 r o Ho). split; assumption.
Qed.

Lemma wf_empty_registry : wf empty_registry.
Proof.
  split; try reflexivity.
  - intros r o Ho. destruct r; discriminate.
  - intros t. cbn [tables empty_registry]. rewrite free_tables_lookup.
    destruct (decide (1 <= t <= 6)); split; intros H; eauto; try lia.
    destruct H as [? [=]].
  - intros t r. cbn [tables empty_registry]. rewrite free_tables_lookup.
    destruct (decide (1 <= t <= 6)); discriminate.
Qed.

Lemma close_order_inv o now o' report :
  Order_.close_order o now = Ok (o', report) ->
  o' = Order_.with_is_active o false /\
  (forallb Msg_ok report = true -> billable o').
Proof.
  unfold Order_.close_order, Order_.calculate_subtotal.
  cbn [items include_packaging Order_.with_is_active].
  destruct (Order_.subtotal_of (items o)) as [subtotal |] eqn:Es; cbn;
    [| discriminate].
  destruct (Order_.calculate_taxes subtotal) as [[cgst sgst] |] eqn:Et; cbn;
    [| discriminate].
  destruct (Order_.total_of subtotal cgst sgst (include_packaging o))
    as [total |] eqn:Etot; cbn; [| discriminate].
  destruct (Order_.item_lines (items o)) as [rows |] eqn:Er; cbn;
    [| discriminate].
  intros [= <- <-]. split; [reflexivity |]. intros Hpr.
  exists total, cgst, sgst, rows.
  unfold Order_.calculate_total, Order_.calculate_subtotal.
  cbn [items include_packaging Order_.with_is_active].
  rewrite Es. cbn. rewrite Et. cbn. rewrite Etot. cbn. rewrite Er.
  split; [reflexivity |]. split; [reflexivity |].
  cbn [forallb Msg_ok andb] in Hpr. rewrite forallb_app in Hpr.
  apply andb_prop in Hpr as [Hpr _]. exact Hpr.
Qed.

Lemma wf_open s t now data c :
  wf s -> 1 <= t <= 6 -> tables s !! t = Some None ->
  Cafe.dump (objs s ++ [Order_.init t (next_order_number s) now])
    (dict_set (next_order_number s) (length (objs s)) (orders s)) = Ok data ->
  wf (mkState (objs s ++ [Order_.init t (next_order_number s) now])
        (<[t := Some (length (objs s))]> (tables s))
        (dict_set (next_order_number s) (length (objs s)) (orders s))
        (next_order_number s + 1) (Some data) c).
Proof.
  intros Hwf Ht Hfree Hdump.
  assert (Hlen : length (objs s ++ [Order_.init t (next_order_number s) now])
                 = S (length (objs s))).
  { rewrite length_app. simpl. lia. }
  split; cbn [objs tables orders next_order_number disk].
  - rewrite Hlen, (wf_orders _ Hwf), (wf_next _ Hwf). apply dict_set_numbered.
  - rewrite Hlen, (wf_next _ Hwf). lia.
  - intros r o Ho. destruct (decide (r < length (objs s))%nat) as [Hlt | Hge].
    + rewrite lookup_app_l in Ho by exact Hlt.
      destruct (wf_objs _ Hwf _ _ Ho) as [A B C D E].
      split; try assumption. intros Ha. cbn [tables].
      rewrite lookup_insert_ne; [exact (D Ha) |].
      intros Heq. specialize (D Ha). rewrite <- Heq in D. congruence.
    + rewrite lookup_app_r in Ho by lia.
      destruct (r - length (objs s))%nat as [| k] eqn:Ek; [| destruct k; discriminate].
      injection Ho as <-. assert (r = length (objs s)) as -> by lia.
      split; cbn [Order_.init order_number table_number items is_active tables].
      * apply (wf_next _ Hwf).
      * exact Ht.
      * constructor.
      * intros _. apply lookup_insert_eq.
      * discriminate.
  - intros t'. destruct (decide (t = t')) as [<- | Hne].
    + rewrite lookup_insert_eq. split; eauto.
    + rewrite lookup_insert_ne by exact Hne. apply (wf_dom _ Hwf).
  - intros t' r. destruct (decide (t = t')) as [<- | Hne].
    + rewrite lookup_insert_eq. intros [= <-].
      exists (Order_.init t (next_order_number s) now).
      rewrite list_lookup_middle by reflexivity. auto.
    + rewrite lookup_insert_ne by exact Hne. intros Hslot.
      destruct (wf_tables _ Hwf _ _ Hslot) as (o & Ho & Ha & Htn).
      exists o. rewrite lookup_app_l by (eapply lookup_lt_Some; eauto). auto.
  - exact Hdump.
Qed.

(** Replacing the items of an open order, as [add_items] does. *)
Lemma wf_assign s r o o' data c :
  wf s -> objs s !! r = Some o ->
  order_number o' = order_number o -> table_number o' = table_number o ->
  is_active o' = is_active o -> is_active o = true ->
  keys_on_menu (items o') ->
  Cafe.dump (<[r := o']> (objs s)) (orders s) = Ok data ->
  wf (mkState (<[r := o']> (objs s)) (tables s) (orders s)
        (next_order_number s) (Some data) c).
Proof.
  intros Hwf Ho Hn Ht Ha Hact Hk Hdump.
  pose proof (lookup_lt_Some _ _ _ Ho) as Hlt.
  split; cbn [objs tables orders next_order_number disk].
  - rewrite length_insert. apply (wf_orders _ Hwf).
  - rewrite length_insert. apply (wf_next _ Hwf).
  - intros r' o1 Ho1. destruct (decide (r = r')) as [<- | Hne].
    + rewrite list_lookup_insert_eq in Ho1 by exact Hlt. injection Ho1 as <-.
      destruct (wf_objs _ Hwf _ _ Ho) as [A B C D E].
      split; cbn [tables]; rewrite ?Hn, ?Ht, ?Ha; try assumption.
      rewrite Hact. discriminate.
    + rewrite list_lookup_insert_ne in Ho1 by exact Hne.
      destruct (wf_objs _ Hwf _ _ Ho1). split; assumption.
  - apply (wf_dom _ Hwf).
  - intros t' r' Hslot.
    destruct (wf_tables _ Hwf _ _ Hslot) as (o1 & Ho1 & Ha1 & Htn).
    destruct (decide (r = r')) as [<- | Hne].
    + exists o'. rewrite list_lookup_insert_eq by exact Hlt.
      assert (o1 = o) as -> by congruence.
      rewrite Ha, Ht. auto.
    + exists o1. rewrite list_lookup_insert_ne by exact Hne. auto.
  - exact Hdump.
Qed.

(** Closing the order of table [t]. *)
Lemma wf_close s t r o o' data c :
  wf s -> tables s !! t = Some (Some r) -> objs s !! r = Some o ->
  order_number o' = order_number o -> table_number o' = table_number o ->
  is_active o' = false -> items o' = items o -> billable o' ->
  Cafe.dump (<[r := o']> (objs s)) (orders s) = Ok data ->
  wf (mkState (<[r := o']> (objs s)) (<[t := None]> (tables s)) (orders s)
        (next_order_number s) (Some data) c).
Proof.
  intros Hwf Hslot Ho Hn Ht Ha Hits Hbill Hdump.
  pose proof (lookup_lt_Some _ _ _ Ho) as Hlt.
  split; cbn [objs tables orders next_order_number disk].
  - rewrite length_insert. apply (wf_orders _ Hwf).
  - rewrite length_insert. apply (wf_next _ Hwf).
  - intros r' o1 Ho1. destruct (decide (r = r')) as [<- | Hne].
    + rewrite list_lookup_insert_eq in Ho1 by exact Hlt. injection Ho1 as <-.
      destruct (wf_objs _ Hwf _ _ Ho) as [A B C D E].
      split; cbn [tables]; rewrite ?Hn, ?Ht, ?Hits; try assumption.
      * rewrite Ha. discriminate.
      * intros _. exact Hbill.
    + rewrite list_lookup_insert_ne in Ho1 by exact Hne.
      destruct (wf_objs _ Hwf _ _ Ho1) as [A B C D E].
      split; cbn [tables]; try assumption.
      intros Ha1. specialize (D Ha1).
      rewrite lookup_insert_ne; [exact D |].
      intros Heq. rewrite <- Heq in D. congruence.
  - intros t'. destruct (decide (t = t')) as [<- | Hne].
    + rewrite lookup_insert_eq. split; [intros _ | eauto].
      apply (wf_dom _ Hwf). eauto.
    + rewrite lookup_insert_ne by exact Hne. apply (wf_dom _ Hwf).
  - intros t' r'. destruct (decide (t = t')) as [<- | Hne].
    + rewrite lookup_insert_eq. discriminate.
    + rewrite lookup_insert_ne by exact Hne. intros Hslot'.
      destruct (wf_tables _ Hwf _ _ Hslot') as (o1 & Ho1 & Ha1 & Htn).
      destruct (decide (r = r')) as [<- | Hner].
      * exfalso. destruct (wf_tables _ Hwf _ _ Hslot) as (o2 & Ho2 & _ & Htn2).
        congruence.
      * exists o1. rewrite list_lookup_insert_ne by exact Hner. auto.
  - exact Hdump.
Qed.

Lemma add_items_fields o requested :
  let o' := fst (Order_.add_items o requested) in
  order_number o' = order_number o /\ table_number o' = table_number o /\
  is_active o' = is_active o /\ include_packaging o' = include_packaging o /\
  order_time o' = order_time o.
Proof.
  unfold Order_.add_items.
  destruct (Order_.add_items_loop (items o) requested). cbn. auto.
Qed.

Lemma step_wf op s s' : wf s -> step op s = Ok (tt, s') -> wf s'.
Proof.
  intros Hwf. destruct op as [t now | t requested | t answers now | | n |];
    cbn [step]; intros Hstep.
  - apply open_order_cases in Hstep
      as [(_ & ->) | [(_ & _ & ->) | (Ht & Hfree & data & Hd & ->)]];
      try (apply wf_set_console, Hwf).
    apply wf_open; assumption.
  - apply add_items_to_order_cases in Hstep
      as [(_ & ->) | [(_ & _ & ->) |
            (Ht & r & o & data & Hslot & Ho & Ha & Hd & ->)]];
      try (apply wf_set_console, Hwf).
    destruct (add_items_fields o requested) as (Hn & Htn & Hact & _ & _).
    eapply wf_assign; eauto.
    rewrite add_items_fst. apply add_items_loop_keys.
    exact (ok_keys _ _ _ (wf_objs _ Hwf _ _ Ho)).
  - apply close_order_cases in Hstep
      as [(_ & ->) | [(_ & _ & ->) |
            (Ht & r & o & choice & out & o' & report & data & Hslot & Ho & Ha
               & Hask & Hcl & Hpr & Hd & ->)]];
      try (apply wf_set_console, Hwf).
    apply close_order_inv in Hcl as [-> Hbill].
    eapply wf_close; eauto.
  - apply view_past_orders_cases in Hstep as (ls & _ & ->).
    apply wf_set_console, Hwf.
  - apply view_order_summary_cases in Hstep
      as [(_ & ->) | [(r & o & _ & _ & _ & ->) |
            (r & o & rows & subtotal & cgst & sgst & total & _ & _ & _ & _ & _
               & _ & _ & ->)]];
      apply wf_set_console, Hwf.
  - rewrite (relaunch_wf s Hwf) in Hstep. injection Hstep as <-. exact Hwf.
Qed.

Lemma run_invariant (P : State -> Prop) :
  (forall op s s', P s -> step op s = Ok (tt, s') -> P s') ->
  forall ops s s', P s -> run ops s = Ok s' -> P s'.
Proof.
  intros Hstep. induction ops as [| op rest IH]; intros s s' HP; cbn [run].
  - intros [= <-]. exact HP.
  - destruct (step op s) as [[[] s1] |] eqn:E; [| discriminate].
    apply IH. exact (Hstep op s s1 HP E).
Qed.

Lemma run_wf ops s s' : wf s -> run ops s = Ok s' -> wf s'.
Proof. apply run_invariant. intros op s0 s1. apply step_wf. Qed.

Lemma reachable_wf s : reachable s -> wf s.
Proof. intros [ops Hrun]. exact (run_wf ops _ _ wf_empty_registry Hrun). Qed.

Lemma run_app ops1 ops2 s :
  run (ops1 ++ ops2) s
  = match run ops1 s with Ok s1 => run ops2 s1 | Raise e => Raise e end.
Proof.
  revert s. induction ops1 as [| op rest IH]; intros s; cbn [run app];
    [reflexivity |].
  destruct (step op s) as [[[] s1] |]; [apply IH | reflexivity].
Qed.

(** ** Consequences for the registry *)



Lemma wf_keys s :
  wf s -> dict_keys (orders s) = seqZ 1 (next_order_number s - 1).
Proof.
  intros Hwf. rewrite (wf_orders _ Hwf), (wf_next _ Hwf).
  change (numbered (length (objs s))) with (numbered_from 0 (length (objs s))).
  rewrite keys_numbered_from. f_equal; lia.
Qed.

(** Opening a free table cannot fail in a well-formed registry. *)
Lemma open_order_free s t now :
  wf s -> 1 <= t <= 6 -> tables s !! t = Some None ->
  Cafe.open_order t now s
  = Ok (tt,
        mkState (objs s ++ [Order_.init t (next_order_number s) now])
          (<[t := Some (length (objs s))]> (tables s))
          (dict_set (next_order_number s) (length (objs s)) (orders s))
          (next_order_number s + 1)
          (Some (file_from 0
                   (objs s ++ [Order_.init t (next_order_number s) now])))
          (console s ++ [Opened t (next_order_number s)])).
Proof.
  intros Hwf Ht Hfree.
  unfold Cafe.open_order. unfold mbind at 1. unfold M_bind.
  rewrite (validate_table_number_ok t s Ht). cbn [negb]. unfold_m.
  rewrite Hfree. cbn.
  assert (Hd : Cafe.dump (objs s ++ [Order_.init t (next_order_number s) now])
                 (dict_set (next_order_number s) (length (objs s)) (orders s))
               = Ok (file_from 0
                       (objs s ++ [Order_.init t (next_order_number s) now]))).
  { rewrite (wf_orders _ Hwf), (wf_next _ Hwf), dict_set_numbered.
    replace (S (length (objs s)))
      with (length (objs s ++ [Order_.init t (Z.of_nat (length (objs s)) + 1) now]))
      by (rewrite length_app; simpl; lia).
    rewrite dump_numbered, forallb_app, (wf_saves s Hwf). reflexivity. }
  rewrite Hd. reflexivity.
Qed.

(** What one operation does to the order numbers. *)
Lemma step_effect op s s' :
  wf s -> step op s = Ok (tt, s') ->
  (objs s' = objs s \/
   exists r o o', objs s !! r = Some o /\ is_active o = true /\
                  objs s' = <[r := o']> (objs s)) /\
  orders s' = orders s /\ next_order_number s' = next_order_number s
  \/
  exists t now, op = OpenOrder t now /\ 1 <= t <= 6 /\
    tables s !! t = Some None /\
    objs s' = objs s ++ [Order_.init t (next_order_number s) now] /\
    orders s' = orders s ++ [(next_order_number s, length (objs s))] /\
    next_order_number s' = next_order_number s + 1.
Proof.
  intros Hwf. destruct op as [t now | t requested | t answers now | | n |];
    cbn [step]; intros Hstep.
  - apply open_order_cases in Hstep
      as [(_ & ->) | [(_ & _ & ->) | (Ht & Hfree & data & Hd & ->)]];
      [left; cbn; auto .. |].
    right. exists t, now. cbn. repeat split; try assumption; try lia.
    apply dict_set_absent. rewrite (wf_orders _ Hwf), (wf_next _ Hwf).
    change (numbered (length (objs s))) with (numbered_from 0 (length (objs s))).
    rewrite dict_get_numbered_from. destruct (decide _); [lia | reflexivity].
  - apply add_items_to_order_cases in Hstep
      as [(_ & ->) | [(_ & _ & ->) |
            (Ht & r & o & data & Hslot & Ho & Ha & Hd & ->)]];
      left; cbn; eauto 10.
  - apply close_order_cases in Hstep
      as [(_ & ->) | [(_ & _ & ->) |
            (Ht & r & o & choice & out & o' & report & data & Hslot & Ho & Ha
               & Hask & Hcl & Hpr & Hd & ->)]];
      left; cbn; eauto 10.
  - apply view_past_orders_cases in Hstep as (ls & _ & ->). left. cbn. auto.
  - apply view_order_summary_cases in Hstep
      as [(_ & ->) | [(r & o & _ & _ & _ & ->) |
            (r & o & rows & subtotal & cgst & sgst & total & _ & _ & _ & _ & _
               & _ & _ & ->)]];
      left; cbn; auto.
  - rewrite (relaunch_wf s Hwf) in Hstep. injection Hstep as <-. left. auto.
Qed.

(** A closed order is never written again. *)
Lemma step_frozen op s s' r o :
  wf s -> objs s !! r = Some o -> is_active o = false ->
  step op s = Ok (tt, s') -> objs s' !! r = Some o.
Proof.
  intros Hwf Ho Ha Hstep.
  destruct (step_effect op s s' Hwf Hstep)
    as [([-> | (r' & o1 & o1' & Ho1 & Ha1 & ->)] & _ & _) |
        (t & now & _ & _ & _ & -> & _ & _)].
  - exact Ho.
  - rewrite list_lookup_insert_ne; [exact Ho |].
    intros ->. congruence.
  - rewrite lookup_app_l; [exact Ho |]. eapply lookup_lt_Some; eauto.
Qed.

Lemma run_frozen ops : forall s s' r o,
  wf s -> objs s !! r = Some o -> is_active o = false ->
  run ops s = Ok s' -> objs s' !! r = Some o.
Proof.
  induction ops as [| op rest IH]; intros s s' r o Hwf Ho Ha; cbn [run].
  - intros [= <-]. exact Ho.
  - destruct (step op s) as [[[] s1] |] eqn:E; [| discriminate].
    apply IH; [exact (step_wf _ _ _ Hwf E) | | exact Ha].
    exact (step_frozen _ _ _ _ _ Hwf Ho Ha E).
Qed.

(** C6: opening a table that holds an order only prints that the table
    already has an active order: no order is created, the counter, the
    orders and tables maps, every order object and the file stay as
    they were. *)
Theorem C6_open_on_occupied_table (s : State) (t : Z) (now : string) (r : nat) :
  1 <= t <= 6 -> tables s !! t = Some (Some r) ->
  exists s',
    Cafe.open_order t now s = Ok (tt, s') /\
    console s' = console s ++ [AlreadyActive t] /\
    next_order_number s' = next_order_number s /\
    orders s' = orders s /\ tables s' = tables s /\ objs s' = objs s /\
    disk s' = disk s.
Proof.
  intros Ht Hslot.
  exists (Cafe.set_console (console s ++ [AlreadyActive t]) s).
  split; [| cbn; auto 10].
  unfold Cafe.open_order. unfold mbind at 1. unfold M_bind.
  rewrite (validate_table_number_ok t s Ht). cbn [negb]. unfold_m.
  rewrite Hslot. reflexivity.
Qed.

Lemma table2_open_reachable :
  run [OpenOrder 2 "2024-01-01 10:00:00"] empty_registry = Ok table2_open.
Proof. vm_compute. reflexivity. Qed.

Lemma C6_witness :
  exists s',
    Cafe.open_order 2 "2024-01-01 10:05:00" table2_open = Ok (tt, s') /\
    next_order_number s' = 2 /\ orders s' = [(1, 0%nat)].
Proof.
  destruct (C6_open_on_occupied_table table2_open 2 "2024-01-01 10:05:00" 0)
    as (s' & Hopen & _ & Hn & Ho & _).
  - lia.
  - reflexivity.
  - exists s'. rewrite Hn, Ho. repeat split. exact Hopen.
Defined.

Lemma table2_closed_reachable :
  run [OpenOrder 2 "2024-01-01 10:00:00";
       CloseOrder 2 ["maybe"; " YES "] "2024-01-01 10:30:00"] empty_registry
  = Ok table2_closed.
Proof. vm_compute. reflexivity. Qed.





(** C10: from the empty registry, after any run the assigned order
    numbers are exactly 1, 2, ..., [next_order_number - 1], in this order;
    an operation either leaves the numbers and the counter alone, or it is
    an [open_order] on a free table, which creates one order carrying the
    current counter value and adds one to the counter. *)
Theorem C10_order_numbers_sequential (ops : list Op) (s : State) :
  run ops empty_registry = Ok s ->
  dict_keys (orders s) = seqZ 1 (next_order_number s - 1) /\
  forall op s', step op s = Ok (tt, s') ->
    (dict_keys (orders s') = dict_keys (orders s) /\
     next_order_number s' = next_order_number s /\
     length (objs s') = length (objs s))
    \/
    (exists t now, op = OpenOrder t now /\ tables s !! t = Some None /\
       objs s' = objs s ++ [Order_.init t (next_order_number s) now] /\
       dict_keys (orders s') = dict_keys (orders s) ++ [next_order_number s] /\
       next_order_number s' = next_order_number s + 1).
Proof.
  intros Hrun. assert (Hwf : wf s) by (apply reachable_wf; eexists; eauto).
  split; [apply wf_keys, Hwf |].
  intros op s' Hstep.
  destruct (step_effect op s s' Hwf Hstep)
    as [(Hobjs & -> & ->) | (t & now & -> & Ht & Hfree & Ho & Hord & Hn)].
  - left. repeat split.
    destruct Hobjs as [-> | (r & o & o' & _ & _ & ->)];
      [reflexivity | apply length_insert].
  - right. exists t, now. repeat split; try assumption.
    rewrite Hord. unfold dict_keys. rewrite map_app. reflexivity.
Qed.

Lemma C10_witness :
  dict_keys (orders table2_closed) = [1] /\
  next_order_number table2_closed = 2.
Proof.
  destruct (C10_order_numbers_sequential _ _ table2_closed_reachable)
    as [Hkeys _].
  split; [rewrite Hkeys |]; reflexivity.
Defined.

(** C5: after a successful [close_order] the order is inactive and the
    table is free, so that the next [open_order] on the table creates a
    new order; through every later run the closed order stays exactly as
    it was closed: it never becomes active again and no item is ever
    added to it. *)
Theorem C5_close_is_terminal (s : State) (t : Z) (answers : list string)
    (now : string) (r : nat) (s' : State) :
  reachable s ->
  tables s !! t = Some (Some r) ->
  Cafe.close_order t answers now s = Ok (tt, s') ->
  exists o o',
    objs s !! r = Some o /\ is_active o = true /\
    objs s' !! r = Some o' /\ is_active o' = false /\ items o' = items o /\
    tables s' !! t = Some None /\
    (forall now2, exists s2,
       Cafe.open_order t now2 s' = Ok (tt, s2) /\
       tables s2 !! t = Some (Some (length (objs s'))) /\
       objs s2 = objs s' ++ [Order_.init t (next_order_number s') now2]) /\
    (forall ops s2, run ops s' = Ok s2 -> objs s2 !! r = Some o').
Proof.
  intros Hreach Hslot Hclose.
  pose proof (reachable_wf s Hreach) as Hwf.
  assert (Hwf' : wf s') by exact (step_wf (CloseOrder t answers now) s s' Hwf Hclose).
  apply close_order_cases in Hclose
    as [(Hbad & _) | [(_ & Hno & _) |
          (Ht & r0 & o & choice & out & o' & report & data & Hslot0 & Ho & Ha
             & Hask & Hcl & Hpr & Hd & ->)]].
  - exfalso. apply Hbad, (wf_dom _ Hwf). eauto.
  - exfalso. destruct Hno as [Hnone | (r0 & o & Hslot0 & Ho & Ha)];
      [congruence |].
    destruct (wf_tables _ Hwf _ _ Hslot0) as (o1 & Ho1 & Ha1 & _). congruence.
  - assert (r0 = r) as -> by congruence.
    apply close_order_inv in Hcl as [-> _].
    pose proof (lookup_lt_Some _ _ _ Ho) as Hlt.
    set (o' := Order_.with_is_active (Order_.with_include_packaging o choice) false)
      in *.
    assert (Ho' : <[r := o']> (objs s) !! r = Some o')
      by (apply list_lookup_insert_eq; exact Hlt).
    exists o, o'. cbn [objs tables]. repeat split; try assumption.
    + apply lookup_insert_eq.
    + intros now2. eexists. split.
      * apply open_order_free; [exact Hwf' | exact Ht | apply lookup_insert_eq].
      * cbn [objs tables next_order_number]. split; [| reflexivity].
        apply lookup_insert_eq.
    + intros ops s2 Hrun.
      exact (run_frozen ops _ s2 r o' Hwf' Ho' eq_refl Hrun).
Qed.

Lemma C5_witness :
  exists o',
    objs table2_closed !! 0%nat = Some o' /\ is_active o' = false /\
    tables table2_closed !! 2 = Some None.
Proof.
  destruct (C5_close_is_terminal table2_open 2 ["maybe"; " YES "]
              "2024-01-01 10:30:00" 0 table2_closed)
    as (o & o' & _ & _ & Ho' & Ha' & _ & Hfree & _).
  - eexists. exact table2_open_reachable.
  - reflexivity.
  - vm_compute. reflexivity.
  - exists o'. auto.
Defined.

(** *** Line items of reachable orders *)

Lemma positive_quantity_of item its :
  positive_items its -> 0 <= quantity_of item its.
Proof.
  unfold quantity_of. induction 1 as [| [k q] rest Hq _ IH]; simpl; [lia |].
  destruct (decide (item = k)); simpl in *; [lia | exact IH].
Qed.

Lemma positive_dict_set item (q : Z) its :
  1 <= q -> positive_items its -> positive_items (dict_set item q its).
Proof.
  intros Hq. induction 1 as [| [k v] rest Hv Hrest IH]; simpl.
  - repeat constructor. exact Hq.
  - destruct (decide (item = k)); constructor; auto.
Qed.

Lemma add_items_loop_positive requested : forall its,
  positive_items requested -> positive_items its ->
  positive_items (fst (Order_.add_items_loop its requested)).
Proof.
  induction requested as [| [item_name quantity] rest IH]; intros its Hreq Hits.
  - exact Hits.
  - inversion Hreq as [| ? ? Hq Hrest]; subst. simpl in Hq.
    rewrite add_items_loop_cons. cbn [fst]. apply IH; [exact Hrest |].
    destruct (on_menu item_name) eqn:E.
    + rewrite add_item_known by exact E. cbn [fst].
      apply positive_dict_set; [| exact Hits].
      pose proof (positive_quantity_of (Str.lower item_name) its Hits). lia.
    + rewrite add_item_unknown by exact E. exact Hits.
Qed.

Lemma step_positive op s s' :
  positive_request op ->
  wf s -> (forall r o, objs s !! r = Some o -> positive_items (items o)) ->
  step op s = Ok (tt, s') ->
  forall r o, objs s' !! r = Some o -> positive_items (items o).
Proof.
  intros Hop Hwf Hpos.
  destruct op as [t now | t requested | t answers now | | n |];
    cbn [step]; intros Hstep r1 o1 Ho1.
  - apply open_order_cases in Hstep
      as [(_ & ->) | [(_ & _ & ->) | (Ht & Hfree & data & Hd & ->)]];
      try exact (Hpos r1 o1 Ho1).
    cbn [objs] in Ho1. apply lookup_app_Some in Ho1 as [Ho1 | [_ Ho1]].
    + exact (Hpos r1 o1 Ho1).
    + destruct (r1 - length (objs s))%nat as [| k]; [| destruct k; discriminate].
      injection Ho1 as <-. constructor.
  - apply add_items_to_order_cases in Hstep
      as [(_ & ->) | [(_ & _ & ->) |
            (Ht & r & o & data & Hslot & Ho & Ha & Hd & ->)]];
      try exact (Hpos r1 o1 Ho1).
    cbn [objs] in Ho1. destruct (decide (r = r1)) as [<- | Hne].
    + rewrite list_lookup_insert_eq in Ho1 by (eapply lookup_lt_Some; eauto).
      injection Ho1 as <-. rewrite add_items_fst.
      apply add_items_loop_positive; [exact Hop | exact (Hpos r o Ho)].
    + rewrite list_lookup_insert_ne in Ho1 by exact Hne. exact (Hpos r1 o1 Ho1).
  - apply close_order_cases in Hstep
      as [(_ & ->) | [(_ & _ & ->) |
            (Ht & r & o & choice & out & o' & report & data & Hslot & Ho & Ha
               & Hask & Hcl & Hpr & Hd & ->)]];
      try exact (Hpos r1 o1 Ho1).
    apply close_order_inv in Hcl as [-> _].
    cbn [objs] in Ho1. destruct (decide (r = r1)) as [<- | Hne].
    + rewrite list_lookup_insert_eq in Ho1 by (eapply lookup_lt_Some; eauto).
      injection Ho1 as <-. exact (Hpos r o Ho).
    + rewrite list_lookup_insert_ne in Ho1 by exact Hne. exact (Hpos r1 o1 Ho1).
  - apply view_past_orders_cases in Hstep as (ls & _ & ->).
    exact (Hpos r1 o1 Ho1).
  - apply view_order_summary_cases in Hstep
      as [(_ & ->) | [(r & o & _ & _ & _ & ->) |
            (r & o & rows & subtotal & cgst & sgst & total & _ & _ & _ & _ & _
               & _ & _ & ->)]];
      exact (Hpos r1 o1 Ho1).
  - rewrite (relaunch_wf s Hwf) in Hstep. injection Hstep as <-.
    exact (Hpos r1 o1 Ho1).
Qed.

Lemma run_positive ops : forall s s',
  Forall positive_request ops ->
  wf s -> (forall r o, objs s !! r = Some o -> positive_items (items o)) ->
  run ops s = Ok s' ->
  forall r o, objs s' !! r = Some o -> positive_items (items o).
Proof.
  induction ops as [| op rest IH]; intros s s' Hops Hwf Hpos; cbn [run].
  - intros [= <-]. exact Hpos.
  - inversion Hops as [| ? ? Hop Hrest]; subst.
    destruct (step op s) as [[[] s1] |] eqn:E; [| discriminate].
    apply IH; [exact Hrest | exact (step_wf _ _ _ Hwf E) |].
    exact (step_positive op s s1 Hop Hwf Hpos E).
Qed.

Lemma zero_teas_reachable :
  run [OpenOrder 1 "2024-01-01 10:00:00"; AddItems 1 [("tea", 0)]]
    empty_registry = Ok zero_teas.
Proof. vm_compute. reflexivity. Qed.

(** C9, as stated, fails: requesting zero teas stores the quantity 0. *)
Lemma C9_counterexample :
  ~ (forall s, reachable s ->
       forall r o, objs s !! r = Some o ->
         Forall (fun kq => dict_mem (fst kq) menu = true /\ 1 <= snd kq)
           (items o)).
Proof.
  intros H.
  assert (Hreach : reachable zero_teas)
    by (eexists; exact zero_teas_reachable).
  specialize (H zero_teas Hreach 0%nat _ eq_refl).
  cbn in H. inversion H as [| ? ? [_ Hq] _]; subst. cbn in Hq. lia.
Qed.

(** What one operation adds to the quantity stored for a menu item. *)
Lemma step_stored op s s' r item :
  wf s -> step op s = Ok (tt, s') -> dict_mem item menu = true ->
  stored item r s'
  = stored item r s + requested_quantity item (requests_of r [op] s).
Proof.
  intros Hwf Hstep Hm. cbn [requests_of]. rewrite Hstep, app_nil_r.
  unfold stored.
  destruct op as [t now | t requested | t answers now | | n |];
    cbn [step] in Hstep.
  - apply open_order_cases in Hstep
      as [(_ & ->) | [(_ & _ & ->) | (Ht & Hfree & data & Hd & ->)]];
      cbn [objs Cafe.set_console requested_quantity]; try lia.
    destruct (objs s !! r) as [o |] eqn:Ho.
    + rewrite lookup_app_l by (eapply lookup_lt_Some; eauto). rewrite Ho. lia.
    + apply lookup_ge_None in Ho. rewrite lookup_app_r by exact Ho.
      destruct (r - length (objs s))%nat as [| k]; [reflexivity |].
      destruct k; reflexivity.
  - apply add_items_to_order_cases in Hstep
      as [(Hbad & ->) | [(Ht & Hno & ->) |
            (Ht & r0 & o & data & Hslot & Ho & Ha & Hd & ->)]];
      cbn [objs Cafe.set_console].
    + destruct ((1 <=? t) && (t <=? 6)) eqn:E; cbn [andb requested_quantity];
        [| lia].
      exfalso. apply Hbad. apply andb_prop in E as [E1 E2]. lia.
    + assert (Hn : tables s !! t <> Some (Some r)).
      { intros Hslot. destruct (wf_tables _ Hwf _ _ Hslot) as (o1 & Ho1 & Ha1 & _).
        destruct Hno as [Hnone | (r1 & o2 & Hslot2 & Ho2 & Ha2)]; congruence. }
      rewrite (bool_decide_eq_false_2 _ Hn), andb_false_r.
      cbn [requested_quantity]. lia.
    + destruct (decide (r0 = r)) as [-> | Hne].
      * rewrite list_lookup_insert_eq by (eapply lookup_lt_Some; eauto).
        rewrite Ho, (bool_decide_eq_true_2 _ Hslot).
        replace ((1 <=? t) && (t <=? 6)) with true
          by (symmetry; apply andb_true_intro; split; lia).
        cbn [andb]. rewrite add_items_fst.
        apply add_items_loop_menu_quantity, Hm.
      * rewrite list_lookup_insert_ne by exact Hne.
        rewrite bool_decide_eq_false_2 by congruence.
        rewrite andb_false_r. cbn [requested_quantity]. lia.
  - apply close_order_cases in Hstep
      as [(_ & ->) | [(_ & _ & ->) |
            (Ht & r0 & o & choice & out & o' & report & data & Hslot & Ho & Ha
               & Hask & Hcl & Hpr & Hd & ->)]];
      cbn [objs Cafe.set_console requested_quantity]; try lia.
    apply close_order_inv in Hcl as [-> _].
    destruct (decide (r0 = r)) as [-> | Hne].
    + rewrite list_lookup_insert_eq by (eapply lookup_lt_Some; eauto).
      rewrite Ho. cbn [items Order_.with_is_active Order_.with_include_packaging].
      lia.
    + rewrite list_lookup_insert_ne by exact Hne. lia.
  - apply view_past_orders_cases in Hstep as (ls & _ & ->).
    cbn [objs Cafe.set_console requested_quantity]. lia.
  - apply view_order_summary_cases in Hstep
      as [(_ & ->) | [(r1 & o & _ & _ & _ & ->) |
            (r1 & o & rows & subtotal & cgst & sgst & total & _ & _ & _ & _ & _
               & _ & _ & ->)]];
      cbn [objs Cafe.set_console requested_quantity]; lia.
  - rewrite (relaunch_wf s Hwf) in Hstep. injection Hstep as <-.
    cbn [requested_quantity]. lia.
Qed.

Lemma run_stored ops : forall s s' r item,
  wf s -> run ops s = Ok s' -> dict_mem item menu = true ->
  stored item r s'
  = stored item r s + requested_quantity item (requests_of r ops s).
Proof.
  induction ops as [| op rest IH]; intros s s' r item Hwf Hrun Hm.
  - cbn in *. injection Hrun as <-. lia.
  - cbn [run] in Hrun.
    destruct (step op s) as [[[] s1] |] eqn:E; [| discriminate].
    rewrite (IH s1 s' r item (step_wf _ _ _ Hwf E) Hrun Hm).
    rewrite (step_stored op s s1 r item Hwf E Hm).
    cbn [requests_of]. rewrite E, app_nil_r, requested_quantity_app. lia.
Qed.

(** C9, amended: in every order of a registry reached from the empty one,
    every line-item key is a menu name, and the quantity stored for a menu
    item is the sum of the quantities requested for it, under whatever
    spelling, by the calls that reached the order; so each stored quantity
    is at least 1 when every request of the run asked for at least 1. *)
Theorem C9_line_items_invariant (ops : list Op) (s : State) (r : nat) (o : Order) :
  run ops empty_registry = Ok s ->
  objs s !! r = Some o ->
  keys_on_menu (items o) /\
  (forall item,
     dict_mem item menu = true ->
     quantity_of item (items o)
     = requested_quantity item (requests_of r ops empty_registry)) /\
  (Forall positive_request ops -> positive_items (items o)).
Proof.
  intros Hrun Ho. split; [| split].
  - assert (Hwf : wf s) by (apply reachable_wf; eexists; eauto).
    exact (ok_keys _ _ _ (wf_objs _ Hwf _ _ Ho)).
  - intros item Hm.
    pose proof (run_stored ops empty_registry s r item wf_empty_registry
                  Hrun Hm) as H.
    unfold stored in H. rewrite Ho in H. rewrite H.
    destruct r; reflexivity.
  - intros Hops.
    refine (run_positive ops empty_registry s Hops wf_empty_registry _ Hrun r o Ho).
    intros r0 o0 Ho0. destruct r0; discriminate.
Qed.

Lemma teas_and_coffee_reachable :
  run [OpenOrder 1 "2024-01-01 10:00:00";
       AddItems 1 [("tea", 1); ("Coffee", 1)];
       AddItems 1 [("TEA", 1)]] empty_registry
  = Ok teas_and_coffee.
Proof. vm_compute. reflexivity. Qed.

Lemma C9_witness :
  exists o,
    objs teas_and_coffee !! 0%nat = Some o /\
    items o = [("tea", 2); ("coffee", 1)] /\
    keys_on_menu (items o) /\
    quantity_of "tea" (items o) = 1 + (0 + (1 + 0)) /\
    positive_items (items o).
Proof.
  eexists. split; [reflexivity |]. split; [reflexivity |].
  destruct (C9_line_items_invariant _ teas_and_coffee 0 _
              teas_and_coffee_reachable eq_refl) as (Hkeys & Hsum & Hpos).
  split; [exact Hkeys |].
  split; [exact (Hsum "tea" eq_refl) |]. apply Hpos.
  repeat constructor; cbn; lia.
Defined.

(** *** Persistence round trip *)




(** ** A session

    Table 1 orders a coffee and a tea, closes without packaging, and the
    summary of order 1 is viewed: the last line printed is the net total
    354 and the table is free again. *)
Example session_coffee_and_tea :
  exists s,
    run [OpenOrder 1 "2024-01-01 10:00:00";
         AddItems 1 [("Coffee", 1); ("tea", 1); ("pizza", 1)];
         CloseOrder 1 ["no"] "2024-01-01 10:30:00";
         ViewOrderSummary 1] empty_registry = Ok s /\
    tables s !! 1 = Some None /\
    next_order_number s = 2 /\
    last (console s) = Some (NetTotalLine (float_of 354)) /\
    In (NotOnMenu "Pizza") (console s).
Proof.
  eexists. split; [vm_compute; reflexivity |].
  repeat split; vm_compute; auto 10.
Qed.

(** * Further properties of the orders and the registry *)

(** ** Prices *)

Lemma subtotal_of_raises its e :
  Order_.subtotal_of its = Raise e -> e = KeyError.
Proof.
  induction its as [| [item quantity] rest IH]; cbn [Order_.subtotal_of];
    [discriminate |].
  unfold dict_index.
  destruct (dict_get item menu); cbn; [| intros [= <-]; reflexivity].
  destruct (Order_.subtotal_of rest) as [v | e'] eqn:Er; cbn; [discriminate |].
  intros [= <-]. apply IH. reflexivity.
Qed.

(** X1: [calculate_subtotal] raises [KeyError] exactly when some line item
    is not a menu key (as a hand-edited file can hold), and otherwise
    returns the sum of price times quantity. *)
Theorem subtotal_key_error (o : Order) :
  (Exists off_menu (items o) <->
   Order_.calculate_subtotal o = Raise KeyError) /\
  (keys_on_menu (items o) <->
   Order_.calculate_subtotal o = Ok (bill (items o))).
Proof.
  unfold Order_.calculate_subtotal.
  assert (Hdec : forall its,
            keys_on_menu its \/ Exists off_menu its).
  { induction its as [| [k q] rest [IH | IH]].
    - left. constructor.
    - destruct (dict_mem k menu) eqn:E.
      + left. constructor; assumption.
      + right. constructor. exact E.
    - right. apply Exists_cons_tl. exact IH. }
  assert (Hoff : forall its,
            Exists off_menu its -> Order_.subtotal_of its = Raise KeyError).
  { induction 1 as [[k q] rest Hk | [k q] rest _ IH];
      cbn [Order_.subtotal_of]; unfold dict_index.
    - unfold off_menu, dict_mem in Hk. cbn [fst] in Hk.
      destruct (dict_get k menu); [discriminate | reflexivity].
    - destruct (dict_get k menu); [| reflexivity]. cbn. rewrite IH.
      reflexivity. }
  split; split.
  - apply Hoff.
  - intros Hr. destruct (Hdec (items o)) as [Hk | Hx]; [| exact Hx].
    rewrite (subtotal_of_bill _ Hk) in Hr. discriminate.
  - apply subtotal_of_bill.
  - intros Hr. destruct (Hdec (items o)) as [Hk | Hx]; [exact Hk |].
    rewrite (Hoff _ Hx) in Hr. discriminate.
Qed.

(** ** The packaging prompt *)

(** X2: the packaging prompt skips every answer that is not yes or no
    (after stripping white space and lower-casing), printing one
    complaint for each, and returns on the first that is; when the input
    ends before such an answer it raises [EOFError]. *)
Theorem ask_packaging_first_valid (bad : list string) :
  Forall (fun a => valid_answer a = false) bad ->
  Cafe.ask_packaging bad = Raise EOFError /\
  forall answer rest,
    valid_answer answer = true ->
    Cafe.ask_packaging (bad ++ answer :: rest)
    = Ok (bool_decide (Str.lower (Str.strip answer) = "yes"),
          repeat InvalidYesNo (length bad)).
Proof.
  induction 1 as [| a bad Ha _ [IHe IHv]].
  - split; [reflexivity |]. intros answer rest Hv.
    cbn [app]. rewrite ask_packaging_cons, Hv. reflexivity.
  - split.
    + rewrite ask_packaging_cons, Ha, IHe. reflexivity.
    + intros answer rest Hv. cbn [app length repeat].
      rewrite ask_packaging_cons, Ha, (IHv answer rest Hv). reflexivity.
Qed.

Lemma ask_packaging_witness :
  Cafe.ask_packaging ["y"; ""; "  No "; "yes"] = Ok (false, [InvalidYesNo; InvalidYesNo]).
Proof.
  destruct (ask_packaging_first_valid ["y"; ""]) as [_ H].
  - repeat constructor.
  - exact (H "  No " ["yes"] eq_refl).
Defined.

(** ** The file follows the registry *)



(** ** Tables and active orders *)





(** ** What never changes in an order *)

Lemma close_order_fields o now o' report :
  Order_.close_order o now = Ok (o', report) ->
  order_number o' = order_number o /\ table_number o' = table_number o /\
  order_time o' = order_time o /\ items o' = items o /\
  include_packaging o' = include_packaging o /\ is_active o' = false.
Proof. intros H. apply close_order_inv in H as [-> _]. repeat split. Qed.

Lemma step_object op s s' r o :
  wf s -> step op s = Ok (tt, s') -> objs s !! r = Some o ->
  exists o',
    objs s' !! r = Some o' /\
    order_number o' = order_number o /\ table_number o' = table_number o /\
    order_time o' = order_time o /\
    (is_active o' = true ->
     is_active o = true /\ include_packaging o' = include_packaging o).
Proof.
  intros Hwf Hstep Ho.
  assert (Hsame : exists o', objs s !! r = Some o' /\
            order_number o' = order_number o /\
            table_number o' = table_number o /\
            order_time o' = order_time o /\
            (is_active o' = true ->
             is_active o = true /\ include_packaging o' = include_packaging o))
    by (exists o; auto 10).
  destruct op as [t now | t requested | t answers now | | n |];
    cbn [step] in Hstep.
  - apply open_order_cases in Hstep
      as [(_ & ->) | [(_ & _ & ->) | (Ht & Hfree & data & Hd & ->)]];
      try exact Hsame.
    exists o. cbn [objs]. rewrite lookup_app_l by (eapply lookup_lt_Some; eauto).
    auto 10.
  - apply add_items_to_order_cases in Hstep
      as [(_ & ->) | [(_ & _ & ->) |
            (Ht & r0 & o0 & data & Hslot & Ho0 & Ha & Hd & ->)]];
      try exact Hsame.
    cbn [objs]. destruct (decide (r0 = r)) as [-> | Hne].
    + assert (o0 = o) as -> by congruence.
      destruct (add_items_fields o requested) as (Hn & Htn & Hact & Hp & Htime).
      eexists. rewrite list_lookup_insert_eq by (eapply lookup_lt_Some; eauto).
      split; [reflexivity |]. rewrite Hact. auto 10.
    + exists o. rewrite list_lookup_insert_ne by exact Hne. auto 10.
  - apply close_order_cases in Hstep
      as [(_ & ->) | [(_ & _ & ->) |
            (Ht & r0 & o0 & choice & out & o' & report & data & Hslot & Ho0
               & Ha & Hask & Hcl & Hpr & Hd & ->)]];
      try exact Hsame.
    cbn [objs]. destruct (decide (r0 = r)) as [-> | Hne].
    + assert (o0 = o) as -> by congruence.
      apply close_order_fields in Hcl as (Hn & Htn & Htime & _ & _ & Hact).
      exists o'. rewrite list_lookup_insert_eq by (eapply lookup_lt_Some; eauto).
      rewrite Hact. repeat split; try assumption; discriminate.
    + exists o. rewrite list_lookup_insert_ne by exact Hne. auto 10.
  - apply view_past_orders_cases in Hstep as (ls & _ & ->). exact Hsame.
  - apply view_order_summary_cases in Hstep
      as [(_ & ->) | [(r0 & o0 & _ & _ & _ & ->) |
            (r0 & o0 & rows & subtotal & cgst & sgst & total & _ & _ & _ & _
               & _ & _ & _ & ->)]];
      exact Hsame.
  - rewrite (relaunch_wf s Hwf) in Hstep. injection Hstep as <-. exact Hsame.
Qed.



Lemma step_new_object op s s' r o' :
  wf s -> step op s = Ok (tt, s') ->
  objs s !! r = None -> objs s' !! r = Some o' ->
  exists t now, o' = Order_.init t (next_order_number s) now.
Proof.
  intros Hwf Hstep Hnone Ho'.
  destruct (step_effect op s s' Hwf Hstep)
    as [([Heq | (r0 & o0 & o0' & Ho0 & _ & Heq)] & _ & _) |
        (t & now & _ & _ & _ & Heq & _ & _)]; rewrite Heq in Ho'.
  - congruence.
  - apply lookup_lt_Some in Ho'. rewrite length_insert in Ho'.
    apply lookup_ge_None in Hnone. lia.
  - apply lookup_ge_None in Hnone. rewrite lookup_app_r in Ho' by exact Hnone.
    destruct (r - length (objs s))%nat as [| k]; [| destruct k; discriminate].
    injection Ho' as <-. eauto.
Qed.

(** X7: the packaging flag is decided at close time only: in every
    registry reached from the empty one an active order has the flag
    unset, and a successful [close_order] stores the operator's first
    valid answer in the order it closes. *)
Theorem packaging_decided_at_close (ops : list Op) (s : State) :
  run ops empty_registry = Ok s ->
  (forall r o, objs s !! r = Some o -> is_active o = true ->
     include_packaging o = false) /\
  (forall t r answers now s',
     tables s !! t = Some (Some r) ->
     Cafe.close_order t answers now s = Ok (tt, s') ->
     exists choice out o',
       Cafe.ask_packaging answers = Ok (choice, out) /\
       objs s' !! r = Some o' /\ include_packaging o' = choice).
Proof.
  intros Hrun. assert (Hreach : reachable s) by (eexists; eauto).
  pose proof (reachable_wf s Hreach) as Hwf. split.
  - apply (proj2 (A := wf s)).
    refine (run_invariant
              (fun x => wf x /\
                 forall r o, objs x !! r = Some o -> is_active o = true ->
                   include_packaging o = false)
              _ ops empty_registry s _ Hrun).
    + intros op x x' [Hwfx Hx] Hstep.
      split; [exact (step_wf _ _ _ Hwfx Hstep) |].
      intros r o' Ho' Ha'. destruct (objs x !! r) as [o |] eqn:Ho.
      * destruct (step_object op x x' r o Hwfx Hstep Ho)
          as (o1 & Ho1 & _ & _ & _ & Hact).
        assert (o1 = o') as -> by congruence.
        destruct (Hact Ha') as [Ha ->]. exact (Hx r o Ho Ha).
      * destruct (step_new_object op x x' r o' Hwfx Hstep Ho Ho')
          as (t & now & ->).
        reflexivity.
    + split; [exact wf_empty_registry |]. intros r o Ho. destruct r; discriminate.
  - intros t r answers now s' Hslot Hclose.
    apply close_order_cases in Hclose
      as [(Hbad & _) | [(_ & Hno & _) |
            (Ht & r0 & o & choice & out & o' & report & data & Hslot0 & Ho
               & Ha & Hask & Hcl & Hpr & Hd & ->)]].
    + exfalso. apply Hbad, (wf_dom _ Hwf). eauto.
    + exfalso. destruct Hno as [Hnone | (r0 & o & Hslot0 & Ho & Ha)];
        [congruence |].
      destruct (wf_tables _ Hwf _ _ Hslot0) as (o1 & Ho1 & Ha1 & _).
      congruence.
    + assert (r0 = r) as -> by congruence.
      apply close_order_fields in Hcl as (_ & _ & _ & _ & Hp & _).
      exists choice, out, o'. split; [exact Hask |]. cbn [objs].
      rewrite list_lookup_insert_eq by (eapply lookup_lt_Some; eauto).
      split; [reflexivity | exact Hp].
Qed.

Lemma packaging_decided_at_close_witness :
  exists o',
    objs table2_closed !! 0%nat = Some o' /\ include_packaging o' = true.
Proof.
  destruct (packaging_decided_at_close _ _ table2_open_reachable) as [_ H].
  destruct (H 2 0%nat ["maybe"; " YES "] "2024-01-01 10:30:00" table2_closed)
    as (choice & out & o' & Hask & Ho' & Hp).
  - reflexivity.
  - vm_compute. reflexivity.
  - exists o'. split; [exact Ho' |]. rewrite Hp.
    vm_compute in Hask. injection Hask as <- _. reflexivity.
Defined.

(** ** Reports *)

Lemma completed_from post : forall pre,
  Cafe.completed_lines (pre ++ post)
    (numbered_from (length pre) (length post))
  = Ok (completed_of (length pre) post).
Proof.
  induction post as [| o rest IH]; intros pre; [reflexivity |].
  cbn [length completed_of]. rewrite numbered_from_S.
  unfold Cafe.completed_lines. fold Cafe.completed_lines.
  rewrite list_lookup_middle by reflexivity.
  specialize (IH (pre ++ [o])).
  rewrite <- app_assoc, length_app in IH. cbn [app length] in IH.
  rewrite Nat.add_1_r in IH. rewrite IH. cbn.
  destruct (is_active o); reflexivity.
Qed.

Lemma completed_of_ok os : forall first,
  forallb Msg_ok (completed_of first os) = true.
Proof.
  induction os as [| o rest IH]; intros first; [reflexivity |].
  cbn [completed_of]. destruct (is_active o); [apply IH |].
  cbn [forallb Msg_ok andb]. apply IH.
Qed.

(** X8: in a registry reached from the empty one, [view_past_orders]
    prints its header and then one line for each closed order and none
    for an active one, in ascending order number, with the order's table
    and timestamp; nothing but the console changes. *)
Theorem view_past_orders_lists_closed (ops : list Op) (s : State) :
  run ops empty_registry = Ok s ->
  Cafe.view_past_orders s
  = Ok (tt, Cafe.set_console
              (console s ++ CompletedHeader :: completed_of 0 (objs s)) s).
Proof.
  intros Hrun. assert (Hwf : wf s) by (apply reachable_wf; eexists; eauto).
  pose proof (completed_from (objs s) []) as Hc. cbn [app length] in Hc.
  change (numbered_from 0 (length (objs s)))
    with (numbered (length (objs s))) in Hc.
  rewrite <- (wf_orders _ Hwf) in Hc.
  unfold Cafe.view_past_orders. unfold_m. cbn. rewrite Hc. cbn.
  rewrite completed_of_ok. rewrite <- app_assoc. reflexivity.
Qed.

Lemma view_past_orders_witness :
  exists s',
    Cafe.view_past_orders table2_closed = Ok (tt, s') /\
    last (console s') = Some (CompletedLine 1 2 "2024-01-01 10:00:00").
Proof.
  eexists. split.
  - exact (view_past_orders_lists_closed _ _ table2_closed_reachable).
  - vm_compute. reflexivity.
Defined.

Lemma close_order_report o now o' report :
  Order_.close_order o now = Ok (o', report) ->
  exists rows subtotal cgst sgst total,
    Order_.item_lines (items o') = Ok rows /\
    Order_.calculate_subtotal o' = Ok subtotal /\
    Order_.calculate_taxes subtotal = Ok (cgst, sgst) /\
    Order_.total_of subtotal cgst sgst (include_packaging o') = Ok total /\
    report = closing_lines o' now rows subtotal cgst sgst total.
Proof.
  unfold Order_.close_order, Order_.calculate_subtotal.
  cbn [items include_packaging Order_.with_is_active].
  destruct (Order_.subtotal_of (items o)) as [subtotal |] eqn:Es; cbn;
    [| discriminate].
  destruct (Order_.calculate_taxes subtotal) as [[cgst sgst] |] eqn:Et; cbn;
    [| discriminate].
  destruct (Order_.total_of subtotal cgst sgst (include_packaging o))
    as [total |] eqn:Etot; cbn; [| discriminate].
  destruct (Order_.item_lines (items o)) as [rows |] eqn:Er; cbn;
    [| discriminate].
  intros [= <- <-]. exists rows, subtotal, cgst, sgst, total.
  cbn [items include_packaging Order_.with_is_active].
  repeat split; assumption.
Qed.

(** X9: the bill printed when an order is closed is the bill its summary
    shows afterwards: after a successful [close_order],
    [view_order_summary] of the closed order prints the same item rows,
    subtotal, taxes and total as the closing report. *)
Theorem summary_repeats_closing_report (s s' : State) (t : Z)
    (answers : list string) (now : string) (r : nat) :
  reachable s ->
  tables s !! t = Some (Some r) ->
  Cafe.close_order t answers now s = Ok (tt, s') ->
  exists o' out rows subtotal cgst sgst total,
    objs s' !! r = Some o' /\
    console s'
    = (console s ++ out)
      ++ closing_lines o' now rows subtotal cgst sgst total /\
    Cafe.view_order_summary (Z.of_nat r + 1) s'
    = Ok (tt, Cafe.set_console
                (console s'
                 ++ summary_lines (Z.of_nat r + 1) o' rows subtotal cgst sgst
                      total) s').
Proof.
  intros Hreach Hslot Hclose. pose proof (reachable_wf s Hreach) as Hwf.
  assert (Hwf' : wf s')
    by exact (step_wf (CloseOrder t answers now) s s' Hwf Hclose).
  apply close_order_cases in Hclose
    as [(Hbad & _) | [(_ & Hno & _) |
          (Ht & r0 & o & choice & out & o' & report & data & Hslot0 & Ho & Ha
             & Hask & Hcl & Hpr & Hd & ->)]].
  - exfalso. apply Hbad, (wf_dom _ Hwf). eauto.
  - exfalso. destruct Hno as [Hnone | (r0 & o & Hslot0 & Ho & Ha)];
      [congruence |].
    destruct (wf_tables _ Hwf _ _ Hslot0) as (o1 & Ho1 & Ha1 & _). congruence.
  - assert (r0 = r) as -> by congruence.
    pose proof (close_order_fields _ _ _ _ Hcl) as (_ & _ & _ & _ & _ & Hact).
    destruct (close_order_report _ _ _ _ Hcl)
      as (rows & subtotal & cgst & sgst & total & Hrows & Hs & Htax & Htot & ->).
    pose proof (lookup_lt_Some _ _ _ Ho) as Hlt.
    exists o', out, rows, subtotal, cgst, sgst, total.
    cbn [objs console].
    assert (Ho' : <[r := o']> (objs s) !! r = Some o')
      by (apply list_lookup_insert_eq; exact Hlt).
    split; [exact Ho' |]. split; [reflexivity |].
    assert (Hrok : forallb Msg_ok rows = true).
    { unfold closing_lines in Hpr. cbn [app forallb Msg_ok andb] in Hpr.
      rewrite forallb_app in Hpr. apply andb_prop in Hpr as [H _]. exact H. }
    rewrite (view_order_summary_closed _ _ r o' rows subtotal cgst sgst total);
      [reflexivity | | assumption ..].
    cbn [orders]. rewrite (wf_orders _ Hwf).
    change (numbered (length (objs s)))
      with (numbered_from 0 (length (objs s))).
    rewrite dict_get_numbered_from.
    destruct (decide _) as [_ | Hout]; [| lia].
    f_equal. lia.
Qed.

Lemma summary_repeats_closing_report_witness :
  exists s'' ,
    Cafe.view_order_summary 1 table2_closed = Ok (tt, s'') /\
    last (console table2_closed) = last (console s'').
Proof.
  destruct (summary_repeats_closing_report table2_open table2_closed 2
              ["maybe"; " YES "] "2024-01-01 10:30:00" 0)
    as (o' & out & rows & subtotal & cgst & sgst & total & Ho' & Hcon & Hview).
  - eexists. exact table2_open_reachable.
  - reflexivity.
  - vm_compute. reflexivity.
  - eexists. split; [exact Hview |]. cbn [Cafe.set_console console].
    rewrite Hcon. unfold closing_lines, summary_lines.
    repeat rewrite last_app. reflexivity.
Defined.

(** ** An order too large to bill *)

Lemma ask_packaging_answers answers :
  Exists (fun a => valid_answer a = true) answers ->
  exists choice out, Cafe.ask_packaging answers = Ok (choice, out).
Proof.
  induction answers as [| a rest IH]; intros Hex.
  - inversion Hex.
  - rewrite ask_packaging_cons. destruct (valid_answer a) eqn:Ea; [eauto |].
    destruct IH as (choice & out & ->); [| eauto].
    inversion Hex; subst; [congruence | assumption].
Qed.

Lemma close_order_overflow o now :
  keys_on_menu (items o) -> 2 ^ 1024 <= Z.abs (bill (items o)) ->
  Order_.close_order o now = Raise OverflowError /\
  Order_.calculate_total o = Raise OverflowError.
Proof.
  intros Hk Hb.
  unfold Order_.close_order, Order_.calculate_total, Order_.calculate_subtotal.
  cbn [items Order_.with_is_active].
  rewrite (subtotal_of_bill _ Hk). cbn.
  rewrite calculate_taxes_eq, (of_int_overflow _ Hb). split; reflexivity.
Qed.

(** X10: an order whose subtotal reaches 2^1024 in magnitude cannot be
    billed: the conversion of the subtotal to a float raises
    [OverflowError], so [calculate_total] raises, and [close_order] on its
    table never succeeds: it raises [OverflowError] as soon as the
    packaging prompt is answered, before the table is freed or the file
    written. *)
Theorem huge_order_cannot_be_closed (s : State) (t : Z) (r : nat) (o : Order)
    (answers : list string) (now : string) :
  reachable s ->
  tables s !! t = Some (Some r) -> objs s !! r = Some o ->
  2 ^ 1024 <= Z.abs (bill (items o)) ->
  Order_.calculate_total o = Raise OverflowError /\
  (forall s', Cafe.close_order t answers now s <> Ok (tt, s')) /\
  (Exists (fun a => valid_answer a = true) answers ->
   Cafe.close_order t answers now s = Raise OverflowError).
Proof.
  intros Hreach Hslot Ho Hb. pose proof (reachable_wf s Hreach) as Hwf.
  pose proof (ok_keys _ _ _ (wf_objs _ Hwf _ _ Ho)) as Hk.
  assert (Ht : 1 <= t <= 6) by (apply (wf_dom _ Hwf); eauto).
  assert (Ha : is_active o = true).
  { destruct (wf_tables _ Hwf _ _ Hslot) as (o1 & Ho1 & Ha1 & _). congruence. }
  assert (Hclose : Cafe.close_order t answers now s
                   = match Cafe.ask_packaging answers with
                     | Ok _ => Raise OverflowError
                     | Raise e => Raise e
                     end).
  { unfold Cafe.close_order. unfold mbind at 1. unfold M_bind.
    rewrite (validate_table_number_ok t s Ht). cbn [negb]. unfold_m.
    rewrite Hslot. cbn. rewrite Ho. cbn. rewrite Ha.
    destruct (Cafe.ask_packaging answers) as [[choice out] |] eqn:Eask; cbn;
      [| reflexivity].
    rewrite (ask_packaging_out_ok _ _ _ Eask). cbn.
    destruct (close_order_overflow (Order_.with_include_packaging o choice) now)
      as [-> _]; [exact Hk | exact Hb | reflexivity]. }
  split; [apply close_order_overflow; assumption |]. split.
  - intros s'. rewrite Hclose.
    destruct (Cafe.ask_packaging answers); discriminate.
  - intros Hex. rewrite Hclose.
    destruct (ask_packaging_answers answers Hex) as (choice & out & ->).
    reflexivity.
Qed.

Lemma too_many_teas_reachable :
  run [OpenOrder 1 "2024-01-01 10:00:00"; AddItems 1 [("tea", 2 ^ 1024)]]
    empty_registry = Ok too_many_teas.
Proof. vm_compute. reflexivity. Qed.

Lemma huge_order_cannot_be_closed_witness :
  Cafe.close_order 1 ["no"] "2024-01-01 10:30:00" too_many_teas
  = Raise OverflowError.
Proof.
  refine (proj2 (proj2 (huge_order_cannot_be_closed too_many_teas 1 0 _
                          ["no"] "2024-01-01 10:30:00" _ _ eq_refl _)) _).
  - eexists. exact too_many_teas_reachable.
  - reflexivity.
  - vm_compute. discriminate.
  - constructor. reflexivity.
Defined.

(** ** Starting the registry *)

Lemma init_no_file n :
  Cafe.init n None
  = Ok (mkState [] (Cafe.free_tables n) [] 1 None []).
Proof. reflexivity. Qed.

(** X11: the table check is fixed at 1 to 6 whatever number of tables
    [Cafe] was built with.  In a [Cafe(n)] started without a file, a table
    number from [n + 1] to 6 passes the check and the lookup in the tables
    dict raises [KeyError] in all three table operations, and a table
    number above 6 is refused as invalid even when the table exists. *)
Theorem table_check_ignores_num_tables (n t : Z) (now : string)
    (requested : list (string * Z)) (answers : list string) :
  let s := mkState [] (Cafe.free_tables n) [] 1 None [] in
  Cafe.init n None = Ok s /\
  (1 <= t <= 6 -> n < t ->
   Cafe.open_order t now s = Raise KeyError /\
   Cafe.add_items_to_order t requested s = Raise KeyError /\
   Cafe.close_order t answers now s = Raise KeyError) /\
  (6 < t <= n ->
   tables s !! t = Some None /\
   Cafe.open_order t now s
   = Ok (tt, Cafe.set_console [InvalidTable] s)).
Proof.
  intros s. split; [reflexivity |]. split.
  - intros Ht Hn.
    assert (Hmiss : tables s !! t = None).
    { cbn [tables s]. rewrite free_tables_lookup.
      destruct (decide _); [lia | reflexivity]. }
    repeat split.
    + unfold Cafe.open_order. unfold mbind at 1. unfold M_bind.
      rewrite (validate_table_number_ok t s Ht). cbn [negb]. unfold_m.
      rewrite Hmiss. reflexivity.
    + unfold Cafe.add_items_to_order. unfold mbind at 1. unfold M_bind.
      rewrite (validate_table_number_ok t s Ht). cbn [negb]. unfold_m.
      rewrite Hmiss. reflexivity.
    + unfold Cafe.close_order. unfold mbind at 1. unfold M_bind.
      rewrite (validate_table_number_ok t s Ht). cbn [negb]. unfold_m.
      rewrite Hmiss. reflexivity.
  - intros Ht. split.
    + cbn [tables s]. rewrite free_tables_lookup.
      destruct (decide _); [reflexivity | lia].
    + unfold Cafe.open_order. unfold mbind at 1. unfold M_bind.
      rewrite validate_table_number_bad by lia. reflexivity.
Qed.

Lemma table_check_witness :
  Cafe.open_order 5 "2024-01-01 10:00:00"
    (mkState [] (Cafe.free_tables 3) [] 1 None []) = Raise KeyError.
Proof.
  destruct (table_check_ignores_num_tables 3 5 "2024-01-01 10:00:00" [] [])
    as (_ & H & _).
  destruct H as (Hopen & _); [lia | lia | exact Hopen].
Defined.

(** *** Loading any file *)

Lemma fold_max_ge ks : forall acc k,
  (k = acc \/ In k ks) -> k <= fold_left Z.max ks acc.
Proof.
  induction ks as [| x ks IH]; intros acc k [-> | Hin]; cbn [fold_left].
  - lia.
  - inversion Hin.
  - transitivity (Z.max acc x); [lia |]. apply IH. left. reflexivity.
  - destruct Hin as [-> | Hin].
    + transitivity (Z.max acc k); [lia |]. apply IH. left. reflexivity.
    + apply IH. right. exact Hin.
Qed.

Lemma max_key_ge (d : list (Z * nat)) k r :
  dict_get k d = Some r -> k <= Cafe.max_key d.
Proof.
  intros Hg. assert (Hin : In k (dict_keys d)).
  { induction d as [| [k' v] rest IH]; cbn in *; [discriminate |].
    destruct (decide (k = k')); [left; congruence | right; auto]. }
  unfold Cafe.max_key. destruct (dict_keys d) as [| k0 ks]; [inversion Hin |].
  apply fold_max_ge. destruct Hin as [-> | Hin]; auto.
Qed.

Lemma load_order_inv key order_data s s' :
  Cafe.load_order key order_data s = Ok (tt, s') ->
  exists o,
    objs s' = objs s ++ [o] /\
    Json.int_of_str key = Ok (order_number o) /\
    Json.field "table_number" order_data = Ok (JInt (table_number o)) /\
    orders s' = dict_set (order_number o) (length (objs s)) (orders s) /\
    tables s'
    = (if is_active o
       then <[table_number o := Some (length (objs s))]> (tables s)
       else tables s) /\
    next_order_number s' = next_order_number s /\
    disk s' = disk s /\ console s' = console s.
Proof.
  unfold Cafe.load_order. unfold_m.
  destruct (Json.field "table_number" order_data) as [j1 |] eqn:E1; cbn;
    [| discriminate].
  destruct j1 as [| | tn | |]; cbn; try discriminate.
  destruct (Json.int_of_str key) as [n |]; cbn; [| discriminate].
  destruct (Json.field "items" order_data) as [j2 |]; cbn; [| discriminate].
  destruct (Json.as_items j2) as [its |]; cbn; [| discriminate].
  destruct (Json.field "is_active" order_data) as [j3 |]; cbn;
    [| discriminate].
  destruct (Json.as_bool j3) as [active |]; cbn; [| discriminate].
  destruct (Json.field "include_packaging" order_data) as [j4 |]; cbn;
    [| discriminate].
  destruct (Json.as_bool j4) as [packaging |]; cbn; [| discriminate].
  destruct (Json.field "order_time" order_data) as [j5 |]; cbn;
    [| discriminate].
  destruct (Json.as_str j5) as [time |]; cbn; [| discriminate].
  destruct active; cbn; intros [= <-];
    [exists (mkOrder tn n its true packaging time)
    | exists (mkOrder tn n its false packaging time)]; cbn; auto 10.
Qed.

Lemma load_loop_inv data : forall s s',
  Cafe.load_loop data s = Ok (tt, s') ->
  (forall t r, tables s !! t = Some (Some r) ->
     exists o, objs s !! r = Some o /\ is_active o = true /\
               table_number o = t) ->
  length (objs s') = (length (objs s) + length data)%nat /\
  next_order_number s' = next_order_number s /\
  disk s' = disk s /\ console s' = console s /\
  (forall r o, objs s !! r = Some o -> objs s' !! r = Some o) /\
  (forall t r, tables s' !! t = Some (Some r) ->
     exists o, objs s' !! r = Some o /\ is_active o = true /\
               table_number o = t).
Proof.
  induction data as [| [key order_data] rest IH]; intros s s' Hload Hinv.
  - cbn in Hload. injection Hload as <-. rewrite Nat.add_0_r. auto 10.
  - cbn [Cafe.load_loop] in Hload. unfold mbind, M_bind in Hload.
    destruct (Cafe.load_order key order_data s) as [[[] s1] |] eqn:E1;
      [| discriminate].
    destruct (load_order_inv _ _ _ _ E1)
      as (o & Hobjs & _ & _ & _ & Htables & Hnext & Hdisk & Hcon).
    destruct (IH s1 s' Hload) as (Hlen & Hn & Hd & Hc & Hkeep & Htab).
    + intros t r. rewrite Htables, Hobjs.
      destruct (is_active o) eqn:Ha.
      * destruct (decide (table_number o = t)) as [<- | Hne].
        -- rewrite lookup_insert_eq. intros [= <-]. exists o.
           rewrite list_lookup_middle by reflexivity. auto.
        -- rewrite lookup_insert_ne by exact Hne. intros Hslot.
           destruct (Hinv t r Hslot) as (o1 & Ho1 & Ha1 & Ht1).
           exists o1. rewrite lookup_app_l by (eapply lookup_lt_Some; eauto).
           auto.
      * intros Hslot. destruct (Hinv t r Hslot) as (o1 & Ho1 & Ha1 & Ht1).
        exists o1. rewrite lookup_app_l by (eapply lookup_lt_Some; eauto).
        auto.
    + rewrite Hlen, Hobjs, length_app. cbn [length].
      repeat split; try congruence; try lia; try assumption.
      intros r o1 Ho1. apply Hkeep. rewrite Hobjs.
      rewrite lookup_app_l by (eapply lookup_lt_Some; eauto). exact Ho1.
Qed.

(** X12: whatever file [Cafe()] loads without raising, it builds one
    order object per entry, leaves the next order number above every
    order number of the file (so that a new order never replaces a loaded
    one), and lets a table point only to an active order that carries the
    table's number. *)
Theorem load_any_file (n : Z) (data : list (string * json)) (s : State) :
  Cafe.init n (Some data) = Ok s ->
  length (objs s) = length data /\
  next_order_number s = Cafe.max_key (orders s) + 1 /\
  (forall k r, dict_get k (orders s) = Some r -> k < next_order_number s) /\
  dict_get (next_order_number s) (orders s) = None /\
  (forall t r, tables s !! t = Some (Some r) ->
     exists o, objs s !! r = Some o /\ is_active o = true /\
               table_number o = t).
Proof.
  unfold Cafe.init, Cafe.load_orders, Cafe.gets, Cafe.modify.
  unfold mbind, M_bind, res_bind. cbn [disk].
  destruct (Cafe.load_loop data _) as [[[] s1] |] eqn:Eloop; [| discriminate].
  intros [= <-].
  destruct (load_loop_inv data _ s1 Eloop) as (Hlen & _ & _ & _ & _ & Htab).
  { intros t r. cbn [tables]. rewrite free_tables_lookup.
    destruct (decide _); discriminate. }
  cbn [objs length Nat.add] in Hlen.
  assert (Hlt : forall k r,
            dict_get k (orders s1) = Some r -> k < Cafe.max_key (orders s1) + 1).
  { intros k r Hg. pose proof (max_key_ge _ _ _ Hg). lia. }
  cbn. repeat split; try assumption.
  destruct (dict_get (Cafe.max_key (orders s1) + 1) (orders s1)) as [r |] eqn:E;
    [| reflexivity].
  specialize (Hlt _ _ E). lia.
Qed.

Lemma load_any_file_witness :
  exists s,
    Cafe.init 6 (Some [("7", Json.vars (coffee_and_tea true))]) = Ok s /\
    next_order_number s = 8 /\ length (objs s) = 1%nat.
Proof.
  eexists. split; [vm_compute; reflexivity |].
  destruct (load_any_file 6 [("7", Json.vars (coffee_and_tea true))] _
              ltac:(vm_compute; reflexivity)) as (Hlen & Hnext & _).
  split; [rewrite Hnext; reflexivity | exact Hlen].
Defined.

(** ** The shell: reading the items line *)

Lemma lower_char_idem c : Str.lower_char (Str.lower_char c) = Str.lower_char c.
Proof. destruct c as [[] [] [] [] [] [] [] []]; reflexivity. Qed.

Lemma lower_idem s : Str.lower (Str.lower s) = Str.lower s.
Proof.
  induction s as [| c s IH]; simpl; [reflexivity |].
  rewrite lower_char_idem, IH. reflexivity.
Qed.

Lemma dict_keys_set {V} (k : string) (v : V) d :
  dict_keys (dict_set k v d)
  = if dict_mem k d then dict_keys d else dict_keys d ++ [k].
Proof.
  unfold dict_mem, dict_keys.
  induction d as [| [k' v'] rest IH]; simpl; [reflexivity |].
  destruct (decide (k = k')) as [-> | Hne]; simpl; [reflexivity |].
  rewrite IH. destruct (dict_get k rest); reflexivity.
Qed.

Lemma dict_mem_keys {V} (k : string) (d : list (string * V)) :
  dict_mem k d = false -> k ∉ dict_keys d.
Proof.
  unfold dict_mem, dict_keys.
  induction d as [| [k' v'] rest IH]; simpl; [intros _; apply not_elem_of_nil |].
  destruct (decide (k = k')) as [-> | Hne]; [discriminate |].
  intros H. apply not_elem_of_cons. split; [exact Hne | exact (IH H)].
Qed.

Lemma dict_set_nodup {V} (k : string) (v : V) d :
  NoDup (dict_keys d) -> NoDup (dict_keys (dict_set k v d)).
Proof.
  intros Hd. rewrite dict_keys_set.
  destruct (dict_mem k d) eqn:E; [exact Hd |].
  apply NoDup_app. split; [exact Hd |]. split.
  - intros x Hx Hk. apply list_elem_of_singleton in Hk as ->.
    exact (dict_mem_keys _ _ E Hx).
  - apply NoDup_singleton.
Qed.

Lemma dict_set_lower {V} (k : string) (v : V) d :
  Forall (fun k => Str.lower k = k) (dict_keys d) ->
  Forall (fun k => Str.lower k = k) (dict_keys (dict_set (Str.lower k) v d)).
Proof.
  intros Hd. rewrite dict_keys_set.
  destruct (dict_mem _ d); [exact Hd |].
  apply Forall_app. split; [exact Hd |].
  constructor; [apply lower_idem | constructor].
Qed.

Lemma dict_set_not_nil {V} (k : string) (v : V) d : dict_set k v d <> [].
Proof.
  destruct d as [| [k' v'] rest]; simpl; [| destruct (decide _)]; discriminate.
Qed.

Lemma is_dict_nil : is_dict [].
Proof. split; [apply NoDup_nil_2 | constructor]. Qed.

Lemma is_dict_set name q items :
  is_dict items -> is_dict (dict_set (Str.lower name) q items).
Proof.
  intros [H1 H2]. split; [apply dict_set_nodup | apply dict_set_lower]; assumption.
Qed.

Lemma reads_refl w : reads w w.
Proof.
  split; [reflexivity |]. split; [reflexivity |]. split; [reflexivity |].
  split; [reflexivity |].
  exists []. split; [symmetry; apply app_nil_r | intros []].
Qed.

Lemma reads_trans w1 w2 w3 : reads w1 w2 -> reads w2 w3 -> reads w1 w3.
Proof.
  intros (Hc & Ht & Hk & Hs & out & Ho & Hn)
    (Hc' & Ht' & Hk' & Hs' & out' & Ho' & Hn').
  split; [congruence |]. split; [congruence |]. split; [congruence |].
  split; [etransitivity; eassumption |].
  exists (out ++ out'). split.
  - rewrite Ho', Ho, app_assoc. reflexivity.
  - intros H. apply in_app_iff in H as [H | H]; auto.
Qed.

Lemma read_quantity_suffix lines q rest refused :
  Shell.read_quantity lines = Some (q, rest, refused) ->
  rest `suffix_of` lines.
Proof.
  revert q rest refused.
  induction lines as [| line lines IH]; simpl; [discriminate |].
  intros q rest refused. destruct (Shell.int line).
  - intros [= <- <- <-]. apply suffix_cons_r. reflexivity.
  - destruct (Shell.read_quantity lines) as [[[q' rest'] refused'] |];
      [| discriminate].
    intros [= <- <- <-]. apply suffix_cons_r. exact (IH _ _ _ eq_refl).
Qed.

Lemma parse_item_reads items item w :
  match Shell.parse_item items item w with
  | WOk _ w' | WValueError w' => reads w w'
  | WCrash _ => True
  end.
Proof.
  unfold Shell.parse_item.
  destruct (Shell.words (Str.strip item)) as [| name [| number more]];
    [exact I | |].
  - unfold mbind, W_bind, Shell.ask_quantity.
    destruct (Shell.read_quantity (stdin w)) as [[[q rest] refused] |] eqn:E;
      [| exact I].
    simpl. apply read_quantity_suffix in E.
    split; [reflexivity |]. split; [reflexivity |]. split; [reflexivity |].
    split; [exact E |].
    exists (repeat InvalidNumber refused). split; [reflexivity |].
    intros H. apply repeat_spec in H. discriminate.
  - destruct (Shell.int number); apply reads_refl.
Qed.

Lemma parse_item_sets items item w items' w' :
  Shell.parse_item items item w = WOk items' w' ->
  exists name q, items' = dict_set (Str.lower name) q items.
Proof.
  unfold Shell.parse_item.
  destruct (Shell.words (Str.strip item)) as [| name [| number more]];
    [discriminate | |].
  - unfold mbind, W_bind, Shell.ask_quantity.
    destruct (Shell.read_quantity (stdin w)) as [[[q rest] refused] |];
      [| discriminate].
    intros [= <- <-]. eauto.
  - destruct (Shell.int number); [| discriminate]. intros [= <- <-]. eauto.
Qed.

Lemma parse_items_spec pieces : forall items w,
  is_dict items ->
  match Shell.parse_items items pieces w with
  | WOk items' w' =>
      is_dict items' /\ (items <> [] \/ pieces <> [] -> items' <> [])
      /\ reads w w'
  | WValueError w' => reads w w'
  | WCrash _ => True
  end.
Proof.
  induction pieces as [| item rest IH]; intros items w Hd; simpl.
  - unfold mret, W_ret. split; [exact Hd |]. split; [| apply reads_refl].
    intros [H | H]; congruence.
  - unfold mbind, W_bind.
    pose proof (parse_item_reads items item w) as Hr.
    destruct (Shell.parse_item items item w) as [items1 w1 | w1 | e] eqn:E;
      [| exact Hr | exact I].
    apply parse_item_sets in E as (name & q & ->).
    specialize (IH _ w1 (is_dict_set name q items Hd)).
    destruct (Shell.parse_items _ rest w1) as [items2 w2 | w2 | e].
    + destruct IH as (H1 & H2 & H3). split; [exact H1 |].
      split; [| exact (reads_trans _ _ _ Hr H3)].
      intros _. apply H2. left. apply dict_set_not_nil.
    + exact (reads_trans _ _ _ Hr IH).
    + exact I.
Qed.

Lemma parse_items_app a : forall acc b w,
  Shell.parse_items acc (a ++ b) w
  = match Shell.parse_items acc a w with
    | WOk acc' w' => Shell.parse_items acc' b w'
    | WValueError w' => WValueError w'
    | WCrash e => WCrash e
    end.
Proof.
  induction a as [| item a IH]; intros acc b w; [reflexivity |].
  cbn [app Shell.parse_items]. unfold mbind, W_bind.
  destruct (Shell.parse_item acc item w); [apply IH | reflexivity | reflexivity].
Qed.

Lemma parse_item_blank acc piece w :
  blank piece -> Shell.parse_item acc piece w = WCrash IndexError.
Proof. unfold blank, Shell.parse_item. intros ->. reflexivity. Qed.

Lemma parse_items_blank pieces : forall acc w,
  Exists blank pieces ->
  forall items w', Shell.parse_items acc pieces w <> WOk items w'.
Proof.
  induction pieces as [| piece rest IH]; intros acc w H; [inversion H |].
  intros items w'. cbn [Shell.parse_items]. unfold mbind, W_bind.
  inversion H as [? ? Hb | ? ? Hr]; subst.
  - rewrite (parse_item_blank _ _ _ Hb). discriminate.
  - destruct (Shell.parse_item acc piece w); [apply IH, Hr | |]; discriminate.
Qed.

(** *** [str.split] *)


Lemma all_chars_impl (P Q : ascii -> bool) s :
  (forall c, P c = true -> Q c = true) ->
  all_chars P s = true -> all_chars Q s = true.
Proof.
  intros HPQ. induction s as [| c s IH]; simpl; [reflexivity |].
  intros H. apply andb_prop in H as [Hc Hs].
  rewrite (HPQ c Hc), (IH Hs). reflexivity.
Qed.

Lemma split_on_not_nil sep s : Shell.split_on sep s <> [].
Proof.
  destruct s as [| c s]; simpl; [discriminate |].
  destruct (Ascii.eqb c sep); [discriminate |].
  destruct (Shell.split_on sep s); discriminate.
Qed.

Lemma split_on_single a :
  all_chars no_comma a = true -> Shell.split_on "," a = [a].
Proof.
  induction a as [| c a IH]; simpl; [reflexivity |].
  intros H. apply andb_prop in H as [Hc Ha].
  unfold no_comma in Hc. apply negb_true_iff in Hc. rewrite Hc, (IH Ha).
  reflexivity.
Qed.


Lemma split_on_snoc sep s :
  Shell.split_on sep (s ++ String sep EmptyString)
  = Shell.split_on sep s ++ [EmptyString].
Proof.
  induction s as [| c s IH]; simpl.
  - rewrite Ascii.eqb_refl. reflexivity.
  - destruct (Ascii.eqb c sep); rewrite IH; [reflexivity |].
    pose proof (split_on_not_nil sep s) as Hn.
    destruct (Shell.split_on sep s); [congruence | reflexivity].
Qed.

Lemma words_lstrip s : Shell.words (Str.lstrip s) = Shell.words s.
Proof.
  induction s as [| c s IH]; simpl; [reflexivity |].
  destruct (Str.is_space c) eqn:E; [exact IH |].
  simpl. rewrite E. reflexivity.
Qed.

Lemma rstrip_head c s c1 r1 :
  Str.rstrip (String c s) = String c1 r1 -> c1 = c.
Proof.
  simpl. destruct (Str.rstrip s); [destruct (Str.is_space c) |]; congruence.
Qed.

Lemma words_rstrip s : Shell.words (Str.rstrip s) = Shell.words s.
Proof.
  induction s as [| c s IH]; [reflexivity |].
  change (Str.rstrip (String c s))
    with (match Str.rstrip s with
          | EmptyString =>
              if Str.is_space c then EmptyString else String c EmptyString
          | r => String c r
          end).
  destruct (Str.rstrip s) as [| c1 r1] eqn:Er.
  - simpl in IH. destruct (Str.is_space c) eqn:Ec; simpl; rewrite Ec.
    + exact IH.
    + destruct s as [| c' s']; [reflexivity |].
      rewrite <- IH. destruct (Str.is_space c'); reflexivity.
  - destruct s as [| c' s']; [discriminate |].
    apply rstrip_head in Er as Hc. subst c1.
    change (Shell.words (String c (String c' r1)))
      with (if Str.is_space c then Shell.words (String c' r1)
            else if Str.is_space c'
                 then String c EmptyString :: Shell.words (String c' r1)
            else match Shell.words (String c' r1) with
                 | w :: ws => String c w :: ws
                 | [] => [String c EmptyString]
                 end).
    change (Shell.words (String c (String c' s')))
      with (if Str.is_space c then Shell.words (String c' s')
            else if Str.is_space c'
                 then String c EmptyString :: Shell.words (String c' s')
            else match Shell.words (String c' s') with
                 | w :: ws => String c w :: ws
                 | [] => [String c EmptyString]
                 end).
    rewrite IH. reflexivity.
Qed.

(** The [strip] of line 195 changes nothing for the [split] that follows. *)
Lemma words_strip s : Shell.words (Str.strip s) = Shell.words s.
Proof. unfold Str.strip. rewrite words_rstrip. apply words_lstrip. Qed.

Lemma words_solid w :
  w <> EmptyString -> all_chars no_space w = true -> Shell.words w = [w].
Proof.
  induction w as [| c w IH]; [congruence |]. intros _ H.
  simpl in H. apply andb_prop in H as [Hc Hw].
  unfold no_space in Hc. apply negb_true_iff in Hc.
  simpl. rewrite Hc. destruct w as [| c' w']; [reflexivity |].
  rewrite (IH ltac:(discriminate) Hw).
  simpl in Hw. apply andb_prop in Hw as [Hc' _].
  unfold no_space in Hc'. apply negb_true_iff in Hc'. rewrite Hc'. reflexivity.
Qed.


(** *** [int] on a printed integer *)





Lemma word_no_comma c : word_char c = true -> no_comma c = true.
Proof. unfold word_char. intros H. apply andb_prop in H as [_ H]. exact H. Qed.

Lemma word_no_space c : word_char c = true -> no_space c = true.
Proof. unfold word_char. intros H. apply andb_prop in H as [H _]. exact H. Qed.

(** *** The pieces of a rendered line *)








Lemma read_quantity_after bad good q rest :
  Forall (fun line => Shell.int line = Raise ValueError) bad ->
  Shell.int good = Ok q ->
  Shell.read_quantity (bad ++ good :: rest) = Some (q, rest, length bad).
Proof.
  intros Hbad Hgood. induction Hbad as [| line bad Hline _ IH]; simpl.
  - rewrite Hgood. reflexivity.
  - rewrite Hline, IH. reflexivity.
Qed.

(** X13: what [parse_items_input] returns is a dict with at least one
    key, its keys in lower case and each once; reading the line has
    neither changed the registry nor printed anything but the complaints
    of the quantity prompt, and has only taken lines off the input. *)
Theorem parse_items_input_returns_dict (s : string) (w w' : World)
    (items : list (string * Z)) :
  Shell.parse_items_input s w = WOk items w' ->
  items <> [] /\ NoDup (dict_keys items)
  /\ Forall (fun k => Str.lower k = k) (dict_keys items)
  /\ cafe w' = cafe w /\ stdin w' `suffix_of` stdin w
  /\ exists refused, shown w' = shown w ++ repeat InvalidNumber refused.
Proof.
  unfold Shell.parse_items_input. intros H.
  pose proof (parse_items_spec (Shell.split_on "," s) [] w is_dict_nil) as Hp.
  rewrite H in Hp. destruct Hp as ([Hd Hl] & Hne & Hc & _ & _ & Hs & _).
  split; [apply Hne; right; apply split_on_not_nil |].
  repeat (split; [assumption |]).
  clear Hd Hl Hne Hc Hs. revert H.
  generalize (Shell.split_on "," s) as pieces. generalize (@nil (string * Z)) as acc.
  intros acc pieces. revert acc w.
  induction pieces as [| piece rest IH]; intros acc w; cbn [Shell.parse_items].
  - intros [= <- <-]. exists 0%nat. symmetry. apply app_nil_r.
  - unfold mbind, W_bind.
    destruct (Shell.parse_item acc piece w) as [acc1 w1 | |] eqn:E;
      [| discriminate | discriminate].
    intros H. destruct (IH _ _ H) as [n2 Hn2].
    assert (H1 : exists n1, shown w1 = shown w ++ repeat InvalidNumber n1).
    { revert E. unfold Shell.parse_item.
      destruct (Shell.words (Str.strip piece)) as [| name [| number more]];
        [discriminate | |].
      - unfold mbind, W_bind, Shell.ask_quantity.
        destruct (Shell.read_quantity (stdin w)) as [[[q rest'] refused] |];
          [| discriminate].
        intros [= <- <-]. exists refused. reflexivity.
      - destruct (Shell.int number); [| discriminate].
        intros [= <- <-]. exists 0%nat. symmetry. apply app_nil_r. }
    destruct H1 as [n1 Hn1]. exists (n1 + n2)%nat.
    rewrite Hn2, Hn1, <- app_assoc, repeat_app. reflexivity.
Qed.

Lemma parse_items_input_witness :
  Shell.parse_items_input "Tea 2, COFFEE" (first_start ["many"; "3"])
  = WOk [("tea", 2); ("coffee", 3)] (mkWorld empty_registry false [] [InvalidNumber] 0)
  /\ [("tea", 2); ("coffee", 3)] <> [].
Proof.
  assert (H : Shell.parse_items_input "Tea 2, COFFEE" (first_start ["many"; "3"])
              = WOk [("tea", 2); ("coffee", 3)]
                  (mkWorld empty_registry false [] [InvalidNumber] 0))
    by (vm_compute; reflexivity).
  split; [exact H |].
  exact (proj1 (parse_items_input_returns_dict _ _ _ _ H)).
Defined.



(** X15: a piece of the items line without a word in it (an empty line,
    two commas in a row, a comma at either end) makes [parts[0]] fail:
    [parse_items_input] never returns a dict for such a line, and raises
    [IndexError] at once when the blank piece is the first. *)
Theorem blank_piece_never_parses (s : string) (w : World) :
  Exists blank (Shell.split_on "," s) ->
  (forall items w', Shell.parse_items_input s w <> WOk items w')
  /\ (blank (hd EmptyString (Shell.split_on "," s)) ->
      Shell.parse_items_input s w = WCrash IndexError).
Proof.
  intros H. unfold Shell.parse_items_input. split.
  - apply parse_items_blank, H.
  - destruct (Shell.split_on "," s) as [| piece rest]; [inversion H |].
    cbn [hd Shell.parse_items]. intros Hb. unfold mbind, W_bind.
    rewrite (parse_item_blank _ _ _ Hb). reflexivity.
Qed.

Lemma blank_piece_witness :
  Shell.parse_items_input ", tea 1" (first_start []) = WCrash IndexError.
Proof.
  refine (proj2 (blank_piece_never_parses ", tea 1" (first_start []) _) _).
  - left. reflexivity.
  - reflexivity.
Defined.

(** X16: for an item entered without a quantity the prompt of lines 201
    to 206 is repeated until a line is an integer literal: every refused
    line is answered by one complaint, and the first accepted line is the
    quantity. *)
Theorem quantity_prompt_repeats (name good : string) (bad rest : list string)
    (q : Z) (w : World) :
  plain name ->
  Forall (fun line => Shell.int line = Raise ValueError) bad ->
  Shell.int good = Ok q ->
  stdin w = bad ++ good :: rest ->
  Shell.parse_items_input name w
  = WOk [(Str.lower name, q)]
      (mkWorld (cafe w) (torn w) rest
         (shown w ++ repeat InvalidNumber (length bad)) (commands w)).
Proof.
  intros [Hn Hp] Hbad Hgood Hin. unfold Shell.parse_items_input.
  rewrite (split_on_single name (all_chars_impl _ _ _ word_no_comma Hp)).
  cbn [Shell.parse_items]. unfold Shell.parse_item.
  rewrite words_strip, (words_solid name Hn (all_chars_impl _ _ _ word_no_space Hp)).
  unfold mbind, W_bind, Shell.ask_quantity.
  rewrite Hin, (read_quantity_after bad good q rest Hbad Hgood).
  reflexivity.
Qed.

Lemma quantity_prompt_witness :
  Shell.parse_items_input "Coffee" (first_start ["two"; ""; "2"; "6"])
  = WOk [("coffee", 2)]
      (mkWorld empty_registry false ["6"] [InvalidNumber; InvalidNumber] 0).
Proof.
  refine (quantity_prompt_repeats "Coffee" "2" ["two"; ""] ["6"] 2
            (first_start ["two"; ""; "2"; "6"]) _ _ _ _).
  - split; [discriminate | reflexivity].
  - repeat constructor.
  - reflexivity.
  - reflexivity.
Defined.
